(** * Column-level lineage over sqlglot ASTs: a shallow embedding

    The development follows the three stages of the repository:
    - [create_manifest_catalog_ref.py]: the reference resolver,
    - [expand_sql_ref.py]: the star expander,
    - [gen_upstream_lineage.py]: the lineage tracer.

    sqlglot expressions are mutable Python objects: a node has a class and
    an ordered dictionary of arguments, and [Expression.set] stores the
    given child object itself.  The tracer rewrites the stored CTE
    transformations in place, so the nodes live in a store and are named by
    their address ([Ast], [Tracer]).  The expander reads and rewrites select
    lists only, and is modelled on that part of the AST ([Expander]); the
    resolver works on the text with two regular expressions ([Regex],
    [Resolver]).  Recursive Python functions take the number of nested
    calls the interpreter still allows; running out of it is Python's
    [RecursionError].  The properties come after the definitions, one
    module per stage. *)

From Stdlib Require Import String Ascii List Bool Arith Lia.
#[local] Set Warnings "-register-all".
From stdpp Require Import base list.
Import ListNotations.
Local Open Scope string_scope.
Local Open Scope list_scope.

(** ** Python exceptions that the modelled code can raise *)

Inductive exn : Type :=
  | NameError (name : string)
  | RecursionError
  | UnboundLocalError (name : string)
  | ValueError (msg : string)
  | NotImplementedError (msg : string)
  | AttributeError (attr : string)
  | KeyError (key : string)
  | IndexError
  | JSONDecodeError.

(** ** sqlglot expressions *)

Module Ast.

(** The expression classes the programs test with [isinstance] (an object
    of a subclass counts as its base class); every other class is [Other]
    with its sqlglot name. *)
Inductive cls : Type :=
  | Column | Identifier | Literal | Boolean | Paren
  | EQ | NEQ | GT | GTE | LT | LTE | Add | Sub | Mul | Div
  | Count | Sum | Min | Max | Avg
  | Case | If | When | Cast | Coalesce | TimestampTrunc
  | Star | Alias | Distinct | Table | Subquery | Select | From
  | With | CTE | Union
  | Other (name : string).

Definition cls_eq_dec (a b : cls) : {a = b} + {a <> b}.
Proof. decide equality. apply string_dec. Defined.

Definition is_cls (a b : cls) : bool := if cls_eq_dec a b then true else false.

(** A Python value found in [node.args] or handed around by the tracer: a
    child expression (by address), a list of child expressions, a plain
    value (identifier text, flag) or [None].
    Identifier children of columns, tables and aliases are kept as their
    text, which is what [Expression.text] reads through them. *)
Inductive argv : Type :=
  | VNode (a : nat)
  | VList (l : list argv)
  | VStr (s : string)
  | VBool (b : bool)
  | VNone.

(** Python truthiness of such a value (an expression object is true). *)
Definition truthy (v : option argv) : bool :=
  match v with
  | Some (VNode _) => true
  | Some (VList l) => negb (Nat.eqb (List.length l) 0)
  | Some (VStr s) => negb (String.eqb s "")
  | Some (VBool b) => b
  | Some VNone | None => false
  end.

Record node : Type := Node { ncls : cls; nargs : list (string * argv) }.

(** The store of expression objects; an address is an index. *)
Abbreviation heap := (list node).

Fixpoint assoc {A : Type} (k : string) (d : list (string * A)) : option A :=
  match d with
  | [] => None
  | (k', v) :: d' => if String.eqb k k' then Some v else assoc k d'
  end.

(** Python dict assignment [d[k] = v]: an existing key keeps its position,
    a new key goes last. *)
Fixpoint dict_set {A : Type} (k : string) (v : A) (d : list (string * A))
  : list (string * A) :=
  match d with
  | [] => [(k, v)]
  | (k', v') :: d' =>
      if String.eqb k k' then (k, v) :: d' else (k', v') :: dict_set k v d'
  end.

Definition keys {A : Type} (d : list (string * A)) : list string := map fst d.

(** [node.args.get(key)] *)
Definition arg (n : node) (key : string) : option argv := assoc key (nargs n).

(** [Expression.text(key)]: the text of a string or identifier argument,
    [""] otherwise. *)
Definition text (h : heap) (n : node) (key : string) : string :=
  match arg n key with
  | Some (VStr s) => s
  | Some (VNode a) =>
      match h !! a with
      | Some c =>
          match ncls c, arg c "this" with
          | Identifier, Some (VStr s) => s
          | Literal, Some (VStr s) => s
          | Star, _ => "*"
          | _, _ => ""
          end
      | None => ""
      end
  | _ => ""
  end.

(** [node.name], and [node.table], [node.db], [node.catalog] of a column or
    a table. *)
Definition name (h : heap) (n : node) : string :=
  match ncls n with Star => "*" | _ => text h n "this" end.
Definition table (h : heap) (n : node) : string := text h n "table".
Definition db (h : heap) (n : node) : string := text h n "db".
Definition catalog (h : heap) (n : node) : string := text h n "catalog".

(** [node.alias]: the text of the [alias] argument. *)
Definition alias (h : heap) (n : node) : string := text h n "alias".

(** [node.alias_or_name] *)
Definition alias_or_name (h : heap) (n : node) : string :=
  if String.eqb (alias h n) "" then name h n else alias h n.

(** [node.set(key, value)] on the object at address [a]. *)
Definition set (a : nat) (key : string) (v : argv) (h : heap) : heap :=
  match h !! a with
  | Some n => <[a := Node (ncls n) (dict_set key v (nargs n))]> h
  | None => h
  end.

(** Allocation of a new expression object. *)
Definition alloc (n : node) (h : heap) : heap * nat := (h ++ [n], List.length h).

(** [exp.column(col, table=t)] *)
Definition column (col t : string) : node :=
  Node Column [("this", VStr col); ("table", VStr t)].

(** [exp.to_column(col)] for a plain name, and [exp.to_identifier(col)]. *)
Definition to_column (col : string) : node := Node Column [("this", VStr col)].
Definition to_identifier (col : string) : node :=
  Node Identifier [("this", VStr col)].

Fixpoint join (sep : string) (l : list string) : string :=
  match l with
  | [] => ""
  | [x] => x
  | x :: l' => String.append x (String.append sep (join sep l'))
  end.

(** [s.split(sep)] for a non-empty separator. *)
Fixpoint split_go (sep s : string) (skip : nat) (cur : string) : list string :=
  match s with
  | EmptyString => [cur]
  | String c s' =>
      match skip with
      | S k => split_go sep s' k cur
      | 0 =>
          if String.prefix sep s
          then cur :: split_go sep s' (String.length sep - 1) ""
          else split_go sep s' 0 (String.append cur (String c EmptyString))
      end
  end.
Definition split (sep s : string) : list string := split_go sep s 0 "".

(** [column.sql()]: the dotted path catalog.db.table.name, empty parts
    left out (identifier quoting is not modelled). *)
Definition column_sql (h : heap) (n : node) : string :=
  join "." (List.filter (fun s => negb (String.eqb s ""))
              [catalog h n; db h n; table h n; name h n]).

End Ast.

(** ** Regular expressions ([re.search], [re.sub])

    A backtracking matcher for the fragment of Python's [re] syntax that the
    two programs use: literal characters, character classes under the
    greedy [*] and [+], the greedy [?] and capture groups.  Characters are
    code points below 256; [\s] and [\w] are their ASCII parts. *)

Module Regex.

Inductive re : Type :=
  | Eps                                 (* the empty pattern *)
  | Chr (c : ascii)
  | Many (p : ascii -> bool)            (* [p*] *)
  | Many1 (p : ascii -> bool)           (* [p+] *)
  | Opt (r : re)                        (* [r?] *)
  | Seq (r1 r2 : re)
  | Group (i : nat) (r : re).           (* the [i]-th parenthesis *)

(** The groups of a match: [None] for a group that took no part. *)
Abbreviation groups := (list (option string)).

Fixpoint take (n : nat) (s : string) : string :=
  match n, s with
  | S n', String c s' => String c (take n' s')
  | _, _ => EmptyString
  end.

(** The text consumed between [s] and its suffix [rest]. *)
Definition consumed (s rest : string) : string :=
  take (String.length s - String.length rest) s.

Fixpoint set_group (i : nat) (v : string) (g : groups) : groups :=
  match i, g with
  | 0, _ :: g' => Some v :: g'
  | 0, [] => [Some v]
  | S i', x :: g' => x :: set_group i' v g'
  | S i', [] => None :: set_group i' v []
  end.

Section Match.
Context {R : Type}.

(** Greedy repetition of a class: the longest run first, then shorter ones. *)
Fixpoint many (p : ascii -> bool) (s : string) (k : string -> option R)
  : option R :=
  match s with
  | String c s' =>
      if p c then
        match many p s' k with
        | Some r => Some r
        | None => k s
        end
      else k s
  | EmptyString => k s
  end.

(** [matches r s g k]: match [r] at the start of [s], then continue with [k]
    on the rest; the first success in backtracking order. *)
Fixpoint matches (r : re) (s : string) (g : groups)
    (k : string -> groups -> option R) : option R :=
  match r with
  | Eps => k s g
  | Chr c =>
      match s with
      | String c' s' => if Ascii.eqb c c' then k s' g else None
      | EmptyString => None
      end
  | Many p => many p s (fun rest => k rest g)
  | Many1 p =>
      match s with
      | String c s' => if p c then many p s' (fun rest => k rest g) else None
      | EmptyString => None
      end
  | Opt r' =>
      match matches r' s g k with
      | Some x => Some x
      | None => k s g
      end
  | Seq r1 r2 => matches r1 s g (fun rest g' => matches r2 rest g' k)
  | Group i r' =>
      matches r' s g (fun rest g' => k rest (set_group i (consumed s rest) g'))
  end.
End Match.

(** [pattern.match(s)]: the rest of [s] after the match, and the groups. *)
Definition match_at (r : re) (s : string) : option (string * groups) :=
  matches r s [] (fun rest g => Some (rest, g)).

(** A literal word, followed by [r]. *)
Fixpoint lit (w : string) (r : re) : re :=
  match w with
  | EmptyString => r
  | String c w' => Seq (Chr c) (lit w' r)
  end.

(** [re.search(r, s)]: the leftmost match, as (matched text, groups). *)
Fixpoint search (r : re) (s : string) : option (string * groups) :=
  match match_at r s with
  | Some (rest, g) => Some (consumed s rest, g)
  | None =>
      match s with
      | String _ s' => search r s'
      | EmptyString => None
      end
  end.

(** [re.sub(r, repl, s)] for a pattern that matches no empty string: the
    non-overlapping matches, left to right, each replaced by [repl] of its
    text and groups.  [skip] counts the characters of the current match
    still to pass over. *)
Fixpoint sub_go (r : re) (repl : string -> groups -> string) (s : string)
    (skip : nat) : string :=
  match skip, s with
  | S k, String _ s' => sub_go r repl s' k
  | S _, EmptyString => EmptyString
  | 0, _ =>
      match match_at r s, s with
      | Some (rest, g), String _ s' =>
          let m := consumed s rest in
          String.append (repl m g) (sub_go r repl s' (String.length m - 1))
      | Some (rest, g), EmptyString => repl EmptyString g
      | None, String c s' => String c (sub_go r repl s' 0)
      | None, EmptyString => EmptyString
      end
  end.
Definition sub (r : re) (repl : string -> groups -> string) (s : string)
  : string := sub_go r repl s 0.

(** The double quote. *)
Definition dquote : ascii := ascii_of_nat 34.

(** [\s] and [\w] on ASCII. *)
Definition is_space (c : ascii) : bool :=
  let n := nat_of_ascii c in
  (Nat.leb 9 n && Nat.leb n 13) || (Nat.leb 28 n && Nat.leb n 32).
Definition is_word (c : ascii) : bool :=
  let n := nat_of_ascii c in
  (Nat.leb 48 n && Nat.leb n 57) || (Nat.leb 65 n && Nat.leb n 90)
  || (Nat.leb 97 n && Nat.leb n 122) || Nat.eqb n 95.
Definition not_quote (c : ascii) : bool := negb (Ascii.eqb c "'"%char).
Definition not_brace (c : ascii) : bool := negb (Ascii.eqb c "{"%char).

(** [match.group(i)] for [i >= 1], [None] when the group took no part. *)
Definition group (g : groups) (i : nat) : option string :=
  match nth_error g (i - 1) with Some v => v | None => None end.

(** Every character of [s] is in the class [p]. *)
Fixpoint all (p : ascii -> bool) (s : string) : bool :=
  match s with
  | EmptyString => true
  | String c s' => p c && all p s'
  end.

(** [s] does not start with a character of the class [p]. *)
Definition stops (p : ascii -> bool) (s : string) : bool :=
  match s with
  | EmptyString => true
  | String c _ => negb (p c)
  end.

End Regex.

(** ** The reference resolver ([create_manifest_catalog_ref.py]) *)

Module Resolver.
Import Regex.

(** The decoded reference: the items of the JSON object, in their order. *)
Abbreviation reference_data := (list (string * list string)).

(** [{{\s*ref\('([^']+)'\)\s*}}] *)
Definition ref_pattern : re :=
  lit "{{" (Seq (Many is_space)
    (lit "ref('" (Seq (Group 0 (Many1 not_quote))
      (lit "')" (Seq (Many is_space) (lit "}}" Eps)))))).

(** [{{\s*source\('([^']+)'\s*,\s*'([^']+)'\)\s*}}] *)
Definition source_pattern : re :=
  lit "{{" (Seq (Many is_space)
    (lit "source('" (Seq (Group 0 (Many1 not_quote))
      (lit "'" (Seq (Many is_space)
        (lit "," (Seq (Many is_space)
          (lit "'" (Seq (Group 1 (Many1 not_quote))
            (lit "')" (Seq (Many is_space) (lit "}}" Eps)))))))))))).

(** [full_name.split('.')[-1]] *)
Definition last_segment (full_name : string) : string :=
  default "" (last (Ast.split "." full_name)).

(** [ref_replacer]: the loop over the items, then [match.group(0)]. *)
Fixpoint find_ref (ref_table : string) (reference_data : reference_data)
  : option string :=
  match reference_data with
  | [] => None
  | (full_name, _) :: rest =>
      if String.eqb ref_table (last_segment full_name) then Some full_name
      else find_ref ref_table rest
  end.

Definition ref_replacer (reference_data : reference_data)
    (group0 : string) (g : groups) : string :=
  match find_ref (default "" (group g 1)) reference_data with
  | Some full_name => full_name
  | None => group0
  end.

(** [source_replacer]: items whose name has not three parts are passed
    over. *)
Fixpoint find_source (table_name : string) (reference_data : reference_data)
  : option string :=
  match reference_data with
  | [] => None
  | (full_name, _) :: rest =>
      match Ast.split "." full_name with
      | [src_database; src_schema; src_table] =>
          if String.eqb src_table table_name then Some full_name
          else find_source table_name rest
      | _ => find_source table_name rest
      end
  end.

Definition source_replacer (reference_data : reference_data)
    (group0 : string) (g : groups) : string :=
  match find_source (default "" (group g 2)) reference_data with
  | Some full_name => full_name
  | None => group0
  end.

(** The two passes of [re.sub]. *)
Definition replace_refs (reference_data : reference_data) (sql : string)
  : string := sub ref_pattern (ref_replacer reference_data) sql.
Definition replace_sources (reference_data : reference_data) (sql : string)
  : string := sub source_pattern (source_replacer reference_data) sql.

(** [replace_refs_and_sources_in_sql]; [reference] is [None] when
    [json.loads] raises [JSONDecodeError]. *)
Definition replace_refs_and_sources_in_sql (sql : string)
    (reference : option reference_data) : string :=
  match reference with
  | None => sql
  | Some reference_data =>
      replace_sources reference_data (replace_refs reference_data sql)
  end.

(** The placeholders, with their optional white space. *)
Definition ref_token (ws1 name ws2 : string) : string :=
  String.append "{{" (String.append ws1 (String.append "ref('"
    (String.append name (String.append "')" (String.append ws2 "}}"))))).


End Resolver.


(** ** The manifest loader ([create_manifest_catalog_ref.py])

    [build_dataframe_from_manifest] and [update_sql_column] on the decoded
    JSON of dbt's [manifest.json] and [catalog.json].  The objects are kept
    by the keys the code reads; a JSON object that the code iterates is the
    list of its items in their order. *)

Module Manifest.

(** A node of the manifest.  The text fields are read with [get(key, '')],
    so an absent one is [""]; [depends_on] is [depends_on.nodes], [[]] when
    either key is absent.  The node's [description] is read into a local
    that is never used. *)
Record manifest_node : Type := ManifestNode {
  node_database : string;
  node_schema : string;
  node_name : string;
  node_resource_type : string;
  node_raw_code : string;
  depends_on : list string }.

(** The [metadata] object of a catalog entry. *)
Record entry_metadata : Type := Metadata {
  md_database : option string;
  md_schema : option string }.

(** An entry of the catalog: the keys [metadata], [name] and [columns] when
    present ([columns] maps a column name to its [description], if it has
    one), and whether the entry has any other key. *)
Record catalog_entry : Type := CatalogEntry {
  metadata : option entry_metadata;
  entry_name : option string;
  columns : option (list (string * option string));
  other_keys : bool }.

Abbreviation catalog := (list (string * catalog_entry)).

(** The [{}] that [get(key, {})] falls back on. *)
Definition no_entry : catalog_entry := CatalogEntry None None None false.

(** [not catalog_entry]: the object has no key. *)
Definition is_empty (e : catalog_entry) : bool :=
  match metadata e, entry_name e, columns e, other_keys e with
  | None, None, None, false => true
  | _, _, _, _ => false
  end.

(** [catalog.get(key, {})] *)
Definition get_entry (c : catalog) (key : string) : catalog_entry :=
  default no_entry (Ast.assoc key c).

(** [entry.get('columns', {})] *)
Definition get_columns (e : catalog_entry) : list (string * option string) :=
  default [] (columns e).

(** [reference_info[dep_full_name].append(dep_col)] on the
    [defaultdict(list)] *)
Definition append_column (dep_full_name dep_col : string)
    (reference_info : Resolver.reference_data) : Resolver.reference_data :=
  Ast.dict_set dep_full_name
    (default [] (Ast.assoc dep_full_name reference_info) ++ [dep_col])
    reference_info.

(** [f"{dep_database}.{dep_schema}.{dep_table_name}"], with the fallbacks on
    the current node's database and schema and on the dependency's name. *)
Definition dep_full_name (database schema dep_name : string)
    (dep_catalog_entry : catalog_entry) : string :=
  let dep_database :=
    match metadata dep_catalog_entry with
    | Some m => default database (md_database m)
    | None => database
    end in
  let dep_schema :=
    match metadata dep_catalog_entry with
    | Some m => default schema (md_schema m)
    | None => schema
    end in
  let dep_table_name := default dep_name (entry_name dep_catalog_entry) in
  String.append dep_database
    (String.append "." (String.append dep_schema
       (String.append "." dep_table_name))).

(** The part that the [model] and the [source] branch share, after the
    dependency key has been taken apart. *)
Definition add_columns (database schema dep_name dep_full_key : string)
    (c : catalog) (reference_info : Resolver.reference_data)
  : Resolver.reference_data :=
  let dep_catalog_entry := get_entry c dep_full_key in
  if is_empty dep_catalog_entry then reference_info
  else
    match get_columns dep_catalog_entry with
    | [] => reference_info
    | dep_columns =>
        fold_left
          (fun info dep_col =>
             append_column
               (dep_full_name database schema dep_name dep_catalog_entry)
               dep_col info)
          (Ast.keys dep_columns) reference_info
    end.

(** One turn of the loop over [dependent_nodes]. *)
Definition add_dependency (database schema : string)
    (catalog_nodes catalog_sources : catalog) (dep : string)
    (reference_info : Resolver.reference_data) : Resolver.reference_data :=
  let dep_parts := Ast.split "." dep in
  let dep_resource_type := hd "" dep_parts in
  if String.eqb dep_resource_type "model" then
    match dep_parts with
    | [_; dep_package; dep_name] =>
        add_columns database schema dep_name dep catalog_nodes reference_info
    | _ => reference_info
    end
  else if String.eqb dep_resource_type "source" then
    match dep_parts with
    | [_; dep_package; dep_source; dep_name] =>
        add_columns database schema dep_name dep catalog_sources reference_info
    | _ => reference_info
    end
  else reference_info.

(** The dictionary [reference_info] of a node. *)
Definition reference_info (node_info : manifest_node)
    (catalog_nodes catalog_sources : catalog) : Resolver.reference_data :=
  fold_left
    (fun info dep =>
       add_dependency (node_database node_info) (node_schema node_info)
         catalog_nodes catalog_sources dep info)
    (depends_on node_info) [].

(** A cell of the frame that holds text: [None] is NaN. *)
Abbreviation cell := (option string).

(** The [reference] cell: NaN, or a text with what [json.loads] makes of
    it ([None] when it raises [JSONDecodeError]). *)
Inductive reference_cell : Type :=
  | RefNaN
  | RefText (text : string) (decoded : option Resolver.reference_data).

(** [json.dumps(reference_info)]: a text that is never empty (at least the
    two braces) and that [json.loads] decodes to the items it was made
    from.  The text itself is not modelled beyond its first character. *)
Definition dumps (reference_info : Resolver.reference_data) : reference_cell :=
  RefText "{" (Some reference_info).

(** A row of the frame. *)
Record row : Type := Row {
  unique_key : string;
  database : string;
  schema : string;
  table_name : string;
  column_name : string;
  column_description : string;
  resource_type : string;
  name : string;
  sql : cell;
  reference : reference_cell }.

(** The body of the loop over [manifest_nodes.items()]: the rows appended
    for one node. *)
Definition node_rows (catalog_nodes catalog_sources : catalog)
    (node_key : string) (node_info : manifest_node) : list row :=
  let database := node_database node_info in
  let schema := node_schema node_info in
  let table_name := node_name node_info in
  let resource_type := node_resource_type node_info in
  let raw_code := node_raw_code node_info in
  let found :=
    if String.eqb resource_type "model"
    then Some (get_entry catalog_nodes node_key)
    else if String.eqb resource_type "source"
    then Some (get_entry catalog_sources node_key)
    else None in
  match found with
  | None => []
  | Some catalog_entry =>
      if is_empty catalog_entry then []
      else
        match get_columns catalog_entry with
        | [] => []
        | cols =>
            let reference_str :=
              dumps (reference_info node_info catalog_nodes catalog_sources) in
            map (fun (col : string * option string) =>
                   let column_name := fst col in
                   Row (String.append database
                          (String.append "." (String.append schema
                             (String.append "." (String.append table_name
                                (String.append "." column_name))))))
                       database schema table_name column_name
                       (default "" (snd col)) resource_type table_name
                       (Some raw_code) reference_str)
                cols
        end
  end.

(** [build_dataframe_from_manifest]: the rows of the frame. *)
Definition build_dataframe_from_manifest
    (manifest_nodes : list (string * manifest_node))
    (catalog_nodes catalog_sources : catalog) : list row :=
  flat_map (fun item => node_rows catalog_nodes catalog_sources
                          (fst item) (snd item))
    manifest_nodes.

(** [replace_sql], the function that [update_sql_column] applies to every
    row. *)
Definition replace_sql (r : row) : cell :=
  match sql r with
  | None => sql r
  | Some EmptyString => sql r
  | Some s =>
      match reference r with
      | RefNaN => sql r
      | RefText EmptyString _ => sql r
      | RefText _ decoded =>
          Some (Resolver.replace_refs_and_sources_in_sql s decoded)
      end
  end.

(** [update_sql_column]: [df['sql'] = df.apply(replace_sql, axis=1)] *)
Definition update_sql_column (df : list row) : list row :=
  map (fun r =>
         Row (unique_key r) (database r) (schema r) (table_name r)
             (column_name r) (column_description r) (resource_type r)
             (name r) (replace_sql r) (reference r))
    df.

(** The frame that [main] inserts, once both files are loaded. *)
Definition frame (manifest_nodes : list (string * manifest_node))
    (catalog_nodes catalog_sources : catalog) : list row :=
  update_sql_column
    (build_dataframe_from_manifest manifest_nodes catalog_nodes
       catalog_sources).

End Manifest.
(** ** The lineage tracer ([gen_upstream_lineage.py]) *)

Module Tracer.
Import Ast.

(** Computations over the store of expression objects that may raise.  The
    store survives an exception: what a call has written before it raises
    stays written. *)
Definition M (A : Type) : Type := heap -> heap * (exn + A).

Definition ret {A : Type} (x : A) : M A := fun h => (h, inr x).
Definition raise {A : Type} (e : exn) : M A := fun h => (h, inl e).
Definition bind {A B : Type} (c : M A) (k : A -> M B) : M B :=
  fun h => match c h with
           | (h', inr x) => k x h'
           | (h', inl e) => (h', inl e)
           end.
Definition get_node (a : nat) : M node :=
  fun h => (h, inr (default (Node (Other "") []) (h !! a))).
Definition new (n : node) : M nat := fun h => let (h', a) := alloc n h in (h', inr a).
Definition set_arg (a : nat) (key : string) (v : argv) : M unit :=
  fun h => (set a key v h, inr tt).
Definition with_heap {A : Type} (f : heap -> A) : M A := fun h => (h, inr (f h)).

Notation "'do' x <- c ; k" := (bind c (fun x => k))
  (at level 10, x pattern, c at level 100, k at level 200).

Fixpoint for_each {A S : Type} (body : A -> S -> M S) (l : list A) (s : S) : M S :=
  match l with
  | [] => ret s
  | x :: l' => do s' <- body x s; for_each body l' s'
  end.

(** Python sets of strings, kept as duplicate-free lists.  Python leaves the
    iteration order of a set open; the lists here iterate in insertion
    order. *)
Definition mem (x : string) (l : list string) : bool := existsb (String.eqb x) l.
Definition set_add (x : string) (l : list string) : list string :=
  if mem x l then l else l ++ [x].
Definition set_update (l new : list string) : list string :=
  fold_left (fun acc x => set_add x acc) new l.
Definition set_discard (x : string) (l : list string) : list string :=
  List.filter (fun y => negb (String.eqb x y)) l.

(** One entry of [cte_definitions[cte][column]]. *)
Record cte_column : Type := CteColumn {
  source_columns : list string;
  transformation : argv;
  source_table : string }.

Abbreviation cte_info := (list (string * cte_column)).
Abbreviation cte_defs := (list (string * cte_info)).

Abbreviation visit_set := (list (string * string)).

Definition visited_mem (k : string * string) (v : visit_set) : bool :=
  existsb (fun k' => String.eqb (fst k) (fst k') && String.eqb (snd k) (snd k')) v.

(** The result triple of [trace_column_lineage]. *)
Abbreviation traced := (list string * string * argv)%type.

(** [trace_column_lineage] with its inner function [replace_columns].
    [fuel] is the number of nested Python calls the interpreter still
    allows; running out of it is Python's [RecursionError].  The arguments
    [table_alias_map] and [current_table] are passed along by the source
    and never read, so they are left out. *)
Fixpoint trace_column_lineage (fuel : nat) (cte_definitions : cte_defs)
    (column_node : nat) (table : string) (visited : visit_set)
    (depth max_depth : nat) {struct fuel} : M traced :=
  match fuel with
  | 0 => raise RecursionError
  | S fuel' =>
      do cn <- get_node column_node;
      do col_name <- with_heap (fun h => name h cn);
      do key <- with_heap (fun h => (table, column_sql h cn));
      if visited_mem key visited then ret ([col_name], table, VNode column_node)
      else if Nat.leb max_depth depth then ret ([col_name], table, VNode column_node)
      else
        let visited := key :: visited in
        match assoc table cte_definitions with
        | None => ret ([col_name], table, VNode column_node)
        | Some info =>
            let continue (src_cols : list string) (src_table : string)
                         (current_transformation : argv) : M traced :=
              if String.eqb src_table table && Nat.ltb 0 depth
              then ret (src_cols, src_table, current_transformation)
              else
                do full_transformation <-
                  replace_columns fuel' cte_definitions src_table visited
                    max_depth current_transformation depth;
                do acc <-
                  for_each
                    (fun src_col (acc : list string * list string) =>
                       do src_col_node <- new (column src_col src_table);
                       do r <- trace_column_lineage fuel' cte_definitions
                                 src_col_node src_table visited
                                 (depth + 1) max_depth;
                       let '(traced_columns, traced_table, _) := r in
                       ret (set_update (fst acc) traced_columns,
                            set_add traced_table (snd acc)))
                    src_cols ([], []);
                ret (fst acc, join ", " (snd acc), full_transformation)
            in
            match assoc col_name info with
            | Some c => continue (source_columns c) (source_table c) (transformation c)
            | None =>
                match assoc "*" info with
                | Some s => continue [col_name] (source_table s) (VNode column_node)
                | None => ret ([col_name], table, VNode column_node)
                end
            end
        end
  end

with replace_columns (fuel : nat) (cte_definitions : cte_defs)
    (source_table : string) (visited : visit_set) (max_depth : nat)
    (node : argv) (current_depth : nat) {struct fuel} : M argv :=
  match fuel, node with
  | 0, _ => raise RecursionError
  | S fuel', VNode node =>
      do n <- get_node node;
      if is_cls (ncls n) Column then
        do src_col <- with_heap (fun h => name h n);
        do node_table <- with_heap (fun h => table h n);
        let src_table := if String.eqb node_table "" then source_table else node_table in
        do column_with_table <- new (column src_col src_table);
        do r <- trace_column_lineage fuel' cte_definitions column_with_table
                  src_table visited (current_depth + 1) max_depth;
        ret (snd r)
      else
        (* [for arg_name, arg_value in node.args.items()]: the dictionary is
           read while the loop runs, one position after the other *)
        do _ <-
          for_each
            (fun i (_ : unit) =>
               do n' <- get_node node;
               match nth_error (nargs n') i with
               | Some (arg_name, VNode child) =>
                   do r <- replace_columns fuel' cte_definitions source_table
                             visited max_depth (VNode child) current_depth;
                   set_arg node arg_name r
               | Some (arg_name, VList items) =>
                   do new_list <-
                     for_each
                       (fun item (acc : list argv) =>
                          match item with
                          | VNode _ =>
                              do new_item <- replace_columns fuel' cte_definitions
                                               source_table visited max_depth
                                               item current_depth;
                              ret (acc ++ [new_item])
                          | _ => ret (acc ++ [item])
                          end)
                       items [];
                   set_arg node arg_name (VList new_list)
               | _ => ret tt
               end)
            (seq 0 (List.length (nargs n))) tt;
        ret (VNode node)
  | S _, _ => raise (AttributeError "args")
  end.


(** [current_table or "unknown"] *)
Definition or_unknown (current_table : option string) : string :=
  match current_table with
  | Some t => if String.eqb t "" then "unknown" else t
  | None => "unknown"
  end.

(** The closing lines shared by the reconstructing branches: drop
    ["unknown"] and ["constant"], join what is left, fall back on the
    caller's table. *)
Definition joined_tables (source_tables : list string)
    (current_table : option string) : string :=
  match set_discard "constant" (set_discard "unknown" source_tables) with
  | [] => or_unknown current_table
  | l => join ", " l
  end.

Definition is_binary (c : cls) : bool :=
  match c with
  | EQ | NEQ | GT | GTE | LT | LTE | Add | Sub | Mul | Div => true
  | _ => false
  end.
Definition is_aggregate (c : cls) : bool :=
  match c with Count | Sum | Min | Max | Avg => true | _ => false end.

(** [node.this], [node.expression] and the like: [None] when absent. *)
Definition child (n : node) (key : string) : argv :=
  match arg n key with Some v => v | None => VNone end.
(** [node.expressions]: [args.get("expressions") or []] *)
Definition expressions (n : node) : list argv :=
  match arg n "expressions" with Some (VList l) => l | _ => [] end.

Abbreviation extracted := (list string * argv * string)%type.
Abbreviation alias_map := (list (string * string)).

(** The accumulator of the loops over arguments: columns, tables and the
    rewritten arguments. *)
Abbreviation acc3 := (list string * list string * list argv)%type.

(** [extract_source_columns_and_transformation] *)
Fixpoint extract_source_columns_and_transformation (fuel : nat) (node : argv)
    (table_alias_map : alias_map) (cte_definitions : cte_defs)
    (current_table : option string) {struct fuel} : M extracted :=
  match fuel with
  | 0 => raise RecursionError
  | S fuel' =>
    let recur (v : argv) :=
      extract_source_columns_and_transformation fuel' v table_alias_map
        cte_definitions current_table in
    let over_args (args : list argv) : M acc3 :=
      for_each
        (fun a (acc : acc3) =>
           if truthy (Some a) then
             do r <- recur a;
             let '(arg_columns, arg_transformation, arg_table) := r in
             let '(cols, tabs, exprs) := acc in
             ret (set_update cols arg_columns,
                  set_update tabs (split ", " arg_table),
                  exprs ++ [arg_transformation])
           else ret acc)
        args ([], [], []) in
    match node with
    | VNode a =>
      do n <- get_node a;
      match ncls n with
      | Column =>
          do node_table <- with_heap (fun h => table h n);
          let table_name :=
            if String.eqb node_table "" then
              match current_table with Some t => t | None => "unknown" end
            else node_table in
          let real_table_name :=
            match assoc table_name table_alias_map with
            | Some t => t
            | None => table_name
            end in
          do _ <- set_arg a "table" (VStr table_name);
          do r <- trace_column_lineage fuel' cte_definitions a real_table_name
                    [] 0 10;
          let '(source_columns, source_table, transformation) := r in
          ret (source_columns, transformation, source_table)
      | Identifier =>
          do nm <- with_heap (fun h => name h n);
          ret ([nm], node, or_unknown current_table)
      | Boolean | Literal => ret ([], node, "constant")
      | Paren =>
          do r <- recur (child n "this");
          let '(source_columns, transformation, source_table) := r in
          do p <- new (Node Paren [("this", transformation)]);
          ret (source_columns, VNode p, source_table)
      | Case =>
          do acc <-
            for_each
              (fun when_clause (acc : acc3) =>
                 match when_clause with
                 | VNode w =>
                     do wn <- get_node w;
                     do c <- recur (child wn "this");
                     match arg wn "true" with
                     | None => raise (KeyError "true")
                     | Some tv =>
                         do t <- recur tv;
                         let '(cond_columns, cond_transformation, cond_table) := c in
                         let '(true_columns, true_transformation, true_table) := t in
                         let '(cols, tabs, ifs) := acc in
                         do nw <- new (Node When [("this", cond_transformation);
                                                  ("expression", true_transformation)]);
                         ret (set_update (set_update cols cond_columns) true_columns,
                              set_update (set_update tabs (split ", " cond_table))
                                (split ", " true_table),
                              ifs ++ [VNode nw])
                     end
                 | _ => raise (AttributeError "this")
                 end)
              (match arg n "ifs" with Some (VList l) => l | _ => [] end)
              ([], [], []);
          let '(cols, tabs, new_ifs) := acc in
          let else_expr := arg n "default" in
          do e <-
            (if truthy else_expr then
               do r <- recur (child n "default");
               let '(else_columns, else_transformation, else_table) := r in
               ret (set_update cols else_columns,
                    set_update tabs (split ", " else_table),
                    else_transformation)
             else ret (cols, tabs, VNone));
          let '(cols, tabs, new_default) := e in
          do c <- new (Node Case [("ifs", VList new_ifs); ("default", new_default)]);
          ret (cols, VNode c, joined_tables tabs current_table)
      | Cast =>
          do r <- recur (child n "this");
          let '(source_columns, inner_transformation, source_table) := r in
          do c <- new (Node Cast [("this", inner_transformation);
                                  ("to", child n "to")]);
          ret (source_columns, VNode c, source_table)
      | Coalesce =>
          do acc <- over_args (child n "this" :: expressions n);
          let '(cols, tabs, exprs) := acc in
          do c <- new (Node Coalesce [("expressions", VList exprs)]);
          ret (cols, VNode c, joined_tables tabs current_table)
      | TimestampTrunc =>
          if truthy (arg n "this") then
            do r <- recur (child n "this");
            let '(arg_columns, arg_transformation, arg_table) := r in
            let trunc_zone :=
              if truthy (arg n "zone") then child n "zone" else VNone in
            do t <- new (Node TimestampTrunc [("this", arg_transformation);
                                              ("unit", child n "unit");
                                              ("zone", trunc_zone)]);
            ret (arg_columns, VNode t,
                 joined_tables (set_update [] (split ", " arg_table)) current_table)
          else raise (UnboundLocalError "arg_transformation")
      | c =>
          if is_binary c then
            do l <- recur (child n "this");
            do r <- recur (child n "expression");
            let '(left_columns, left_transformation, left_table) := l in
            let '(right_columns, right_transformation, right_table) := r in
            do op <- new (Node c [("this", left_transformation);
                                  ("expression", right_transformation)]);
            let source_tables :=
              set_update []
                (List.filter (fun x => negb (mem x ["unknown"; "constant"]))
                   [left_table; right_table]) in
            let source_table :=
              match source_tables with
              | [] => or_unknown current_table
              | l => join ", " l
              end in
            ret (set_update left_columns right_columns, VNode op, source_table)
          else if is_aggregate c then
            do acc <- over_args (child n "this" :: expressions n);
            let '(cols, tabs, exprs) := acc in
            do f <- new (Node c [("this", hd VNone exprs)]);
            do _ <- (if truthy (arg n "distinct")
                     then set_arg f "distinct" (VBool true) else ret tt);
            ret (cols, VNode f, joined_tables tabs current_table)
          else ret ([], node, or_unknown current_table)
      end
    | _ => ret ([], node, or_unknown current_table)
    end
  end.


(** [s.rstrip('.')] *)
Fixpoint rstrip_dot (s : string) : string :=
  match s with
  | EmptyString => EmptyString
  | String c s' =>
      match rstrip_dot s' with
      | EmptyString => if Ascii.eqb c "."%char then EmptyString else String c EmptyString
      | t => String c t
      end
  end.

(** The pattern ["?(\w+\.)?(\w+\.)?(\w+)"?\.(\w+)] *)
Definition source_info_pattern : Regex.re :=
  let quote := Regex.Opt (Regex.Chr Regex.dquote) in
  let dot := Regex.Chr "."%char in
  let word := Regex.Many1 Regex.is_word in
  Regex.Seq quote
   (Regex.Seq (Regex.Opt (Regex.Group 0 (Regex.Seq word dot)))
     (Regex.Seq (Regex.Opt (Regex.Group 1 (Regex.Seq word dot)))
       (Regex.Seq (Regex.Group 2 word)
         (Regex.Seq quote (Regex.Seq dot (Regex.Group 3 word)))))).

Record source_info : Type := SourceInfo {
  si_database : option string;
  si_schema : option string;
  si_table : option string;
  si_column : option string }.

(** [extract_source_info_from_transformation]; a match has four groups, so
    the three-group branch of the source is never taken. *)
Definition extract_source_info_from_transformation (transformation : string)
  : source_info :=
  match Regex.search source_info_pattern transformation with
  | Some (_, g) =>
      SourceInfo (option_map rstrip_dot (Regex.group g 1))
                 (option_map rstrip_dot (Regex.group g 2))
                 (Regex.group g 3) (Regex.group g 4)
  | None => SourceInfo None None None None
  end.

(** One emitted dictionary of [final_columns]. *)
Record LineageRow : Type := Row {
  final_column : string;
  source_database : string;
  source_schema : string;
  row_source_table : string;
  row_source_columns : string;
  row_transformation : string }.

Definition error_row (final msg : string) : LineageRow :=
  Row final "Unknown" "Unknown" "Unknown" "Unknown" msg.

(** A computation that returns normally from every store. *)
Definition returns {A : Type} (c : M A) : Prop :=
  forall h, exists h' x, c h = (h', inr x).

(** A computation that raises from every store. *)
Definition raises {A : Type} (c : M A) : Prop :=
  forall h, exists h' e, c h = (h', inl e).

(** A computation that returns normally from the store [h], having at
    most added objects to it. *)
Definition grows {A : Type} (c : M A) (h : heap) : Prop :=
  exists l x, c h = (h ++ l, inr x).

(** Every transformation stored in [cte_definitions] is a column object,
    as for CTEs that select plain columns. *)
Definition columns_only (cte_definitions : cte_defs) (h : heap) : Prop :=
  forall t info c rec,
    assoc t cte_definitions = Some info -> assoc c info = Some rec ->
    exists a n, transformation rec = VNode a /\ h !! a = Some n
                /\ ncls n = Column.

(** [try: body except Exception: handler] *)
Definition try_except {A : Type} (body : M A) (handler : exn -> M A) : M A :=
  fun h => match body h with
           | (h', inl e) => handler e h'
           | r => r
           end.

(** [x or y] on an optional, possibly empty string. *)
Definition or_else (x : option string) (y : string) : string :=
  match x with
  | Some s => if String.eqb s "" then y else s
  | None => y
  end.

(** The state that [process_cte] updates: [table_alias_map] and
    [cte_definitions]. *)
Abbreviation maps := (alias_map * cte_defs)%type.

(** [process_cte] *)
Fixpoint process_cte (fuel : nat) (cte : nat) (st : maps) {struct fuel} : M maps :=
  match fuel with
  | 0 => raise RecursionError
  | S fuel' =>
    let '(table_alias_map, cte_definitions) := st in
    do c <- get_node cte;
    do cte_name <- with_heap (fun h => alias h c);
    do r <-
      match child c "this" with
      | VNode sel =>
        do s <- get_node sel;
        if is_cls (ncls s) Select then
          do fr <-
            (if truthy (arg s "from") then
               match child s "from" with
               | VNode from_clause =>
                 do f <- get_node from_clause;
                 match child f "this" with
                 | VNode t =>
                   do tn <- get_node t;
                   if is_cls (ncls tn) Table then
                     do src <- with_heap (fun h =>
                       let n0 := name h tn in
                       let n1 := if String.eqb (db h tn) "" then n0
                                 else String.append (db h tn) (String.append "." n0) in
                       if String.eqb (catalog h tn) "" then n1
                       else String.append (catalog h tn) (String.append "." n1));
                     ret (src, (dict_set cte_name cte_name table_alias_map,
                                cte_definitions))
                   else if is_cls (ncls tn) Subquery then
                     do subquery_alias <- with_heap (fun h => alias_or_name h tn);
                     do st' <- process_cte fuel' from_clause
                                 (table_alias_map, cte_definitions);
                     ret (subquery_alias, st')
                   else ret ("unknown", (table_alias_map, cte_definitions))
                 | _ => ret ("unknown", (table_alias_map, cte_definitions))
                 end
               | _ => raise (AttributeError "this")
               end
             else ret ("unknown", (dict_set cte_name cte_name table_alias_map,
                                   cte_definitions)));
          let '(source_table, (table_alias_map, cte_definitions)) := fr in
          do cte_columns <-
            for_each
              (fun select_expr (cte_columns : cte_info) =>
                 match select_expr with
                 | VNode e =>
                   do en <- get_node e;
                   match ncls en with
                   | Star =>
                       ret (dict_set "*" (CteColumn ["*"] select_expr source_table)
                              cte_columns)
                   | Alias =>
                       do alias_name <- with_heap (fun h => alias h en);
                       do x <- extract_source_columns_and_transformation fuel'
                                 (child en "this") table_alias_map cte_definitions
                                 (Some source_table);
                       let '(cols, tr, tab) := x in
                       ret (dict_set alias_name (CteColumn cols tr tab) cte_columns)
                   | Column =>
                       do column_name <- with_heap (fun h => name h en);
                       ret (dict_set column_name
                              (CteColumn [column_name] select_expr source_table)
                              cte_columns)
                   | _ =>
                       do x <- extract_source_columns_and_transformation fuel'
                                 select_expr table_alias_map cte_definitions
                                 (Some source_table);
                       let '(cols, tr, tab) := x in
                       do alias_name <- with_heap (fun h => alias_or_name h en);
                       if String.eqb alias_name "" then ret cte_columns
                       else ret (dict_set alias_name (CteColumn cols tr tab)
                                   cte_columns)
                   end
                 | _ => raise (AttributeError "alias_or_name")
                 end)
              (expressions s) [];
          ret (cte_columns, table_alias_map, cte_definitions)
        else ret ([], table_alias_map, cte_definitions)
      | _ => ret ([], table_alias_map, cte_definitions)
      end;
    let '(cte_columns, table_alias_map, cte_definitions) := r in
    ret (table_alias_map, dict_set cte_name cte_columns cte_definitions)
  end.


Section ProcessWithAndSelect.

(** sqlglot's SQL generator for the snowflake dialect, on every expression
    but a column: the text, or the exception it raises (a cyclic expression
    overflows the interpreter's stack). *)
Variable generate : heap -> nat -> exn + string.

(** [transformation.sql(dialect='snowflake') if transformation else ''] *)
Definition transformation_sql (transformation : argv) : M string :=
  match transformation with
  | VNode a =>
      fun h =>
        let n := default (Node (Other "") []) (h !! a) in
        if is_cls (ncls n) Column then (h, inr (column_sql h n))
        else (h, generate h a)
  | VNone | VStr EmptyString | VBool false | VList [] => ret ""
  | _ => raise (AttributeError "sql")
  end.

(** The three [try] blocks of the loop over the select list: what is traced
    for one entry of a starred CTE, for an alias and for a column. *)
Definition trace_star_entry (fuel : nat) (col : string)
    (cte_definitions : cte_defs) (main_table : string) : M LineageRow :=
  do c <- new (to_column col);
  do r <- trace_column_lineage fuel cte_definitions c main_table [] 0 10;
  let '(source_columns, source_table, transformation) := r in
  do transformation_sql <- transformation_sql transformation;
  let actual_column_name := join ", " source_columns in
  (* [extract_source_info] is defined nowhere in the module *)
  raise (NameError "extract_source_info").

Definition trace_alias (fuel : nat) (en : node)
    (table_alias_map : alias_map) (cte_definitions : cte_defs)
    (current_table : string) : M LineageRow :=
  do r <- extract_source_columns_and_transformation fuel (child en "this")
            table_alias_map cte_definitions (Some current_table);
  let '(source_columns, transformation, source_table_expr) := r in
  do transformation_sql <- transformation_sql transformation;
  let actual_column_name := join ", " source_columns in
  raise (NameError "extract_source_info").

Definition trace_column (fuel : nat) (e : nat)
    (table_alias_map : alias_map) (cte_definitions : cte_defs)
    (current_table : string) : M LineageRow :=
  do r <- extract_source_columns_and_transformation fuel (VNode e)
            table_alias_map cte_definitions (Some current_table);
  let '(source_columns, transformation, source_table_expr) := r in
  do transformation_sql <- transformation_sql transformation;
  let actual_column_name := join ", " source_columns in
  let source_info := extract_source_info_from_transformation transformation_sql in
  do en <- get_node e;
  do final <- with_heap (fun h => name h en);
  ret (Row final
           (or_else (si_database source_info) "Unknown")
           (or_else (si_schema source_info) "Unknown")
           (or_else (si_table source_info) source_table_expr)
           (or_else (si_column source_info) actual_column_name)
           transformation_sql).

(** The body of the loop over the select list of the main [SELECT], for one
    projection: the rows it appends to [final_columns]. *)
Definition process_projection (fuel : nat) (select_expr : argv)
    (table_alias_map : alias_map) (cte_definitions : cte_defs)
    (main_table : string) : M (list LineageRow) :=
  let current_table := main_table in
  match select_expr with
  | VNode e =>
    do en <- get_node e;
    match ncls en with
    | Star =>
        match assoc main_table cte_definitions with
        | Some info =>
            for_each
              (fun (entry : string * cte_column) (rows : list LineageRow) =>
                 let col := fst entry in
                 do row <-
                   try_except
                     (trace_star_entry fuel col cte_definitions main_table)
                     (fun _ => ret (error_row col "Error tracing column"));
                 ret (rows ++ [row]))
              info []
        | None =>
            ret [Row "*" "Unknown" "Unknown" main_table
                   "Select all columns" "Select all columns"]
        end
    | Alias =>
        do alias_name <- with_heap (fun h => alias h en);
        do row <-
          try_except
            (trace_alias fuel en table_alias_map cte_definitions current_table)
            (fun _ => ret (error_row alias_name "Error tracing alias"));
        ret [row]
    | Column =>
        do row <-
          try_except
            (trace_column fuel e table_alias_map cte_definitions current_table)
            (fun _ =>
               do en' <- get_node e;
               do final <- with_heap (fun h => name h en');
               ret (error_row final "Error tracing expression"));
        ret [row]
    | _ => ret []
    end
  | _ => ret []
  end.

(** The loop over [ast.expressions]. *)
Definition process_projections (fuel : nat) (select_exprs : list argv)
    (table_alias_map : alias_map) (cte_definitions : cte_defs)
    (main_table : string) (final_columns : list LineageRow)
  : M (list LineageRow) :=
  for_each
    (fun select_expr (final_columns : list LineageRow) =>
       do rows <- process_projection fuel select_expr table_alias_map
                    cte_definitions main_table;
       ret (final_columns ++ rows))
    select_exprs final_columns.

(** [process_with_and_select]: the list [final_columns]. *)
Definition process_with_and_select (fuel : nat) (ast : nat)
  : M (list LineageRow) :=
  do a <- get_node ast;
  do st <-
    (if truthy (arg a "with") then
       match child a "with" with
       | VNode w =>
           do wn <- get_node w;
           for_each
             (fun cte (st : maps) =>
                match cte with
                | VNode c => process_cte fuel c st
                | _ => raise (AttributeError "alias")
                end)
             (expressions wn) ([], [])
       | _ => raise (AttributeError "expressions")
       end
     else ret ([], []));
  if is_cls (ncls a) Select then
    let from_this :=
      if truthy (arg a "from") then
        match child a "from" with
        | VNode f => do fn <- get_node f; ret (Some (f, child fn "this"))
        | _ => raise (AttributeError "this")
        end
      else ret None in
    do ft <- from_this;
    do m <-
      match ft with
      | Some (f, VNode t) =>
          do tn <- get_node t;
          if is_cls (ncls tn) Table then
            do main_table <- with_heap (fun h => name h tn);
            ret (main_table, (dict_set main_table main_table (fst st), snd st))
          else if is_cls (ncls tn) Subquery then
            do subquery_alias <- with_heap (fun h => alias_or_name h tn);
            do st' <- process_cte fuel f st;
            ret (subquery_alias, st')
          else ret ("unknown", st)
      | _ => ret ("unknown", st)
      end;
    let '(main_table, (table_alias_map, cte_definitions)) := m in
    process_projections fuel (expressions a) table_alias_map cte_definitions
      main_table []
  else ret [].

End ProcessWithAndSelect.

End Tracer.

(** ** The star expander ([expand_sql_ref.py])

    The expander reads only the WITH list, the FROM target and the select
    list of each CTE and of the outermost SELECT, so the parsed statement is
    kept as that much of the sqlglot AST, by kind.  It rewrites select lists
    in place; in a parsed statement no select is shared, so the rewrite is
    a functional update here. *)

Module Expander.

(** [s.upper()] on ASCII letters. *)
Definition upper_ascii (c : ascii) : ascii :=
  let n := nat_of_ascii c in
  if Nat.leb 97 n && Nat.leb n 122 then ascii_of_nat (n - 32) else c.
Fixpoint upper (s : string) : string :=
  match s with
  | EmptyString => EmptyString
  | String c s' => String (upper_ascii c) (upper s')
  end.

(** An [exp.Table]: the texts of its [catalog], [db] and [this] parts, [""]
    for a part that is absent. *)
Record table_name : Type := TableName {
  catalog : string; db : string; this : string }.

(** One entry of a select list. *)
Inductive projection : Type :=
  | Star
  | Column (name table : string)        (* [table = ""]: unqualified *)
  | Alias (alias sql : string)          (* [sql]: the aliased expression *)
  | Identifier (name : string)          (* built by [exp.to_identifier] *)
  | Expression (alias sql : string).    (* any other expression, its text *)

(** An [exp.Select]: its select list, its FROM clause and its joins.
    [from = None]: no FROM clause; [Some None]: a FROM clause under which
    [find(exp.Table)] finds no table; [Some (Some t)]: the first table under
    it.  sqlglot keeps joins beside the FROM clause, not under it. *)
Record select : Type := Select {
  expressions : list projection;
  from : option (option table_name);
  joins : list table_name }.

Record cte : Type := Cte { cte_alias : string; cte_this : select }.

(** The statement under the WITH clause: a SELECT, or a set operation whose
    arguments [this] and [expression] come in that order. *)
Inductive statement : Type :=
  | SelectStmt (s : select)
  | SetOperation (this expression : statement).

(** A parsed statement with the CTEs of its WITH clause, if it has one. *)
Record query : Type := Query { with_ : option (list cte); body : statement }.

Abbreviation reference_map := (list (string * list string)).
Abbreviation cte_scope := (list (string * list string)).

(** [get_fully_qualified_name] *)
Definition get_fully_qualified_name (t : table_name) : string :=
  Ast.join "." (List.filter (fun s => negb (String.eqb s ""))
                  [catalog t; db t; this t]).

(** [replace_star_in_select]: the new select list. *)
Definition replace_star (current_cte_columns : list string)
    (cte_columns : cte_scope) (p : projection) : list projection :=
  match p with
  | Star => map Identifier current_cte_columns
  | Column name table =>
      if negb (String.eqb table "") then
        if String.eqb name "*" then
          match Ast.assoc table cte_columns with
          | Some cols => map (fun col => Column col table) cols
          | None => [p]
          end
        else [p]
      else [p]
  | _ => [p]
  end.

Definition replace_star_in_select (select_expr : select)
    (current_cte_columns : list string) (cte_columns : cte_scope) : select :=
  Select (flat_map (replace_star current_cte_columns cte_columns)
            (expressions select_expr))
         (from select_expr) (joins select_expr).

(** [projection.sql()] for the kinds whose text the expander may record. *)
Definition projection_sql (p : projection) : string :=
  match p with
  | Star => "*"
  | Column name table =>
      if String.eqb table "" then name
      else String.append table (String.append "." name)
  | Alias alias sql => String.append sql (String.append " AS " alias)
  | Identifier name => name
  | Expression _ sql => sql
  end.

(** The name recorded for a projection after the replacement. *)
Definition output_name (p : projection) : string :=
  match p with
  | Alias alias _ => alias
  | Column name _ => name
  | Expression alias _ => if String.eqb alias "" then projection_sql p else alias
  | _ => projection_sql p
  end.

(** [find_outer_select]: the first SELECT in depth-first order. *)
Fixpoint find_outer_select (e : statement) : option select :=
  match e with
  | SelectStmt s => Some s
  | SetOperation l r =>
      match find_outer_select l with
      | Some s => Some s
      | None => find_outer_select r
      end
  end.

(** The in-place rewrite of the select that [find_outer_select] returns. *)
Fixpoint set_outer_select (f : select -> select) (e : statement) : statement :=
  match e with
  | SelectStmt s => SelectStmt (f s)
  | SetOperation l r =>
      match find_outer_select l with
      | Some _ => SetOperation (set_outer_select f l) r
      | None => SetOperation l (set_outer_select f r)
      end
  end.

Definition quoted (msg1 name msg2 : string) : string :=
  String.append msg1 (String.append name msg2).

(** One turn of the loop over the CTEs: the rewritten CTE and the scope
    with its columns recorded. *)
Definition expand_cte (schema : reference_map) (c : cte)
    (cte_columns : cte_scope) : exn + (cte * cte_scope) :=
  let cte_name := cte_alias c in
  let select_expr := cte_this c in
  match from select_expr with
  | None => inl (ValueError (quoted "No FROM clause found in CTE '" cte_name "'."))
  | Some None =>
      inl (NotImplementedError
             (quoted "CTE '" cte_name
                "' has a complex FROM clause which is not supported."))
  | Some (Some from_table) =>
      let source_full := get_fully_qualified_name from_table in
      let source :=
        match Ast.assoc source_full schema with
        | Some cols => Some cols
        | None => Ast.assoc source_full cte_columns
        end in
      match source with
      | None =>
          inl (ValueError
                 (quoted "Source '" source_full
                    "' not found in schema or previously defined CTEs."))
      | Some source_columns =>
          let select_expr' :=
            replace_star_in_select select_expr source_columns cte_columns in
          let new_columns := map output_name (expressions select_expr') in
          inr (Cte cte_name select_expr',
               Ast.dict_set cte_name new_columns cte_columns)
      end
  end.

(** The loop over [with_expression.expressions]. *)
Fixpoint expand_ctes (schema : reference_map) (ctes : list cte)
    (cte_columns : cte_scope) : exn + (list cte * cte_scope) :=
  match ctes with
  | [] => inr ([], cte_columns)
  | c :: rest =>
      match expand_cte schema c cte_columns with
      | inl e => inl e
      | inr (c', cte_columns') =>
          match expand_ctes schema rest cte_columns' with
          | inl e => inl e
          | inr (rest', scope) => inr (c' :: rest', scope)
          end
      end
  end.

(** The statement after all rewrites, before it is printed. *)
Definition expand (parsed : query) (schema : reference_map) : exn + query :=
  match with_ parsed with
  | None => inl (ValueError "No WITH clause found in the SQL.")
  | Some ctes =>
      match expand_ctes schema ctes [] with
      | inl e => inl e
      | inr (ctes', cte_columns) =>
          match find_outer_select (body parsed) with
          | None => inl (ValueError "No final SELECT statement found in the SQL.")
          | Some _ =>
              match last (Ast.keys cte_columns) with
              | None => inl IndexError
              | Some last_cte_name =>
                  let final_columns :=
                    match Ast.assoc last_cte_name cte_columns with
                    | Some cols => cols
                    | None => []
                    end in
                  inr (Query (Some ctes')
                         (set_outer_select
                            (fun s => replace_star_in_select s final_columns
                                        cte_columns)
                            (body parsed)))
              end
          end
      end
  end.

(** The statement that the returned text, [parsed.sql(pretty=True).upper()],
    denotes: every name in upper case, and the identifiers that replaced a
    star read back as columns. *)
Definition reparse_table (t : table_name) : table_name :=
  TableName (upper (catalog t)) (upper (db t)) (upper (this t)).
Definition reparse_projection (p : projection) : projection :=
  match p with
  | Star => Star
  | Column name table => Column (upper name) (upper table)
  | Alias alias sql => Alias (upper alias) (upper sql)
  | Identifier name => Column (upper name) ""
  | Expression alias sql => Expression (upper alias) (upper sql)
  end.
Definition reparse_select (s : select) : select :=
  Select (map reparse_projection (expressions s))
         (option_map (option_map reparse_table) (from s))
         (map reparse_table (joins s)).
Definition reparse_cte (c : cte) : cte :=
  Cte (upper (cte_alias c)) (reparse_select (cte_this c)).
Fixpoint reparse_statement (e : statement) : statement :=
  match e with
  | SelectStmt s => SelectStmt (reparse_select s)
  | SetOperation l r => SetOperation (reparse_statement l) (reparse_statement r)
  end.
Definition reparse (q : query) : query :=
  Query (option_map (map reparse_cte) (with_ q)) (reparse_statement (body q)).

(** [generate_expanded_sql] on the parsed statement and the decoded
    reference; the returned text is given as the statement it denotes. *)
Definition generate_expanded_sql (parsed : query) (schema : reference_map)
  : exn + query :=
  match expand parsed schema with
  | inl e => inl e
  | inr q => inr (reparse q)
  end.

(** One record of [TABLE_SCHEMA_REF] and what [main] does for it: it stores
    the expanded SQL, or prints the error and stores nothing. *)
Record record : Type := Record_ {
  unique_key : string; sql : query; reference : reference_map }.

Inductive outcome : Type :=
  | Updated (unique_key : string) (expanded_sql : query)
  | Failed (unique_key : string) (e : exn).

Definition process_record (r : record) : outcome :=
  match generate_expanded_sql (sql r) (reference r) with
  | inr expanded_sql => Updated (unique_key r) expanded_sql
  | inl e => Failed (unique_key r) e
  end.

(** [main]: the loop over the records. *)
Definition main (lineage_data : list record) : list outcome :=
  map process_record lineage_data.

(** The records that reach the tracer: those whose [EXPANDED_SQL] is set. *)
Definition expanded (out : list outcome) : list (string * query) :=
  flat_map (fun o => match o with
                     | Updated k q => [(k, q)]
                     | Failed _ _ => []
                     end) out.

(** Conditions under which a second expansion finds nothing left to do. *)









End Expander.

(** ** Parsed queries used as examples

    Each store below is the AST that [sqlglot.parse_one] builds for the SQL
    text quoted with it, one object per address.  The texts are upper-case,
    as the star expander hands them to the tracer. *)

Module Examples.
Import Ast Tracer.

Definition col (n : string) : node := Node Column [("this", VStr n)].
Definition qcol (t n : string) : node :=
  Node Column [("this", VStr n); ("table", VStr t)].
Definition tbl (n : string) : node := Node Table [("this", VStr n)].
Definition tbl3 (c d n : string) : node :=
  Node Table [("this", VStr n); ("db", VStr d); ("catalog", VStr c)].
Definition from_ (a : nat) : node := Node From [("this", VNode a)].
Definition aliased (a : nat) (n : string) : node :=
  Node Alias [("this", VNode a); ("alias", VStr n)].
Definition select_ (ps : list nat) (f : nat) : node :=
  Node Select [("expressions", VList (map VNode ps)); ("from", VNode f)].
Definition select_with (ps : list nat) (f w : nat) : node :=
  Node Select [("expressions", VList (map VNode ps)); ("from", VNode f);
               ("with", VNode w)].
Definition cte_ (s : nat) (n : string) : node :=
  Node CTE [("this", VNode s); ("alias", VStr n)].
Definition with_ (cs : list nat) : node :=
  Node With [("expressions", VList (map VNode cs))].
Definition func (f : string) (a : nat) : node :=
  Node (Other f) [("this", VNode a)].

(** A generator that prints every expression as [?]. *)
Definition opaque_generate : heap -> nat -> exn + string := fun _ _ => inr "?".

(** [WITH A AS (SELECT ID FROM DB.SCH.RAW)
     SELECT ID AS CUSTOMER_ID, * FROM A] *)
Definition rename_query : heap :=
  [ col "ID"; tbl3 "DB" "SCH" "RAW"; from_ 1; select_ [0] 2; cte_ 3 "A";
    with_ [4];
    col "ID"; aliased 6 "CUSTOMER_ID"; Node Star []; tbl "A"; from_ 9;
    select_with [7; 8] 10 5 ].
Definition rename_root : nat := 11.
Definition rename_aliases : alias_map := [("A", "A")].
Definition rename_defs : cte_defs :=
  [("A", [("ID", CteColumn ["ID"] (VNode 0) "DB.SCH.RAW")])].

(** [WITH A AS (SELECT ID FROM DB.SCH.RAW)
     SELECT COUNT(DISTINCT ID) AS N FROM A]; sqlglot parses
    [COUNT(DISTINCT ID)] as [Count(this=Distinct(expressions=[ID]))]. *)
Definition count_distinct_query : heap :=
  [ col "ID"; tbl3 "DB" "SCH" "RAW"; from_ 1; select_ [0] 2; cte_ 3 "A";
    with_ [4];
    col "ID"; Node Distinct [("expressions", VList [VNode 6])];
    Node Count [("this", VNode 7)]; aliased 8 "N"; tbl "A"; from_ 10;
    select_with [9] 11 5 ].
Definition count_distinct_root : nat := 12.
Definition count_distinct_defs : cte_defs :=
  [("A", [("ID", CteColumn ["ID"] (VNode 0) "DB.SCH.RAW")])].

(** [SELECT ID + 1 FROM T] *)
Definition bare_sum_query : heap :=
  [ col "ID"; Node Literal [("this", VStr "1"); ("is_string", VBool false)];
    Node Add [("this", VNode 0); ("expression", VNode 1)];
    tbl "T"; from_ 3; select_ [2] 4 ].
Definition bare_sum_root : nat := 5.

(** [SELECT ID, NAME FROM T] *)
Definition plain_query : heap :=
  [ col "ID"; col "NAME"; tbl "T"; from_ 2; select_ [0; 1] 3 ].
Definition plain_root : nat := 4.

(** [WITH A AS (SELECT UPPER(B.Y) AS X FROM DB.S.RAW),
          B AS (SELECT LOWER(A.X) AS Y FROM A)
     SELECT Y AS P, A.X AS Q, Y AS R FROM B] *)
Definition crossed_query : heap :=
  [ qcol "B" "Y"; func "Upper" 0; aliased 1 "X"; tbl3 "DB" "S" "RAW"; from_ 3;
    select_ [2] 4; cte_ 5 "A";
    qcol "A" "X"; func "Lower" 7; aliased 8 "Y"; tbl "A"; from_ 10;
    select_ [9] 11; cte_ 12 "B";
    with_ [6; 13];
    col "Y"; aliased 15 "P"; qcol "A" "X"; aliased 17 "Q"; col "Y";
    aliased 19 "R"; tbl "B"; from_ 21;
    select_with [16; 18; 20] 22 14 ].
Definition crossed_root : nat := 23.

(** [cte_definitions] as [process_cte] leaves it for [crossed_query]: the
    transformations are the stored objects at addresses 1 and 8. *)
Definition crossed_defs : cte_defs :=
  [ ("A", [("X", CteColumn [] (VNode 1) "DB.S.RAW")]);
    ("B", [("Y", CteColumn [] (VNode 8) "A")]) ].

Definition crossed_aliases : alias_map := [("A", "A"); ("B", "B")].

(** The store after the first two projections of [crossed_query] have been
    traced: [UPPER] at 1 and [LOWER] at 8 are now each other's argument. *)
Definition crossed_after_one : heap :=
  Eval vm_compute in
    fst (extract_source_columns_and_transformation 50 (VNode 15)
           crossed_aliases crossed_defs (Some "B") crossed_query).
Definition crossed_after_two : heap :=
  Eval vm_compute in
    fst (extract_source_columns_and_transformation 50 (VNode 17)
           crossed_aliases crossed_defs (Some "B") crossed_after_one).

(** [WITH C1 AS (SELECT X FROM C2), C2 AS (SELECT Y FROM C1)
     SELECT X FROM C1]: two CTEs of plain columns that refer to each
    other. *)
Definition cyclic_query : heap :=
  [ col "X"; tbl "C2"; from_ 1; select_ [0] 2; cte_ 3 "C1";
    col "Y"; tbl "C1"; from_ 6; select_ [5] 7; cte_ 8 "C2";
    with_ [4; 9];
    col "X"; tbl "C1"; from_ 12; select_with [11] 13 10 ].
Definition cyclic_root : nat := 14.
Definition cyclic_defs : cte_defs :=
  [ ("C1", [("X", CteColumn ["X"] (VNode 0) "C2")]);
    ("C2", [("Y", CteColumn ["Y"] (VNode 5) "C1")]) ].

(** Queries for the star expander. *)

Definition raw_upper : Expander.reference_map := [("DB.SCH.RAW", ["NAME"; "QTY"])].

Definition star_from (c d t : string) : Expander.select :=
  Expander.Select [Expander.Star]
    (Some (Some (Expander.TableName c d t))) [].


(** [WITH A AS (SELECT * FROM DB.SCH.RAW) SELECT * FROM A] *)
Definition star_upper : Expander.query :=
  Expander.Query (Some [Expander.Cte "A" (star_from "DB" "SCH" "RAW")])
    (Expander.SelectStmt (star_from "" "" "A")).

(** [SELECT ID, NAME FROM T], no WITH clause *)
Definition no_with : Expander.query :=
  Expander.Query None
    (Expander.SelectStmt
       (Expander.Select [Expander.Column "ID" ""; Expander.Column "NAME" ""]
          (Some (Some (Expander.TableName "" "" "T"))) [])).

(** [WITH A AS (SELECT * FROM DB.SCH.RAW), B AS (SELECT * FROM MISSING)
     SELECT * FROM A] *)
Definition unknown_source : Expander.query :=
  Expander.Query
    (Some [Expander.Cte "A" (star_from "DB" "SCH" "RAW");
           Expander.Cte "B" (star_from "" "" "MISSING")])
    (Expander.SelectStmt (star_from "" "" "A")).

(** [WITH A AS (SELECT * FROM DB.SCH.RAW JOIN DB.SCH.OTHER) SELECT * FROM A] *)
Definition joined_source : Expander.query :=
  Expander.Query
    (Some [Expander.Cte "A"
             (Expander.Select [Expander.Star]
                (Some (Some (Expander.TableName "DB" "SCH" "RAW")))
                [Expander.TableName "DB" "SCH" "OTHER"])])
    (Expander.SelectStmt (star_from "" "" "A")).

(** [crossed_query] as the expander sees it, with its reference. *)
Definition crossed_reference : Expander.reference_map :=
  [("DB.S.RAW", ["ID"])].
Definition crossed_statement : Expander.query :=
  Expander.Query
    (Some [Expander.Cte "A"
             (Expander.Select [Expander.Alias "X" "UPPER(B.Y)"]
                (Some (Some (Expander.TableName "DB" "S" "RAW"))) []);
           Expander.Cte "B"
             (Expander.Select [Expander.Alias "Y" "LOWER(A.X)"]
                (Some (Some (Expander.TableName "" "" "A"))) [])])
    (Expander.SelectStmt
       (Expander.Select [Expander.Alias "P" "Y"; Expander.Alias "Q" "A.X";
                         Expander.Alias "R" "Y"]
          (Some (Some (Expander.TableName "" "" "B"))) [])).

(** A model's reference with two tables called [orders]. *)
Definition shop_reference : Resolver.reference_data :=
  [("db.stg.orders", ["id"]); ("db.raw.orders", ["id"]);
   ("db.raw.items", ["id"])].

End Examples.

(** ** Further sample inputs *)

Module Samples.

(** A character that is not the dot of a qualified name. *)
Definition not_dot (c : ascii) : bool := negb (Ascii.eqb c "."%char).

(** A catalog with one staging model and one raw source table. *)
Definition shop_catalog_nodes : Manifest.catalog :=
  [("model.shop.stg_orders",
    Manifest.CatalogEntry (Some (Manifest.Metadata (Some "db") (Some "stg")))
      None (Some [("id", Some "key"); ("total", None)]) true);
   ("model.shop.orders",
    Manifest.CatalogEntry (Some (Manifest.Metadata (Some "db") (Some "mart")))
      None (Some [("id", None); ("total", None)]) true);
   ("model.shop.empty",
    Manifest.CatalogEntry None None (Some []) true)].

Definition shop_catalog_sources : Manifest.catalog :=
  [("source.shop.ecom.raw_orders",
    Manifest.CatalogEntry (Some (Manifest.Metadata None None))
      (Some "RAW_ORDERS") (Some [("id", None)]) true)].

(** A manifest: a model over a model and a source, a model without
    dependencies, a model without catalog columns and a test. *)
Definition orders_node : Manifest.manifest_node :=
  Manifest.ManifestNode "db" "mart" "orders" "model"
    "select * from {{ ref('stg_orders') }} o"
    ["model.shop.stg_orders"; "source.shop.ecom.raw_orders";
     "seed.shop.countries"; "model.shop.missing"].

Definition stg_orders_node : Manifest.manifest_node :=
  Manifest.ManifestNode "db" "stg" "stg_orders" "model"
    "select id, total from {{ source('ecom', 'raw_orders') }}"
    ["seed.shop.countries"].

Definition shop_manifest : list (string * Manifest.manifest_node) :=
  [("model.shop.orders", orders_node);
   ("model.shop.stg_orders", stg_orders_node);
   ("model.shop.empty",
    Manifest.ManifestNode "db" "stg" "empty" "model" "select 1" []);
   ("test.shop.not_null",
    Manifest.ManifestNode "db" "stg" "not_null" "test" "select 1" [])].


(** The projection is no star that the expander would replace: it is no
    bare [*], and no [t.*] over a CTE of the scope. *)
Definition stays (cte_columns : Expander.cte_scope) (p : Expander.projection)
  : Prop :=
  match p with
  | Expander.Star => False
  | Expander.Column n t =>
      n = "*" -> t = "" \/ Ast.assoc t cte_columns = None
  | _ => True
  end.

(** A statement with its select lists taken out: what is left are the CTE
    names, the FROM clauses, the joins and the set operations. *)
Definition clauses_of_select (s : Expander.select) : Expander.select :=
  Expander.Select [] (Expander.from s) (Expander.joins s).
Definition clauses_of_cte (c : Expander.cte) : Expander.cte :=
  Expander.Cte (Expander.cte_alias c) (clauses_of_select (Expander.cte_this c)).
Fixpoint clauses_of_statement (e : Expander.statement) : Expander.statement :=
  match e with
  | Expander.SelectStmt s => Expander.SelectStmt (clauses_of_select s)
  | Expander.SetOperation l r =>
      Expander.SetOperation (clauses_of_statement l) (clauses_of_statement r)
  end.
Definition clauses (q : Expander.query) : Expander.query :=
  Expander.Query (option_map (map clauses_of_cte) (Expander.with_ q))
    (clauses_of_statement (Expander.body q)).

(** [SELECT ID FROM T UNION SELECT ID FROM U] *)
Definition union_query : Ast.heap :=
  [ Examples.col "ID"; Examples.tbl "T"; Examples.from_ 1;
    Examples.select_ [0] 2;
    Examples.col "ID"; Examples.tbl "U"; Examples.from_ 5;
    Examples.select_ [4] 6;
    Ast.Node Ast.Union [("this", Ast.VNode 3); ("expression", Ast.VNode 7)] ].
Definition union_root : nat := 8.

(** [SELECT * FROM T] *)
Definition star_query : Ast.heap :=
  [ Ast.Node Ast.Star []; Examples.tbl "T"; Examples.from_ 1;
    Examples.select_ [0] 2 ].
Definition star_root : nat := 3.

(** The placeholder written with double quotes, as dbt also accepts it:
    [{{ ref(<dq>name<dq>) }}], with its optional white space. *)
Definition ref_token_double_quoted (ws1 name ws2 : string) : string :=
  String.append "{{" (String.append ws1 (String.append "ref("
    (String Regex.dquote (String.append name
       (String Regex.dquote (String.append ")" (String.append ws2 "}}"))))))).

End Samples.

(** * Properties of the matcher *)

Module RegexFacts.
Import Regex.

Lemma append_assoc (a b c : string) :
  String.append (String.append a b) c = String.append a (String.append b c).
Proof. induction a as [| x a IH]; simpl; [reflexivity | rewrite IH; reflexivity]. Qed.

Lemma append_nil_r (a : string) : String.append a "" = a.
Proof. induction a as [| x a IH]; simpl; [reflexivity | rewrite IH; reflexivity]. Qed.

Lemma length_append (a b : string) :
  String.length (String.append a b) = String.length a + String.length b.
Proof. induction a as [| x a IH]; simpl; [reflexivity | rewrite IH; reflexivity]. Qed.

Lemma take_append (a b : string) : take (String.length a) (String.append a b) = a.
Proof. induction a as [| x a IH]; simpl; [destruct b; reflexivity | rewrite IH; reflexivity]. Qed.

(** The text consumed in front of a suffix. *)
Lemma consumed_append (a b : string) : consumed (String.append a b) b = a.
Proof.
  unfold consumed. rewrite length_append.
  replace (String.length a + String.length b - String.length b)
    with (String.length a) by lia.
  apply take_append.
Qed.

Lemma consumed_all (a : string) : consumed a "" = a.
Proof.
  pose proof (consumed_append a "") as H. rewrite append_nil_r in H. exact H.
Qed.

Section Many.
Context {R : Type}.
Variable p : ascii -> bool.

(** A run of the class followed by something outside it: the greedy
    repetition hands the whole run over first. *)
Lemma many_run_first (w rest : string) (k : string -> option R) (r : R) :
  all p w = true -> stops p rest = true ->
  k rest = Some r ->
  many p (String.append w rest) k = Some r.
Proof.
  intros W S K. induction w as [| c w IH]; simpl in *.
  - destruct rest as [| d rest]; simpl in *; [exact K |].
    apply negb_true_iff in S. rewrite S. exact K.
  - apply andb_true_iff in W as [Pc W]. rewrite Pc, (IH W). reflexivity.
Qed.

(** When the continuation fails after every part of the run, so does the
    repetition. *)
Lemma many_run_none (w rest : string) (k : string -> option R) :
  all p w = true -> stops p rest = true ->
  (forall w2, all p w2 = true -> k (String.append w2 rest) = None) ->
  many p (String.append w rest) k = None.
Proof.
  intros W S K. induction w as [| c w IH]; simpl in *.
  - destruct rest as [| d rest]; simpl in *; [exact (K "" eq_refl) |].
    apply negb_true_iff in S. rewrite S. exact (K "" eq_refl).
  - pose proof W as W'. apply andb_true_iff in W as [Pc W].
    rewrite Pc, (IH W). apply (K (String c w)). exact W'.
Qed.

End Many.

Lemma word_not_dot (c : ascii) : is_word c = true -> Ascii.eqb "."%char c = false.
Proof.
  intros W. destruct (Ascii.eqb "."%char c) eqn:E; [| reflexivity].
  apply Ascii.eqb_eq in E. subst c. discriminate.
Qed.

Lemma word_not_dquote (c : ascii) : is_word c = true -> Ascii.eqb dquote c = false.
Proof.
  intros W. destruct (Ascii.eqb dquote c) eqn:E; [| reflexivity].
  apply Ascii.eqb_eq in E. subst c. discriminate.
Qed.

(** The equations of [matches], one per constructor. *)
Section Equations.
Context {R : Type}.
Implicit Types (k : string -> groups -> option R) (g : groups) (s : string).

Lemma matches_seq r1 r2 s g k :
  matches (Seq r1 r2) s g k
  = matches r1 s g (fun rest g' => matches r2 rest g' k).
Proof. reflexivity. Qed.

Lemma matches_group i r s g k :
  matches (Group i r) s g k
  = matches r s g (fun rest g' => k rest (set_group i (consumed s rest) g')).
Proof. reflexivity. Qed.

Lemma matches_opt_skip r s g k :
  matches r s g k = None -> matches (Opt r) s g k = k s g.
Proof. intros H. simpl. rewrite H. reflexivity. Qed.

Lemma matches_opt_take r s g k x :
  matches r s g k = Some x -> matches (Opt r) s g k = Some x.
Proof. intros H. simpl. rewrite H. reflexivity. Qed.

Lemma matches_chr_hit c s g k : matches (Chr c) (String c s) g k = k s g.
Proof. simpl. rewrite Ascii.eqb_refl. reflexivity. Qed.

Lemma matches_chr_miss c s g k :
  match s with
  | EmptyString => True
  | String c' _ => Ascii.eqb c c' = false
  end ->
  matches (Chr c) s g k = None.
Proof. destruct s as [| c' s]; simpl; [reflexivity |]. intros ->. reflexivity. Qed.

Lemma many1_run_first p (w rest : string) g k (r : R) :
  w <> "" -> all p w = true -> stops p rest = true ->
  k rest g = Some r ->
  matches (Many1 p) (String.append w rest) g k = Some r.
Proof.
  intros N W S K. destruct w as [| c w]; [congruence |]. simpl in *.
  apply andb_true_iff in W as [Pc W]. rewrite Pc.
  apply many_run_first; assumption.
Qed.

Lemma many_run_fails p (w rest : string) g k :
  all p w = true -> stops p rest = true ->
  (forall w2, all p w2 = true -> k (String.append w2 rest) g = None) ->
  matches (Many p) (String.append w rest) g k = None.
Proof.
  intros W S K. simpl. apply many_run_none; [exact W | exact S |].
  intros w2 W2. apply K. exact W2.
Qed.

Lemma many1_run_none p (w rest : string) g k :
  all p w = true -> stops p rest = true ->
  (forall w2, all p w2 = true -> k (String.append w2 rest) g = None) ->
  matches (Many1 p) (String.append w rest) g k = None.
Proof.
  intros W S K. destruct w as [| c w]; simpl in *.
  - destruct rest as [| d rest]; simpl in *; [reflexivity |].
    apply negb_true_iff in S. rewrite S. reflexivity.
  - apply andb_true_iff in W as [Pc W]. rewrite Pc.
    apply many_run_none; [exact W | exact S |].
    intros w2 W2. apply K. exact W2.
Qed.

End Equations.

Lemma all_append p (a b : string) :
  all p (String.append a b) = all p a && all p b.
Proof.
  induction a as [| c a IH]; simpl; [reflexivity |].
  rewrite IH, andb_assoc. reflexivity.
Qed.

Lemma space_not_brace (c : ascii) : is_space c = true -> not_brace c = true.
Proof.
  intros W. unfold not_brace. destruct (Ascii.eqb c "{"%char) eqn:E; [| reflexivity].
  apply Ascii.eqb_eq in E. subst c. discriminate.
Qed.

Lemma spaces_no_brace (w : string) : all is_space w = true -> all not_brace w = true.
Proof.
  induction w as [| c w IH]; simpl; [reflexivity |]. intros H.
  apply andb_true_iff in H as [Hc Hw].
  rewrite (space_not_brace c Hc), (IH Hw). reflexivity.
Qed.

(** A literal that starts with a letter does not match where white space or
    another letter stands. *)
Lemma space_is_not (x c : ascii) :
  is_space x = false -> is_space c = true -> Ascii.eqb x c = false.
Proof.
  intros Hx Hc. destruct (Ascii.eqb x c) eqn:E; [| reflexivity].
  apply Ascii.eqb_eq in E. subst c. congruence.
Qed.

End RegexFacts.

(** * Properties of the reference resolver *)

Module ResolverFacts.
Import Regex RegexFacts Resolver.

Section Matcher.
Context {R : Type}.
Implicit Types (k : string -> groups -> option R) (g : groups) (s : string).

Lemma matches_lit (w : string) (r : re) s g k :
  matches (lit w r) (String.append w s) g k = matches r s g k.
Proof.
  induction w as [| c w IH]; simpl lit; [reflexivity |].
  cbn [String.append]. rewrite matches_seq, matches_chr_hit. exact IH.
Qed.

Lemma many_run p (w rest : string) g k (x : R) :
  all p w = true -> stops p rest = true ->
  k rest g = Some x ->
  matches (Many p) (String.append w rest) g k = Some x.
Proof. intros W S K. simpl. apply many_run_first; assumption. Qed.

End Matcher.

(** ** [re.sub] *)

Lemma sub_go_skip (r : re) repl (m rest : string) :
  sub_go r repl (String.append m rest) (String.length m) = sub_go r repl rest 0.
Proof. induction m as [| c m IH]; simpl; [destruct rest; reflexivity | exact IH]. Qed.

(** At a position where the pattern matches the text [m]: the replacement,
    and the scan goes on behind [m]. *)
Lemma sub_match (r : re) repl (m rest : string) (g : groups) :
  m <> "" ->
  match_at r (String.append m rest) = Some (rest, g) ->
  sub r repl (String.append m rest)
  = String.append (repl m g) (sub r repl rest).
Proof.
  intros N M. unfold sub. destruct m as [| c m]; [congruence |].
  cbn [String.append] in *. cbn [sub_go]. rewrite M.
  change (String c (String.append m rest))
    with (String.append (String c m) rest).
  rewrite consumed_append. cbn [String.length].
  replace (S (String.length m) - 1) with (String.length m) by lia.
  rewrite sub_go_skip. reflexivity.
Qed.

(** At a position where the pattern does not match: the character is
    kept. *)
Lemma sub_no_match (r : re) repl (c : ascii) (s : string) :
  match_at r (String c s) = None ->
  sub r repl (String c s) = String c (sub r repl s).
Proof. intros M. unfold sub. cbn [sub_go]. rewrite M. reflexivity. Qed.

(** ** The two patterns on their placeholders *)

Lemma ref_pattern_matches (ws1 name ws2 post : string) :
  all is_space ws1 = true -> all is_space ws2 = true ->
  all not_quote name = true -> name <> "" ->
  match_at ref_pattern (String.append (ref_token ws1 name ws2) post)
  = Some (post, [Some name]).
Proof.
  intros W1 W2 Wn Nn. unfold match_at, ref_pattern, ref_token.
  rewrite !append_assoc.
  rewrite matches_lit, matches_seq.
  apply many_run; [exact W1 | reflexivity |].
  rewrite matches_lit, matches_seq, matches_group.
  apply many1_run_first; [exact Nn | exact Wn | reflexivity |].
  rewrite matches_lit, matches_seq.
  apply many_run; [exact W2 | reflexivity |].
  rewrite matches_lit. cbn [matches]. rewrite consumed_append. reflexivity.
Qed.


(** ** Text without a placeholder *)

Lemma ref_pattern_needs_brace (c : ascii) (s : string) :
  not_brace c = true -> match_at ref_pattern (String c s) = None.
Proof.
  intros N. unfold match_at, ref_pattern. cbn [lit]. rewrite matches_seq.
  apply matches_chr_miss. unfold not_brace in N.
  rewrite Ascii.eqb_sym. apply negb_true_iff. exact N.
Qed.

Lemma source_pattern_needs_brace (c : ascii) (s : string) :
  not_brace c = true -> match_at source_pattern (String c s) = None.
Proof.
  intros N. unfold match_at, source_pattern. cbn [lit]. rewrite matches_seq.
  apply matches_chr_miss. unfold not_brace in N.
  rewrite Ascii.eqb_sym. apply negb_true_iff. exact N.
Qed.

(** A pass copies a stretch of text without an opening brace. *)
Lemma sub_brace_free (r : re) repl (w s : string) :
  (forall c s', not_brace c = true -> match_at r (String c s') = None) ->
  all not_brace w = true ->
  sub r repl (String.append w s) = String.append w (sub r repl s).
Proof.
  intros H. induction w as [| c w IH]; simpl; intros W; [reflexivity |].
  apply andb_true_iff in W as [Wc Ww].
  rewrite sub_no_match by (apply H; exact Wc). rewrite (IH Ww). reflexivity.
Qed.




(** ** The lookups of the two replacers *)




Lemma find_source_In (name full_name : string) (rd : reference_data) :
  find_source name rd = Some full_name -> List.In full_name (Ast.keys rd).
Proof.
  induction rd as [| [k cols] rd IH]; simpl; [discriminate |].
  destruct (Ast.split "." k) as [| a [| b [| c [| d l]]]];
    try (intros E; right; apply IH; exact E).
  destruct (String.eqb c name).
  - intros E. injection E as ->. left. reflexivity.
  - intros E. right. apply IH. exact E.
Qed.

(** ** One pass over a placeholder *)

Lemma replace_refs_token rd (ws1 name ws2 post : string) :
  all is_space ws1 = true -> all is_space ws2 = true ->
  all not_quote name = true -> name <> "" ->
  replace_refs rd (String.append (ref_token ws1 name ws2) post)
  = String.append
      (match find_ref name rd with
       | Some full_name => full_name
       | None => ref_token ws1 name ws2
       end)
      (replace_refs rd post).
Proof.
  intros W1 W2 Wn Nn. unfold replace_refs.
  rewrite (sub_match ref_pattern _ (ref_token ws1 name ws2) post [Some name]).
  - reflexivity.
  - unfold ref_token. discriminate.
  - apply ref_pattern_matches; assumption.
Qed.




(** A whole text through both passes. *)
Example resolve_whole_text :
  replace_refs_and_sources_in_sql
    "select * from {{ ref('orders') }} o join {{source('ecom', 'items')}} i on {{ ref('nope') }}"
    (Some Examples.shop_reference)
  = "select * from db.stg.orders o join db.raw.items i on {{ ref('nope') }}".
Proof. vm_compute. reflexivity. Qed.

End ResolverFacts.

(** * Properties of the lineage tracer *)

Module TracerFacts.
Import Ast Tracer.

Lemma returns_ret {A : Type} (x : A) : returns (ret x).
Proof. intros h. exists h, x. reflexivity. Qed.

Lemma returns_bind {A B : Type} (c : M A) (k : A -> M B) :
  returns c -> (forall x, returns (k x)) -> returns (bind c k).
Proof.
  intros Hc Hk h. destruct (Hc h) as (h1 & x & E).
  destruct (Hk x h1) as (h2 & y & E2).
  exists h2, y. unfold bind. rewrite E. exact E2.
Qed.

Lemma returns_get_node (a : nat) : returns (get_node a).
Proof. intros h. eexists _, _. reflexivity. Qed.

Lemma returns_with_heap {A : Type} (f : heap -> A) : returns (with_heap f).
Proof. intros h. eexists _, _. reflexivity. Qed.

Lemma returns_try_except {A : Type} (body : M A) (handler : exn -> M A) :
  (forall e, returns (handler e)) -> returns (try_except body handler).
Proof.
  intros Hh h. unfold try_except.
  destruct (body h) as [h1 [e | x]].
  - apply Hh.
  - exists h1, x. reflexivity.
Qed.

Lemma returns_for_each {A S : Type} (body : A -> S -> M S) (l : list A) :
  (forall x s, returns (body x s)) -> forall s, returns (for_each body l s).
Proof.
  intros Hb. induction l as [| x l IH]; intros s; simpl.
  - apply returns_ret.
  - apply returns_bind; [apply Hb | intros s'; apply IH].
Qed.

Create HintDb returns.
#[local] Hint Resolve returns_ret returns_get_node returns_with_heap : returns.

(** The caught body: whatever [body] does, the handler's row comes out when
    it raises. *)
Lemma try_except_raised {A : Type} (body : M A) (handler : exn -> M A)
    (h h1 : heap) (e : exn) :
  body h = (h1, inl e) -> try_except body handler h = handler e h1.
Proof. intros E. unfold try_except. rewrite E. reflexivity. Qed.

Lemma try_except_returned {A : Type} (body : M A) (handler : exn -> M A)
    (h h1 : heap) (x : A) :
  body h = (h1, inr x) -> try_except body handler h = (h1, inr x).
Proof. intros E. unfold try_except. rewrite E. reflexivity. Qed.

Section Projections.
Variable generate : heap -> nat -> exn + string.

(** Both success paths that end in the undefined [extract_source_info]
    raise, whatever the tracing before it does. *)
Lemma trace_star_entry_raises fuel col cd mt :
  raises (trace_star_entry generate fuel col cd mt).
Proof.
  intros h. unfold trace_star_entry, bind, new, alloc, raise.
  destruct (trace_column_lineage _ _ _ _ _ _ _ _) as [h1 [e | [[c t] tr]]].
  - eauto.
  - destruct (transformation_sql generate tr h1) as [h2 [e | s]]; eauto.
Qed.

Lemma trace_alias_raises fuel en am cd ct :
  raises (trace_alias generate fuel en am cd ct).
Proof.
  intros h. unfold trace_alias, bind, raise.
  destruct (extract_source_columns_and_transformation _ _ _ _ _ _)
    as [h1 [e | [[c tr] t]]].
  - eauto.
  - destruct (transformation_sql generate tr h1) as [h2 [e | s]]; eauto.
Qed.

(** The rows of a starred CTE: one error row per entry, in the order of the
    entries. *)
Lemma star_rows fuel cd mt (info : cte_info) :
  forall (rows : list LineageRow) (h : heap),
    snd (for_each
           (fun (entry : string * cte_column) (rows : list LineageRow) =>
              bind (try_except
                      (trace_star_entry generate fuel (fst entry) cd mt)
                      (fun _ => ret (error_row (fst entry) "Error tracing column")))
                   (fun row => ret (rows ++ [row])))
           info rows h)
    = inr (rows ++ map (fun col => error_row col "Error tracing column")
                     (keys info)).
Proof.
  induction info as [| [col c] info IH]; intros rows h; simpl.
  - rewrite app_nil_r. reflexivity.
  - unfold bind at 1.
    destruct (trace_star_entry_raises fuel col cd mt h) as (h1 & e & E).
    unfold bind at 1. rewrite (try_except_raised _ _ _ _ _ E).
    unfold ret at 1 2. simpl. rewrite IH. rewrite <- app_assoc. reflexivity.
Qed.

Lemma returns_process_projection fuel p am cd mt :
  returns (process_projection generate fuel p am cd mt).
Proof.
  unfold process_projection. destruct p as [e | | | |]; auto with returns.
  apply returns_bind; auto with returns. intros en.
  destruct (ncls en); auto with returns.
  - (* Column *)
    apply returns_bind; auto with returns.
    apply returns_try_except. intros _.
    repeat (apply returns_bind; auto with returns; intros).
  - (* Star *)
    destruct (assoc mt cd); auto with returns.
    apply returns_for_each. intros entry rows.
    apply returns_bind; auto with returns.
    apply returns_try_except. auto with returns.
  - (* Alias *)
    repeat (apply returns_bind; auto with returns; intros).
    apply returns_try_except. auto with returns.
Qed.

Lemma returns_process_projections fuel ps am cd mt rows :
  returns (process_projections generate fuel ps am cd mt rows).
Proof.
  unfold process_projections. apply returns_for_each. intros p r.
  apply returns_bind; auto with returns.
  apply returns_process_projection.
Qed.

(** The loop goes on with the next projection after the rows of this one. *)
Lemma process_projections_cons fuel p ps am cd mt rows h h1 out :
  process_projection generate fuel p am cd mt h = (h1, inr out) ->
  process_projections generate fuel (p :: ps) am cd mt rows h
  = process_projections generate fuel ps am cd mt (rows ++ out) h1.
Proof.
  intros E. unfold process_projections. simpl. unfold bind at 1 2.
  rewrite E. reflexivity.
Qed.

(** A projection that is neither a star, an alias nor a column appends
    nothing. *)
Lemma bare_expression_no_row fuel e en am cd mt h :
  h !! e = Some en ->
  ncls en <> Star -> ncls en <> Alias -> ncls en <> Column ->
  process_projection generate fuel (VNode e) am cd mt h = (h, inr []).
Proof.
  intros E HS HA HC. unfold process_projection, bind, get_node.
  rewrite E. simpl. destruct (ncls en); try reflexivity; congruence.
Qed.

End Projections.

(** ** C2, C3, C9, C10: the loop over the select list *)

Section Rows.
Variable generate : heap -> nat -> exn + string.

Lemma alias_projection_row fuel e en am cd mt (h : heap) :
  h !! e = Some en -> ncls en = Alias ->
  snd (process_projection generate fuel (VNode e) am cd mt h)
  = inr [error_row (alias h en) "Error tracing alias"].
Proof.
  intros E HA. unfold process_projection, bind at 1, get_node. rewrite E.
  simpl. rewrite HA. unfold bind at 1, with_heap at 1.
  unfold bind at 1.
  destruct (trace_alias_raises generate fuel en am cd mt h) as (h1 & x & R).
  rewrite (try_except_raised _ _ _ _ _ R). reflexivity.
Qed.

Lemma star_projection_rows fuel e en am cd mt info (h : heap) :
  h !! e = Some en -> ncls en = Star -> assoc mt cd = Some info ->
  snd (process_projection generate fuel (VNode e) am cd mt h)
  = inr (map (fun col => error_row col "Error tracing column") (keys info)).
Proof.
  intros E HS Hi. unfold process_projection, bind at 1, get_node.
  rewrite E. simpl. rewrite HS, Hi.
  apply (star_rows generate fuel cd mt info []).
Qed.

Lemma column_projection_caught fuel e en am cd mt (h h1 : heap) x :
  h !! e = Some en -> ncls en = Column ->
  trace_column generate fuel e am cd mt h = (h1, inl x) ->
  process_projection generate fuel (VNode e) am cd mt h
  = (h1, inr [error_row (name h1 (default (Node (Other "") []) (h1 !! e)))
                "Error tracing expression"]).
Proof.
  intros E HC R. unfold process_projection, bind at 1, get_node. rewrite E.
  simpl. rewrite HC. unfold bind at 1.
  rewrite (try_except_raised _ _ _ _ _ R). reflexivity.
Qed.

Lemma alias_projection_caught fuel e en am cd mt (h h1 : heap) x :
  h !! e = Some en -> ncls en = Alias ->
  trace_alias generate fuel en am cd mt h = (h1, inl x) ->
  process_projection generate fuel (VNode e) am cd mt h
  = (h1, inr [error_row (alias h en) "Error tracing alias"]).
Proof.
  intros E HA R. unfold process_projection, bind at 1, get_node. rewrite E.
  simpl. rewrite HA. unfold bind at 1, with_heap at 1. unfold bind at 1.
  rewrite (try_except_raised _ _ _ _ _ R). reflexivity.
Qed.

End Rows.

(** C3. An alias projection, and a star over a FROM target that is in
    [cte_definitions], reach the call of [extract_source_info], which the
    module never defines: the handler of the projection runs, and the rows
    are the ["Unknown"] rows with the texts "Error tracing alias" and
    "Error tracing column", one per CTE entry for the star, whatever the
    SQL, the store, the generator and the stack budget are. *)
Theorem undefined_extract_source_info_rows
    (generate : heap -> nat -> exn + string) (fuel : nat) (e : nat) (en : node)
    (am : alias_map) (cd : cte_defs) (mt : string) (h : heap) :
  h !! e = Some en ->
  (ncls en = Alias ->
     snd (process_projection generate fuel (VNode e) am cd mt h)
     = inr [Row (alias h en) "Unknown" "Unknown" "Unknown" "Unknown"
                "Error tracing alias"])
  /\ (ncls en = Star ->
      forall info, assoc mt cd = Some info ->
        snd (process_projection generate fuel (VNode e) am cd mt h)
        = inr (map (fun col => Row col "Unknown" "Unknown" "Unknown" "Unknown"
                                   "Error tracing column")
                 (keys info))).
Proof.
  intros E. split.
  - intros HA. exact (alias_projection_row generate fuel e en am cd mt h E HA).
  - intros HS info Hi.
    exact (star_projection_rows generate fuel e en am cd mt info h E HS Hi).
Qed.

(** ** C1: the walk of [replace_columns] over stored transformations *)

Import Examples.

(** One unfolding of [replace_columns] on an expression object. *)
Lemma replace_columns_unfold fuel cd st v md a d :
  replace_columns (S fuel) cd st v md (VNode a) d
  = bind (get_node a) (fun n =>
      if is_cls (ncls n) Column then
        bind (with_heap (fun h => name h n)) (fun src_col =>
        bind (with_heap (fun h => table h n)) (fun node_table =>
        let src_table := if String.eqb node_table "" then st else node_table in
        bind (new (column src_col src_table)) (fun column_with_table =>
        bind (trace_column_lineage fuel cd column_with_table src_table v
                (d + 1) md) (fun r => ret (snd r)))))
      else
        bind (for_each
                (fun i (_ : unit) =>
                   bind (get_node a) (fun n' =>
                     match nth_error (nargs n') i with
                     | Some (arg_name, VNode child) =>
                         bind (replace_columns fuel cd st v md (VNode child) d)
                              (fun r => set_arg a arg_name r)
                     | Some (arg_name, VList items) =>
                         bind (for_each
                                 (fun item (acc : list argv) =>
                                    match item with
                                    | VNode _ =>
                                        bind (replace_columns fuel cd st v md item d)
                                             (fun new_item => ret (acc ++ [new_item]))
                                    | _ => ret (acc ++ [item])
                                    end)
                                 items [])
                              (fun new_list => set_arg a arg_name (VList new_list))
                     | _ => ret tt
                     end))
                (seq 0 (List.length (nargs n))) tt)
             (fun _ => ret (VNode a))).
Proof. reflexivity. Qed.

(** Two expression objects that are each other's only argument: the walk
    from one of them never comes back.  It uses up any stack budget, and
    writes nothing. *)
Lemma cyclic_walk_overflows fuel cd st v md d (h : heap) :
  forall a b ca cb,
    h !! a = Some (Node ca [("this", VNode b)]) ->
    h !! b = Some (Node cb [("this", VNode a)]) ->
    ca <> Column -> cb <> Column ->
    replace_columns fuel cd st v md (VNode a) d h = (h, inl RecursionError).
Proof.
  induction fuel as [| fuel IH]; intros a b ca cb Ha Hb Hca Hcb.
  - reflexivity.
  - rewrite replace_columns_unfold. unfold bind at 1, get_node at 1.
    rewrite Ha. simpl.
    assert (is_cls ca Column = false) as ->.
    { unfold is_cls. destruct (cls_eq_dec ca Column); congruence. }
    unfold bind, get_node. rewrite Ha. simpl.
    rewrite (IH b a cb ca Hb Ha Hcb Hca). reflexivity.
Qed.

(** The expander hands [crossed_query] on as it is. *)
Example crossed_query_is_expanded :
  Expander.generate_expanded_sql crossed_statement crossed_reference
  = inr crossed_statement.
Proof. reflexivity. Qed.

(** C1. The revisit test and the depth cap of [trace_column_lineage] bound
    the nesting of its own calls, not the walk of [replace_columns] over a
    stored transformation.  For the query [crossed_query] the CTEs are
    processed and the first two projections are traced normally; their
    in-place substitutions leave the stored [UPPER] and [LOWER] expressions
    as each other's argument, and the trace of the third projection then
    returns for no stack budget at all: it ends in [RecursionError]. *)
Theorem trace_column_lineage_walk_unbounded :
  for_each (fun c st => process_cte 50 c st) [6; 13] ([], []) crossed_query
  = (crossed_query, inr (crossed_aliases, crossed_defs))
  /\ extract_source_columns_and_transformation 50 (VNode 15) crossed_aliases
       crossed_defs (Some "B") crossed_query
     = (crossed_after_one, inr ([], VNode 8, ""))
  /\ extract_source_columns_and_transformation 50 (VNode 17) crossed_aliases
       crossed_defs (Some "B") crossed_after_one
     = (crossed_after_two, inr ([], VNode 1, ""))
  /\ (forall fuel,
        snd (trace_column_lineage fuel crossed_defs 19 "B" [] 0 10
               crossed_after_two) = inl RecursionError)
  /\ (forall fuel,
        snd (extract_source_columns_and_transformation fuel (VNode 19)
               crossed_aliases crossed_defs (Some "B") crossed_after_two)
        = inl RecursionError).
Proof.
  split; [vm_compute; reflexivity |].
  split; [vm_compute; reflexivity |].
  split; [vm_compute; reflexivity |].
  split; intros fuel.
  - destruct fuel as [| fuel]; [reflexivity |].
    simpl. unfold bind. simpl.
    rewrite (cyclic_walk_overflows fuel crossed_defs "A" _ 10 0
               crossed_after_two 8 1 (Other "Lower") (Other "Upper"));
      try reflexivity; discriminate.
  - destruct fuel as [| fuel]; [reflexivity |].
    simpl. unfold bind. simpl.
    destruct fuel as [| fuel]; [reflexivity |].
    simpl. unfold bind. simpl.
    rewrite (cyclic_walk_overflows fuel crossed_defs "A" _ 10 0
               _ 8 1 (Other "Lower") (Other "Upper"));
      try reflexivity; discriminate.
Qed.

Lemma undefined_extract_source_info_rows_witness :
  snd (process_projection opaque_generate 50 (VNode 7) rename_aliases
         rename_defs "A" rename_query)
  = inr [Row "CUSTOMER_ID" "Unknown" "Unknown" "Unknown" "Unknown"
             "Error tracing alias"]
  /\ snd (process_projection opaque_generate 50 (VNode 8) rename_aliases
            rename_defs "A" rename_query)
     = inr [Row "ID" "Unknown" "Unknown" "Unknown" "Unknown"
                "Error tracing column"].
Proof.
  split.
  - exact (proj1 (undefined_extract_source_info_rows opaque_generate 50 7
                    (aliased 6 "CUSTOMER_ID") rename_aliases rename_defs "A"
                    rename_query eq_refl) eq_refl).
  - exact (proj2 (undefined_extract_source_info_rows opaque_generate 50 8
                    (Node Star []) rename_aliases rename_defs "A"
                    rename_query eq_refl) eq_refl _ eq_refl).
Defined.

(** C2. Whatever exception the tracing of a projection of the main SELECT
    raises, it is caught inside that projection: the row that comes out has
    "Unknown" for the source database, schema, table and columns and an
    error text for the transformation; the loop then goes on with the next
    projection, and the loop as a whole never raises. *)
Theorem projection_exceptions_are_caught
    (generate : heap -> nat -> exn + string) (fuel : nat)
    (am : alias_map) (cd : cte_defs) (mt : string) :
  (forall e en (h h1 : heap) x,
      h !! e = Some en -> ncls en = Column ->
      trace_column generate fuel e am cd mt h = (h1, inl x) ->
      process_projection generate fuel (VNode e) am cd mt h
      = (h1, inr [Row (name h1 (default (Node (Other "") []) (h1 !! e)))
                      "Unknown" "Unknown" "Unknown" "Unknown"
                      "Error tracing expression"]))
  /\ (forall e en (h h1 : heap) x,
      h !! e = Some en -> ncls en = Alias ->
      trace_alias generate fuel en am cd mt h = (h1, inl x) ->
      process_projection generate fuel (VNode e) am cd mt h
      = (h1, inr [Row (alias h en) "Unknown" "Unknown" "Unknown" "Unknown"
                      "Error tracing alias"]))
  /\ (forall col (h h1 : heap) x,
      trace_star_entry generate fuel col cd mt h = (h1, inl x) ->
      try_except (trace_star_entry generate fuel col cd mt)
        (fun _ => ret (error_row col "Error tracing column")) h
      = (h1, inr (Row col "Unknown" "Unknown" "Unknown" "Unknown"
                      "Error tracing column")))
  /\ (forall p ps rows (h : heap),
      exists h1 out,
        process_projection generate fuel p am cd mt h = (h1, inr out)
        /\ process_projections generate fuel (p :: ps) am cd mt rows h
           = process_projections generate fuel ps am cd mt (rows ++ out) h1)
  /\ (forall ps rows (h : heap),
      exists h1 out,
        process_projections generate fuel ps am cd mt rows h = (h1, inr out)).
Proof.
  repeat split.
  - intros. eapply column_projection_caught; eauto.
  - intros. eapply alias_projection_caught; eauto.
  - intros col h h1 x R. rewrite (try_except_raised _ _ _ _ _ R). reflexivity.
  - intros p ps rows h.
    destruct (returns_process_projection generate fuel p am cd mt h)
      as (h1 & out & E).
    exists h1, out. split; [exact E |].
    apply process_projections_cons. exact E.
  - intros ps rows h.
    apply (returns_process_projections generate fuel ps am cd mt rows h).
Qed.

(** The third projection of [crossed_query] taken as a plain column: its
    trace raises, and the row is the error row. *)
Lemma projection_exceptions_are_caught_witness :
  exists h1,
    process_projection opaque_generate 60 (VNode 19) crossed_aliases
      crossed_defs "B" crossed_after_two
    = (h1, inr [Row "Y" "Unknown" "Unknown" "Unknown" "Unknown"
                    "Error tracing expression"]).
Proof.
  eexists.
  exact (proj1 (projection_exceptions_are_caught opaque_generate 60
                  crossed_aliases crossed_defs "B")
           19 (col "Y") crossed_after_two _ RecursionError
           eq_refl eq_refl eq_refl).
Defined.

(** C9. Scenario F, [SELECT COUNT(DISTINCT ID) AS N FROM A] over the CTE
    [A := SELECT ID FROM DB.SCH.RAW].  The row for [N] is the error row of
    the alias branch, so its source columns are "Unknown" and its
    transformation is no COUNT at all.  The extraction before it does keep
    the DISTINCT, as the untouched [Distinct] argument of the rebuilt
    [Count], but it recurses on that argument only: the column under it is
    never visited, the source columns are empty and the table stays [A]. *)
Theorem count_distinct_row :
  for_each (fun c st => process_cte 50 c st) [4] ([], []) count_distinct_query
  = (count_distinct_query, inr ([("A", "A")], count_distinct_defs))
  /\ (forall generate,
      snd (process_with_and_select generate 50 count_distinct_root
             count_distinct_query)
      = inr [Row "N" "Unknown" "Unknown" "Unknown" "Unknown"
                 "Error tracing alias"])
  /\ extract_source_columns_and_transformation 50 (VNode 8) [("A", "A")]
       count_distinct_defs (Some "A") count_distinct_query
     = (count_distinct_query ++ [Node Count [("this", VNode 7)]],
        inr ([], VNode 13, "A")).
Proof.
  split; [vm_compute; reflexivity |].
  split.
  - intros generate. vm_compute. destruct (generate _ _); reflexivity.
  - vm_compute. reflexivity.
Qed.

(** C10. A projection of the main SELECT that is neither a star, an alias
    nor a column gets no row at all, and [extract] is not called for it:
    the loop of [process_with_and_select] has branches for these three
    kinds only.  [SELECT ID + 1 FROM T], with its one bare expression,
    yields the empty list. *)
Theorem bare_expression_projection_dropped
    (generate : heap -> nat -> exn + string) (fuel : nat) :
  (forall e en am cd mt (h : heap),
      h !! e = Some en ->
      ncls en <> Star -> ncls en <> Alias -> ncls en <> Column ->
      process_projection generate fuel (VNode e) am cd mt h = (h, inr []))
  /\ process_with_and_select generate fuel bare_sum_root bare_sum_query
     = (bare_sum_query, inr []).
Proof.
  split.
  - intros e en am cd mt h E NS NA NC.
    apply (bare_expression_no_row generate fuel e en am cd mt h E NS NA NC).
  - reflexivity.
Qed.

Lemma bare_expression_projection_dropped_witness :
  process_projection opaque_generate 10 (VNode 2) [("T", "T")] [] "T"
    bare_sum_query
  = (bare_sum_query, inr []).
Proof.
  apply (proj1 (bare_expression_projection_dropped opaque_generate 10) 2
           (Node Add [("this", VNode 0); ("expression", VNode 1)]));
    solve [reflexivity | discriminate].
Defined.

(** The two guards at the head of [trace_column_lineage]: a key already in
    the visit-set, or a depth at the cap, gives back the column itself and
    leaves the store alone. *)
Lemma trace_revisit fuel cd c t v d md (h : heap) cn :
  h !! c = Some cn ->
  visited_mem (t, column_sql h cn) v = true ->
  trace_column_lineage (S fuel) cd c t v d md h
  = (h, inr ([name h cn], t, VNode c)).
Proof.
  intros E V. simpl. unfold bind, get_node, with_heap. rewrite E. simpl.
  rewrite V. reflexivity.
Qed.

Lemma trace_depth_cap fuel cd c t v d md (h : heap) cn :
  h !! c = Some cn -> md <= d ->
  trace_column_lineage (S fuel) cd c t v d md h
  = (h, inr ([name h cn], t, VNode c)).
Proof.
  intros E D. simpl. unfold bind, get_node, with_heap. rewrite E. simpl.
  apply Nat.leb_le in D. rewrite D.
  destruct (visited_mem _ _); reflexivity.
Qed.

End TracerFacts.

(** * The depth cap on CTEs of plain columns *)

Module Termination.
Import Ast Tracer TracerFacts.

Lemma grows_ret {A : Type} (x : A) (h : heap) : grows (ret x) h.
Proof. exists [], x. unfold ret. rewrite app_nil_r. reflexivity. Qed.

Lemma grows_bind {A B : Type} (c : M A) (k : A -> M B) (h : heap) :
  grows c h ->
  (forall l x, c h = (h ++ l, inr x) -> grows (k x) (h ++ l)) ->
  grows (bind c k) h.
Proof.
  intros (l & x & E) K. destruct (K l x E) as (l' & y & E').
  exists (l ++ l'), y. unfold bind. rewrite E, E', app_assoc. reflexivity.
Qed.

Lemma grows_with_heap {A : Type} (f : heap -> A) (h : heap) :
  grows (with_heap f) h.
Proof. exists [], (f h). unfold with_heap. rewrite app_nil_r. reflexivity. Qed.

Lemma grows_get_node (a : nat) (h : heap) : grows (get_node a) h.
Proof. eexists [], _. unfold get_node. rewrite app_nil_r. reflexivity. Qed.

Lemma grows_new (n : node) (h : heap) : grows (new n) h.
Proof. exists [n], (List.length h). reflexivity. Qed.

Lemma grows_bind_get_node {B : Type} (a : nat) (k : node -> M B)
    (h : heap) (n : node) :
  h !! a = Some n -> grows (k n) h -> grows (bind (get_node a) k) h.
Proof.
  intros L (l & x & E). exists l, x. unfold bind, get_node. rewrite L. exact E.
Qed.

Lemma grows_bind_with_heap {A B : Type} (f : heap -> A) (k : A -> M B)
    (h : heap) :
  grows (k (f h)) h -> grows (bind (with_heap f) k) h.
Proof. intros (l & x & E). exists l, x. unfold bind, with_heap. exact E. Qed.

Lemma new_result (n : node) (h l : heap) (a : nat) :
  new n h = (h ++ l, inr a) -> l = [n] /\ a = List.length h.
Proof.
  unfold new, alloc. intros E. injection E as E1 E2.
  apply app_inv_head in E1. split; congruence.
Qed.

Lemma lookup_extended (h l : heap) (a : nat) (n : node) :
  h !! a = Some n -> (h ++ l) !! a = Some n.
Proof. intros E. apply lookup_app_l_Some. exact E. Qed.

Lemma columns_only_extended cd (h l : heap) :
  columns_only cd h -> columns_only cd (h ++ l).
Proof.
  intros C t info c rec Ht Hc. destruct (C t info c rec Ht Hc) as (a & n & E & L & K).
  exists a, n. split; [exact E |]. split; [apply lookup_extended; exact L | exact K].
Qed.

Lemma lookup_new (h : heap) (n : node) : (h ++ [n]) !! List.length h = Some n.
Proof.
  rewrite lookup_app_r by reflexivity.
  replace (List.length h - List.length h) with 0 by lia. reflexivity.
Qed.

Section Columns.
Variable cd : cte_defs.
Variable max_depth : nat.

(** The loop over [source_columns], given that the nested traces return. *)
Lemma source_loop_grows (fuel depth : nat) (src_table : string) (v : visit_set)
    (src_cols : list string) :
  (forall col cn t (h : heap),
      columns_only cd h -> h !! col = Some cn -> ncls cn = Column ->
      grows (trace_column_lineage fuel cd col t v (depth + 1) max_depth) h) ->
  forall (acc : list string * list string) (h : heap),
    columns_only cd h ->
    grows
      (for_each
         (fun src_col (acc : list string * list string) =>
            bind (new (column src_col src_table)) (fun src_col_node =>
            bind (trace_column_lineage fuel cd src_col_node src_table v
                    (depth + 1) max_depth) (fun r =>
            let '(traced_columns, traced_table, _) := r in
            ret (set_update (fst acc) traced_columns,
                 set_add traced_table (snd acc)))))
         src_cols acc) h.
Proof.
  intros T. induction src_cols as [| c src_cols IH]; intros acc h C; simpl.
  - apply grows_ret.
  - apply grows_bind.
    + apply grows_bind.
      * exists [column c src_table], (List.length h). reflexivity.
      * intros l x E. unfold new, alloc in E. injection E as E1 E2.
        apply app_inv_head in E1. subst l x.
        apply grows_bind.
        -- apply (T _ (column c src_table)); [apply columns_only_extended; exact C
                                               | apply lookup_new | reflexivity].
        -- intros l [[tc tt] tr] _. apply grows_ret.
    + intros l acc' _. apply IH. apply columns_only_extended. exact C.
Qed.

(** One unfolding of [trace_column_lineage]. *)
Lemma trace_column_lineage_unfold (fuel : nat) (cte_definitions : cte_defs)
    (column_node : nat) (table : string) (visited : visit_set) (depth : nat) :
  trace_column_lineage (S fuel) cte_definitions column_node table visited
    depth max_depth
  = (
      do cn <- get_node column_node;
      do col_name <- with_heap (fun h => name h cn);
      do key <- with_heap (fun h => (table, column_sql h cn));
      if visited_mem key visited then ret ([col_name], table, VNode column_node)
      else if Nat.leb max_depth depth then ret ([col_name], table, VNode column_node)
      else
        let visited := key :: visited in
        match assoc table cte_definitions with
        | None => ret ([col_name], table, VNode column_node)
        | Some info =>
            let continue (src_cols : list string) (src_table : string)
                         (current_transformation : argv) : M traced :=
              if String.eqb src_table table && Nat.ltb 0 depth
              then ret (src_cols, src_table, current_transformation)
              else
                do full_transformation <-
                  replace_columns fuel cte_definitions src_table visited
                    max_depth current_transformation depth;
                do acc <-
                  for_each
                    (fun src_col (acc : list string * list string) =>
                       do src_col_node <- new (column src_col src_table);
                       do r <- trace_column_lineage fuel cte_definitions
                                 src_col_node src_table visited
                                 (depth + 1) max_depth;
                       let '(traced_columns, traced_table, _) := r in
                       ret (set_update (fst acc) traced_columns,
                            set_add traced_table (snd acc)))
                    src_cols ([], []);
                ret (fst acc, join ", " (snd acc), full_transformation)
            in
            match assoc col_name info with
            | Some c => continue (source_columns c) (source_table c) (transformation c)
            | None =>
                match assoc "*" info with
                | Some s => continue [col_name] (source_table s) (VNode column_node)
                | None => ret ([col_name], table, VNode column_node)
                end
            end
        end
    ).
Proof. reflexivity. Qed.

(** The hypothesis on the nested traces, one level deeper. *)
Definition nested_traces_grow (fuel depth : nat) (v : visit_set) : Prop :=
  forall col cn t (h : heap),
    columns_only cd h -> h !! col = Some cn -> ncls cn = Column ->
    grows (trace_column_lineage fuel cd col t v (depth + 1) max_depth) h.

(** [replace_columns] on a column object: one nested trace. *)
Lemma replace_column_grows (fuel depth : nat) (st : string) (v : visit_set)
    (a : nat) (n : node) (h : heap) :
  nested_traces_grow fuel depth v ->
  columns_only cd h -> h !! a = Some n -> ncls n = Column ->
  grows (replace_columns (S fuel) cd st v max_depth (VNode a) depth) h.
Proof.
  intros T C L K. rewrite replace_columns_unfold.
  apply grows_bind; [apply grows_get_node |]. intros l x E.
  unfold get_node in E. injection E as E1 E2. rewrite L in E2. simpl in E2.
  subst x. assert (l = []) as -> by (eapply app_inv_head; rewrite app_nil_r; eauto).
  rewrite app_nil_r. clear E1. rewrite K. simpl.
  apply grows_bind; [apply grows_with_heap |]. intros l1 src_col E1.
  apply grows_bind; [apply grows_with_heap |]. intros l2 node_table E2.
  apply grows_bind; [apply grows_new |]. intros l3 c E3.
  apply new_result in E3 as [-> ->].
  apply grows_bind; [| intros; apply grows_ret].
  eapply T; [| apply lookup_new | reflexivity].
  repeat apply columns_only_extended. exact C.
Qed.

(** The part of [trace_column_lineage] after the lookups, on a stored
    transformation that is a column object. *)
Lemma continue_grows (fuel depth : nat) (t : string) (v : visit_set)
    (src_cols : list string) (st : string) (a : nat) (n : node) (h : heap) :
  nested_traces_grow fuel depth v ->
  nested_traces_grow (S fuel) depth v ->
  columns_only cd h -> h !! a = Some n -> ncls n = Column ->
  grows
    (if String.eqb st t && Nat.ltb 0 depth
     then ret (src_cols, st, VNode a)
     else
       bind (replace_columns (S fuel) cd st v max_depth (VNode a) depth)
         (fun full_transformation =>
       bind (for_each
               (fun src_col (acc : list string * list string) =>
                  bind (new (column src_col st)) (fun src_col_node =>
                  bind (trace_column_lineage (S fuel) cd src_col_node st v
                          (depth + 1) max_depth) (fun r =>
                  let '(traced_columns, traced_table, _) := r in
                  ret (set_update (fst acc) traced_columns,
                       set_add traced_table (snd acc)))))
               src_cols ([], []))
         (fun acc =>
       ret (fst acc, join ", " (snd acc), full_transformation))))
    h.
Proof.
  intros T1 T2 C L K.
  destruct (String.eqb st t && Nat.ltb 0 depth); [apply grows_ret |].
  apply grows_bind.
  - eapply replace_column_grows; eauto.
  - intros l full _. apply grows_bind; [| intros; apply grows_ret].
    apply source_loop_grows; [exact T2 |].
    apply columns_only_extended. exact C.
Qed.

(** On CTEs of plain columns, cyclic or not, [trace_column_lineage]
    returns: a stack of two calls for each level below the cap is enough. *)
Lemma trace_grows (r : nat) :
  forall fuel depth col cn t v (h : heap),
    max_depth <= depth + r -> 2 * r + 1 <= fuel ->
    columns_only cd h -> h !! col = Some cn -> ncls cn = Column ->
    grows (trace_column_lineage fuel cd col t v depth max_depth) h.
Proof.
  induction r as [| r IH]; intros fuel depth col cn t v h D F C L K.
  - destruct fuel as [| fuel]; [lia |].
    rewrite trace_column_lineage_unfold.
    apply (grows_bind_get_node _ _ _ cn L).
    do 2 apply grows_bind_with_heap.
    assert (Nat.leb max_depth depth = true) as -> by (apply Nat.leb_le; lia).
    destruct (visited_mem _ _); apply grows_ret.
  - destruct fuel as [| [| fuel]]; [lia | lia |].
    rewrite trace_column_lineage_unfold.
    apply (grows_bind_get_node _ _ _ cn L).
    do 2 apply grows_bind_with_heap.
    destruct (visited_mem _ _); [apply grows_ret |].
    destruct (Nat.leb max_depth depth) eqn:Hd; [apply grows_ret |].
    destruct (assoc t cd) as [info |] eqn:Ht; [| apply grows_ret].
    cbv zeta.
    assert (forall v', nested_traces_grow fuel depth v') as T1.
    { intros v' c' cn' t' h' C' L' K'. eapply IH; eauto; lia. }
    assert (forall v', nested_traces_grow (S fuel) depth v') as T2.
    { intros v' c' cn' t' h' C' L' K'. eapply IH; eauto; lia. }
    destruct (assoc (name h cn) info) as [rec |] eqn:Hc.
    + destruct (C t info _ rec Ht Hc) as (a & n & -> & La & Ka).
      eapply continue_grows; eauto.
    + destruct (assoc "*" info) as [s |]; [| apply grows_ret].
      eapply continue_grows; eauto.
Qed.

End Columns.

(** With the cap of 10 and an empty visit-set, as every caller starts it. *)
Corollary trace_column_lineage_returns (cd : cte_defs) (col : nat) (cn : node)
    (t : string) (h : heap) (fuel : nat) :
  columns_only cd h -> h !! col = Some cn -> ncls cn = Column ->
  21 <= fuel ->
  exists l res, trace_column_lineage fuel cd col t [] 0 10 h = (h ++ l, inr res).
Proof.
  intros C L K F. apply (trace_grows cd 10 10 fuel 0 col cn t [] h); auto; lia.
Qed.

(** The two CTEs that refer to each other: the trace of [X] stops at once in
    [C2], which has no column [X]. *)
Example cyclic_ctes_traced :
  for_each (fun c st => process_cte 50 c st) [4; 9] ([], []) Examples.cyclic_query
  = (Examples.cyclic_query,
     inr ([("C1", "C1"); ("C2", "C2")], Examples.cyclic_defs))
  /\ snd (extract_source_columns_and_transformation 50 (VNode 11)
            [("C1", "C1"); ("C2", "C2")] Examples.cyclic_defs (Some "C1")
            Examples.cyclic_query)
     = inr (["X"], VNode 15, "C2").
Proof. split; vm_compute; reflexivity. Qed.

End Termination.

(** * Rows of plain column projections *)

Module PlainColumns.
Import Ast Tracer Regex RegexFacts TracerFacts.

Lemma search_at_start (r : re) (s rest : string) (g : groups) :
  match_at r s = Some (rest, g) -> search r s = Some (consumed s rest, g).
Proof. intros H. destruct s; simpl; rewrite H; reflexivity. Qed.

Section SourceInfoPattern.

Let word : re := Many1 is_word.
Let dot : re := Chr "."%char.
Let quote : re := Opt (Chr dquote).
Let tail4 : re := Seq quote (Seq dot (Group 3 word)).
Let tail3 : re := Seq (Group 2 word) tail4.
Let tail2 : re := Seq (Opt (Group 1 (Seq word dot))) tail3.

Context {R : Type}.
Implicit Types (k : string -> groups -> option R) (g : groups).

(** A dot is asked for, and a word character or the end is there. *)
Lemma dot_fails_on_word (u : string) g k :
  all is_word u = true -> matches dot u g k = None.
Proof.
  intros W. apply matches_chr_miss. destruct u as [| c u]; [exact I |].
  simpl in W. apply andb_true_iff in W as [Wc _]. apply word_not_dot. exact Wc.
Qed.

Lemma quote_skipped_on_word (u : string) g k :
  all is_word u = true -> matches quote u g k = k u g.
Proof.
  intros W. apply matches_opt_skip. apply matches_chr_miss.
  destruct u as [| c u]; [exact I |].
  simpl in W. apply andb_true_iff in W as [Wc _]. apply word_not_dquote. exact Wc.
Qed.

Lemma tail4_fails_on_word (u : string) g k :
  all is_word u = true -> matches tail4 u g k = None.
Proof.
  intros W. unfold tail4. rewrite matches_seq, quote_skipped_on_word by exact W.
  rewrite matches_seq. apply dot_fails_on_word. exact W.
Qed.

Lemma tail3_fails_on_word (u : string) g k :
  all is_word u = true -> matches tail3 u g k = None.
Proof.
  intros W. unfold tail3. rewrite matches_seq, matches_group.
  rewrite <- (append_nil_r u).
  apply many1_run_none; [exact W | reflexivity |].
  intros w2 W2. rewrite append_nil_r. apply tail4_fails_on_word. exact W2.
Qed.

(** A group [\w+\.] on a word: no dot to be found. *)
Lemma word_dot_fails_on_word i (u : string) g k :
  all is_word u = true -> matches (Group i (Seq word dot)) u g k = None.
Proof.
  intros W. rewrite matches_group, matches_seq.
  rewrite <- (append_nil_r u).
  apply many1_run_none; [exact W | reflexivity |].
  intros w2 W2. rewrite append_nil_r. apply dot_fails_on_word. exact W2.
Qed.

Lemma tail2_fails_on_word (u : string) g k :
  all is_word u = true -> matches tail2 u g k = None.
Proof.
  intros W. unfold tail2. rewrite matches_seq.
  rewrite matches_opt_skip by (apply word_dot_fails_on_word; exact W).
  apply tail3_fails_on_word. exact W.
Qed.

(** A group [\w+\.] on [t.c] can only take [t.], and what follows must then
    match the word [c]. *)
Lemma word_dot_on_qualified i (t c : string) g k :
  all is_word t = true ->
  (forall g', k c g' = None) ->
  matches (Group i (Seq word dot)) (String.append t (String "." c)) g k = None.
Proof.
  intros Wt K. rewrite matches_group, matches_seq.
  apply many1_run_none; [exact Wt | reflexivity |].
  intros w2 W2. destruct w2 as [| d w2].
  - cbv beta. cbn [String.append]. unfold dot. rewrite matches_chr_hit. apply K.
  - cbv beta. apply matches_chr_miss. cbn [String.append].
    simpl in W2. apply andb_true_iff in W2 as [Wd _].
    apply word_not_dot. exact Wd.
Qed.

End SourceInfoPattern.

(** The pattern on [TABLE.COLUMN], both made of word characters: the first
    two groups take no part, the others are the table and the column. *)
Lemma source_info_of_qualified_column (t c : string) :
  all is_word t = true -> all is_word c = true -> t <> "" -> c <> "" ->
  extract_source_info_from_transformation
    (String.append t (String.append "." c))
  = SourceInfo None None (Some t) (Some c).
Proof.
  intros Wt Wc Nt Nc.
  unfold extract_source_info_from_transformation.
  assert (match_at source_info_pattern (String.append t (String.append "." c))
          = Some ("", [None; None; Some t; Some c])) as M.
  { unfold match_at, source_info_pattern.
    assert (match String.append t (String "." c) with
            | EmptyString => True
            | String c' _ => Ascii.eqb dquote c' = false
            end) as Hq.
    { destruct t as [| d t]; [congruence |]. simpl.
      simpl in Wt. apply andb_true_iff in Wt as [Wd _].
      apply word_not_dquote. exact Wd. }
    rewrite matches_seq.
    rewrite matches_opt_skip by (apply matches_chr_miss; exact Hq).
    rewrite matches_seq.
    rewrite matches_opt_skip.
    2:{ apply word_dot_on_qualified; [exact Wt |].
        intros g'. apply tail2_fails_on_word. exact Wc. }
    rewrite matches_seq.
    rewrite matches_opt_skip.
    2:{ apply word_dot_on_qualified; [exact Wt |].
        intros g'. apply tail3_fails_on_word. exact Wc. }
    rewrite matches_seq, matches_group.
    apply many1_run_first; [exact Nt | exact Wt | reflexivity |].
    change (String.append "." c) with (String "."%char c).
    rewrite matches_seq.
    rewrite matches_opt_skip by (apply matches_chr_miss; reflexivity).
    rewrite matches_seq, matches_chr_hit, matches_group.
    rewrite <- (append_nil_r c) at 1.
    apply many1_run_first; [exact Nc | exact Wc | reflexivity |].
    rewrite consumed_all, consumed_append. reflexivity. }
  rewrite (search_at_start _ _ _ _ M). reflexivity.
Qed.

Lemma lookup_set_eq (h : heap) (e : nat) (n : node) (key : string) (v : argv) :
  h !! e = Some n ->
  Ast.set e key v h !! e = Some (Node (ncls n) (dict_set key v (nargs n))).
Proof.
  intros E. unfold Ast.set. rewrite E.
  apply list_lookup_insert_eq. eapply lookup_lt_Some. exact E.
Qed.

Lemma join_dot_two (t c : string) :
  t <> "" -> c <> "" ->
  join "." (List.filter (fun s => negb (String.eqb s "")) [""; ""; t; c])
  = String.append t (String.append "." c).
Proof.
  intros Nt Nc. simpl.
  destruct (String.eqb t "") eqn:Et; [apply String.eqb_eq in Et; congruence |].
  destruct (String.eqb c "") eqn:Ec; [apply String.eqb_eq in Ec; congruence |].
  reflexivity.
Qed.

(** An unqualified column [c] of a SELECT over the table [t], with no CTE
    around: one row, whose final column and source column are [c] and whose
    source table is [t]. *)
Lemma plain_column_row (generate : heap -> nat -> exn + string)
    (fuel e : nat) (c t : string) (am : alias_map) (h : heap) :
  h !! e = Some (Node Column [("this", VStr c)]) ->
  all is_word c = true -> all is_word t = true -> c <> "" -> t <> "" ->
  process_projection generate (S (S fuel)) (VNode e) am [] t h
  = (Ast.set e "table" (VStr t) h,
     inr [Row c "Unknown" "Unknown" t c
              (String.append t (String.append "." c))]).
Proof.
  intros E Wc Wt Nc Nt.
  set (h' := Ast.set e "table" (VStr t) h).
  assert (h' !! e = Some (Node Column [("this", VStr c); ("table", VStr t)]))
    as E'.
  { unfold h'. rewrite (lookup_set_eq h e _ "table" (VStr t) E). reflexivity. }
  assert (trace_column generate (S (S fuel)) e am [] t h
          = (h', inr (Row c "Unknown" "Unknown" t c
                          (String.append t (String.append "." c))))) as T.
  { unfold trace_column, bind at 1.
    assert (extract_source_columns_and_transformation (S (S fuel)) (VNode e)
              am [] (Some t) h
            = (h', inr ([c], VNode e,
                        match assoc t am with Some r => r | None => t end)))
      as ->.
    { simpl. unfold bind, get_node, with_heap, set_arg. rewrite E. simpl.
      fold h'. pose proof E' as E''. simpl in E''. rewrite E''. simpl.
      reflexivity. }
    pose proof E' as E''. simpl in E''.
    pose proof (source_info_of_qualified_column t c Wt Wc Nt Nc) as SI.
    assert ((t =? "")%string = false) as Et
      by (apply String.eqb_neq; exact Nt).
    assert ((c =? "")%string = false) as Ec
      by (apply String.eqb_neq; exact Nc).
    unfold bind, transformation_sql, get_node, with_heap, ret.
    rewrite E'. simpl.
    unfold column_sql, catalog, db, table, name, text, arg. simpl.
    rewrite E''. simpl. rewrite Et, Ec. simpl.
    change (String.append t (String "." c))
      with (String.append t (String.append "." c)).
    rewrite SI. simpl. unfold or_else. rewrite Et, Ec. reflexivity. }
  unfold process_projection, bind at 1, get_node. rewrite E. simpl.
  unfold bind at 1. rewrite (try_except_returned _ _ _ _ _ T). reflexivity.
Qed.

End PlainColumns.

(** * Queries without a WITH clause *)

Module NoWithClause.
Import Ast Tracer Regex Examples.

(** The claim of C6 fails on [SELECT ID, NAME FROM T]: the expander does not
    hand the SQL back, it raises, and [main] stores nothing for the
    tracer to read. *)
Lemma no_with_clause_raises :
  Expander.generate_expanded_sql no_with raw_upper
  = inl (ValueError "No WITH clause found in the SQL.")
  /\ Expander.generate_expanded_sql no_with raw_upper <> inr no_with
  /\ Expander.expanded
       (Expander.main [Expander.Record_ "DB.SCH.T.ID" no_with raw_upper]) = [].
Proof. split; [reflexivity |]. split; [discriminate | reflexivity]. Qed.

(** C6, amended. On a statement without a WITH clause
    [generate_expanded_sql] raises [ValueError]; [main] records the failure
    and stores no expanded SQL, so the statement does not reach the tracer.
    The tracer's loop, run on a SELECT over a table [t] with no CTE, emits
    for an unqualified column projection [c] (both names made of word
    characters) one row whose final column and source columns are [c] and
    whose source table is [t]. *)
Theorem no_with_clause_query
    (generate : heap -> nat -> exn + string) (fuel e : nat) (c t : string)
    (am : alias_map) (h : heap)
    (stmt : Expander.statement) (schema : Expander.reference_map)
    (key : string) :
  h !! e = Some (Node Column [("this", VStr c)]) ->
  all is_word c = true -> all is_word t = true -> c <> "" -> t <> "" ->
  Expander.generate_expanded_sql (Expander.Query None stmt) schema
  = inl (ValueError "No WITH clause found in the SQL.")
  /\ Expander.main [Expander.Record_ key (Expander.Query None stmt) schema]
     = [Expander.Failed key (ValueError "No WITH clause found in the SQL.")]
  /\ Expander.expanded
       (Expander.main [Expander.Record_ key (Expander.Query None stmt) schema])
     = []
  /\ process_projection generate (S (S fuel)) (VNode e) am [] t h
     = (Ast.set e "table" (VStr t) h,
        inr [Row c "Unknown" "Unknown" t c
                 (String.append t (String.append "." c))]).
Proof.
  intros E Wc Wt Nc Nt.
  split; [reflexivity |]. split; [reflexivity |]. split; [reflexivity |].
  apply PlainColumns.plain_column_row; assumption.
Qed.

Lemma no_with_clause_query_witness :
  Expander.generate_expanded_sql no_with raw_upper
  = inl (ValueError "No WITH clause found in the SQL.")
  /\ Expander.main [Expander.Record_ "DB.SCH.T.ID" no_with raw_upper]
     = [Expander.Failed "DB.SCH.T.ID"
          (ValueError "No WITH clause found in the SQL.")]
  /\ Expander.expanded
       (Expander.main [Expander.Record_ "DB.SCH.T.ID" no_with raw_upper]) = []
  /\ process_projection opaque_generate 2 (VNode 0) [("T", "T")] [] "T"
       plain_query
     = (Ast.set 0 "table" (VStr "T") plain_query,
        inr [Row "ID" "Unknown" "Unknown" "T" "ID" "T.ID"]).
Proof.
  apply (no_with_clause_query opaque_generate 0 0 "ID" "T" [("T", "T")]
           plain_query (Expander.body no_with) raw_upper "DB.SCH.T.ID");
    solve [reflexivity | discriminate].
Defined.

(** The whole of [SELECT ID, NAME FROM T]. *)
Example plain_query_rows :
  snd (process_with_and_select opaque_generate 10 plain_root plain_query)
  = inr [Row "ID" "Unknown" "Unknown" "T" "ID" "T.ID";
         Row "NAME" "Unknown" "Unknown" "T" "NAME" "T.NAME"].
Proof. vm_compute. reflexivity. Qed.

End NoWithClause.

(** * Properties of the star expander *)

Module ExpanderFacts.
Import Expander.

(** ** Python dictionaries as ordered association lists *)

Lemma assoc_dict_set_eq {A : Type} (k : string) (v : A) (d : list (string * A)) :
  Ast.assoc k (Ast.dict_set k v d) = Some v.
Proof.
  induction d as [| [k' v'] d IH]; simpl.
  - rewrite String.eqb_refl. reflexivity.
  - destruct (String.eqb k k') eqn:E; simpl.
    + rewrite String.eqb_refl. reflexivity.
    + rewrite E. exact IH.
Qed.



Lemma keys_dict_set_new {A : Type} (k : string) (v : A) (d : list (string * A)) :
  ~ In k (Ast.keys d) -> Ast.keys (Ast.dict_set k v d) = Ast.keys d ++ [k].
Proof.
  induction d as [| [k' v'] d IH]; simpl; intros N.
  - reflexivity.
  - destruct (String.eqb k k') eqn:E.
    + apply String.eqb_eq in E. subst. tauto.
    + simpl. f_equal. apply IH. tauto.
Qed.

Lemma keys_dict_set_old {A : Type} (k : string) (v : A) (d : list (string * A)) :
  In k (Ast.keys d) -> Ast.keys (Ast.dict_set k v d) = Ast.keys d.
Proof.
  induction d as [| [k' v'] d IH]; simpl; intros N.
  - tauto.
  - destruct (String.eqb k k') eqn:E.
    + apply String.eqb_eq in E. subst. reflexivity.
    + apply String.eqb_neq in E. simpl. f_equal. apply IH.
      destruct N; congruence.
Qed.

(** ** The loop over the CTEs *)



(** ** The outermost SELECT *)









(** ** Failures inside the loop over the CTEs *)

Lemma expand_ctes_app schema pre rest init :
  expand_ctes schema (pre ++ rest) init
  = match expand_ctes schema pre init with
    | inl e => inl e
    | inr (pre', scope) =>
        match expand_ctes schema rest scope with
        | inl e => inl e
        | inr (rest', scope') => inr (pre' ++ rest', scope')
        end
    end.
Proof.
  revert init. induction pre as [| c pre IH]; intros init; simpl.
  - destruct (expand_ctes schema rest init) as [e | [r s]]; reflexivity.
  - destruct (expand_cte schema c init) as [e | [c1 sc1]]; [reflexivity |].
    rewrite IH.
    destruct (expand_ctes schema pre sc1) as [e | [p1 sc2]]; [reflexivity |].
    destruct (expand_ctes schema rest sc2) as [e | [r s]]; reflexivity.
Qed.

Lemma main_app (before after : list record) :
  main (before ++ after) = main before ++ main after.
Proof. apply map_app. Qed.

Lemma expanded_app (o1 o2 : list outcome) :
  expanded (o1 ++ o2) = expanded o1 ++ expanded o2.
Proof. apply flat_map_app. Qed.

(** The claim of C7 fails on [unknown_source]: the unknown FROM target of
    the second CTE gives up the whole query, nothing is stored for the
    tracer, and so no row, placeholder or other, comes out for any of its
    projections.  A join beside the FROM table is no failure at all. *)
Lemma unknown_source_gives_up_query :
  generate_expanded_sql Examples.unknown_source Examples.raw_upper
  = inl (ValueError
           "Source 'MISSING' not found in schema or previously defined CTEs.")
  /\ expanded (main [Record_ "k" Examples.unknown_source Examples.raw_upper]) = []
  /\ generate_expanded_sql Examples.joined_source Examples.raw_upper
     = inr (Query (Some [Cte "A" (Select [Column "NAME" ""; Column "QTY" ""]
                                    (Some (Some (TableName "DB" "SCH" "RAW")))
                                    [TableName "DB" "SCH" "OTHER"])])
              (SelectStmt (Select [Column "NAME" ""; Column "QTY" ""]
                             (Some (Some (TableName "" "" "A"))) []))).
Proof. repeat split; vm_compute; reflexivity. Qed.

(** C7, amended. A CTE whose FROM target is in neither the reference map
    nor the scope of the CTEs before it, or whose FROM clause holds no
    table, makes [generate_expanded_sql] raise for the whole query, whatever
    comes after that CTE; [main] records the failure for that record alone,
    stores no expanded SQL for it, and treats the records around it as
    before. *)
Theorem unresolved_cte_source_gives_up_query
    (schema : reference_map) (pre post pre' : list cte) (c : cte)
    (scope : cte_scope) (stmt : statement) :
  expand_ctes schema pre [] = inr (pre', scope) ->
  (from (cte_this c) = Some None
   \/ exists t, from (cte_this c) = Some (Some t)
        /\ Ast.assoc (get_fully_qualified_name t) schema = None
        /\ Ast.assoc (get_fully_qualified_name t) scope = None) ->
  exists e,
    generate_expanded_sql (Query (Some (pre ++ c :: post)) stmt) schema = inl e
    /\ ((exists msg, e = ValueError msg) \/ (exists msg, e = NotImplementedError msg))
    /\ forall key before after,
         main (before
               ++ Record_ key (Query (Some (pre ++ c :: post)) stmt) schema
               :: after)
         = main before ++ Failed key e :: main after
         /\ expanded (main (before
                            ++ Record_ key (Query (Some (pre ++ c :: post)) stmt)
                                 schema
                            :: after))
            = expanded (main before) ++ expanded (main after).
Proof.
  intros Hpre Hc.
  assert (exists e, expand_cte schema c scope = inl e
                    /\ ((exists msg, e = ValueError msg)
                        \/ (exists msg, e = NotImplementedError msg)))
    as (e & He & Hkind).
  { unfold expand_cte. destruct Hc as [-> | (t & -> & H1 & H2)].
    - eexists. split; [reflexivity |]. right. eauto.
    - rewrite H1, H2. eexists. split; [reflexivity |]. left. eauto. }
  assert (generate_expanded_sql (Query (Some (pre ++ c :: post)) stmt) schema
          = inl e) as Hgen.
  { unfold generate_expanded_sql, expand. simpl.
    rewrite expand_ctes_app, Hpre. simpl. rewrite He. reflexivity. }
  exists e. split; [exact Hgen |]. split; [exact Hkind |].
  intros key before after.
  assert (main (before
                ++ Record_ key (Query (Some (pre ++ c :: post)) stmt) schema
                :: after)
          = main before ++ Failed key e :: main after) as Hmain.
  { rewrite main_app. simpl. unfold process_record at 1. simpl.
    rewrite Hgen. reflexivity. }
  split; [exact Hmain |].
  rewrite Hmain, expanded_app. simpl. reflexivity.
Qed.

Lemma unresolved_cte_source_gives_up_query_witness :
  exists e,
    generate_expanded_sql Examples.unknown_source Examples.raw_upper = inl e
    /\ ((exists msg, e = ValueError msg) \/ (exists msg, e = NotImplementedError msg))
    /\ forall key before after,
         main (before ++ Record_ key Examples.unknown_source Examples.raw_upper
               :: after)
         = main before ++ Failed key e :: main after
         /\ expanded (main (before
                            ++ Record_ key Examples.unknown_source
                                 Examples.raw_upper
                            :: after))
            = expanded (main before) ++ expanded (main after).
Proof.
  apply (unresolved_cte_source_gives_up_query Examples.raw_upper
           [Cte "A" (Examples.star_from "DB" "SCH" "RAW")]
           []
           [Cte "A" (Select [Identifier "NAME"; Identifier "QTY"]
                       (Some (Some (TableName "DB" "SCH" "RAW"))) [])]
           (Cte "B" (Examples.star_from "" "" "MISSING"))
           [("A", ["NAME"; "QTY"])]
           (SelectStmt (Examples.star_from "" "" "A"))).
  - reflexivity.
  - right. eexists. repeat split; reflexivity.
Defined.

End ExpanderFacts.

(** * Re-expanding an expanded query *)

Module Idempotence.
Import Expander ExpanderFacts.

Lemma upper_ascii_idem (c : ascii) : upper_ascii (upper_ascii c) = upper_ascii c.
Proof.
  unfold upper_ascii.
  destruct (Nat.leb 97 (nat_of_ascii c) && Nat.leb (nat_of_ascii c) 122) eqn:E;
    [| rewrite E; reflexivity].
  apply andb_true_iff in E as [L H].
  apply Nat.leb_le in L. apply Nat.leb_le in H.
  rewrite nat_ascii_embedding by lia.
  replace (Nat.leb 97 (nat_of_ascii c - 32)) with false; [reflexivity |].
  symmetry. apply Nat.leb_gt. lia.
Qed.

Lemma upper_idem (s : string) : upper (upper s) = upper s.
Proof.
  induction s as [| c s IH]; simpl; [reflexivity |].
  rewrite upper_ascii_idem, IH. reflexivity.
Qed.

Lemma upper_empty (s : string) : upper s = "" <-> s = "".
Proof. destruct s; simpl; split; intros H; congruence. Qed.


Lemma reparse_projection_idem (p : projection) :
  reparse_projection (reparse_projection p) = reparse_projection p.
Proof. destruct p; simpl; rewrite ?upper_idem; reflexivity. Qed.

Lemma reparse_table_idem (t : table_name) :
  reparse_table (reparse_table t) = reparse_table t.
Proof. destruct t; unfold reparse_table; simpl. rewrite !upper_idem. reflexivity. Qed.

Lemma reparse_select_idem (s : select) :
  reparse_select (reparse_select s) = reparse_select s.
Proof.
  destruct s as [ps f js]. unfold reparse_select. simpl. f_equal.
  - rewrite map_map. apply map_ext. apply reparse_projection_idem.
  - destruct f as [[t |] |]; simpl; rewrite ?reparse_table_idem; reflexivity.
  - rewrite map_map. apply map_ext. apply reparse_table_idem.
Qed.

Lemma reparse_statement_idem (e : statement) :
  reparse_statement (reparse_statement e) = reparse_statement e.
Proof.
  induction e as [s | l IHl r IHr]; simpl.
  - rewrite reparse_select_idem. reflexivity.
  - rewrite IHl, IHr. reflexivity.
Qed.

Lemma reparse_cte_idem (c : cte) : reparse_cte (reparse_cte c) = reparse_cte c.
Proof.
  destruct c as [a s]. unfold reparse_cte. simpl.
  rewrite upper_idem, reparse_select_idem. reflexivity.
Qed.

Lemma reparse_idem (q : query) : reparse (reparse q) = reparse q.
Proof.
  destruct q as [[ctes |] b]; unfold reparse; simpl;
    rewrite reparse_statement_idem; [| reflexivity].
  rewrite map_map. f_equal. f_equal. apply map_ext. apply reparse_cte_idem.
Qed.

(** The name recorded for a projection of the returned text is the name
    recorded before, in upper case. *)
Lemma output_name_reparse (p : projection) :
  output_name (reparse_projection p) = upper (output_name p).
Proof.
  destruct p as [| n t | a s | n | a s]; simpl; try reflexivity.
  destruct (String.eqb a "") eqn:E.
  - apply String.eqb_eq in E. subst a. reflexivity.
  - destruct (String.eqb (upper a) "") eqn:E'; [| reflexivity].
    apply String.eqb_eq in E'. apply (proj1 (upper_empty a)) in E'.
    subst a. discriminate.
Qed.



















Import Examples.




End Idempotence.

(** ** The resolver where there is nothing to resolve *)

Module ResolverEdges.
Import Regex Resolver.

Section Rest.
Context {R : Type}.

(** The continuation of a match runs on a suffix of the text. *)
Lemma many_rest (p : ascii -> bool) (s : string) (k : string -> option R)
    (x : R) :
  many p s k = Some x ->
  exists rest, k rest = Some x /\ String.length rest <= String.length s.
Proof.
  induction s as [| c s IH]; simpl.
  - intros H. exists "". split; [exact H | simpl; lia].
  - assert (k (String c s) = Some x ->
            exists rest, k rest = Some x
                         /\ String.length rest <= S (String.length s)) as Here.
    { intros H. exists (String c s). split; [exact H | simpl; lia]. }
    destruct (p c); [| exact Here].
    destruct (many p s k) as [y |] eqn:E; [| exact Here].
    intros H. injection H as ->.
    destruct (IH eq_refl) as (rest & Hk & L).
    exists rest. split; [exact Hk | lia].
Qed.

Lemma matches_rest (r : re) :
  forall s g (k : string -> groups -> option R) x,
    matches r s g k = Some x ->
    exists rest g', k rest g' = Some x
                    /\ String.length rest <= String.length s.
Proof.
  induction r as [| c | p | p | r IH | r1 IH1 r2 IH2 | i r IH];
    intros s g k x H; simpl in H.
  - exists s, g. split; [exact H | lia].
  - destruct s as [| c' s]; [discriminate |].
    destruct (Ascii.eqb c c'); [| discriminate].
    exists s, g. split; [exact H | simpl; lia].
  - apply many_rest in H as (rest & H & L). exists rest, g. tauto.
  - destruct s as [| c' s]; [discriminate |].
    destruct (p c'); [| discriminate].
    apply many_rest in H as (rest & H & L).
    exists rest, g. split; [exact H | simpl; lia].
  - destruct (matches r s g k) as [y |] eqn:E.
    + injection H as ->. exact (IH _ _ _ _ E).
    + exists s, g. split; [exact H | lia].
  - apply IH1 in H as (rest1 & g1 & H & L1).
    apply IH2 in H as (rest & g' & H & L2).
    exists rest, g'. split; [exact H | lia].
  - apply IH in H as (rest & g' & H & L).
    exists rest, (set_group i (consumed s rest) g'). tauto.
Qed.
End Rest.

(** A pattern that opens with a literal character matches no empty text. *)
Lemma match_at_consumes (c : ascii) (r : re) (s rest : string) (g : groups) :
  match_at (Seq (Chr c) r) s = Some (rest, g) ->
  String.length rest < String.length s.
Proof.
  unfold match_at. simpl. destruct s as [| c' s]; [discriminate |].
  destruct (Ascii.eqb c c'); [| discriminate].
  intros H. apply matches_rest in H as (rest' & g' & H & L).
  injection H as -> ->. simpl. lia.
Qed.

Lemma take_length_take (n : nat) (s : string) :
  take (String.length (take n s)) s = take n s.
Proof.
  revert s. induction n as [| n IH]; intros [| c s]; simpl; try reflexivity.
  now rewrite IH.
Qed.

(** [re.sub] with a replacement that gives back the matched text. *)
Lemma sub_go_same (r : re) (repl : string -> groups -> string) :
  (forall m g, repl m g = m) ->
  (forall s rest g, match_at r s = Some (rest, g) ->
                    String.length rest < String.length s) ->
  forall s skip, String.append (take skip s) (sub_go r repl s skip) = s.
Proof.
  intros Hrepl Hlen. induction s as [| c s IH]; intros skip.
  - destruct skip; simpl; [| reflexivity].
    destruct (match_at r "") as [[rest g] |] eqn:E; [| reflexivity].
    apply Hlen in E. simpl in E. lia.
  - destruct skip as [| k]; [| simpl; now rewrite IH].
    cbn [take String.append sub_go].
    destruct (match_at r (String c s)) as [[rest g] |] eqn:E.
    + apply Hlen in E. rewrite Hrepl. unfold consumed.
      remember (String.length (String c s) - String.length rest) as n eqn:En.
      destruct n as [| n]; [lia |].
      cbn [take String.length String.append]. f_equal.
      rewrite Nat.sub_succ, Nat.sub_0_r.
      rewrite <- (take_length_take n s) at 1. apply IH.
    + f_equal. exact (IH 0).
Qed.

Lemma sub_same (c : ascii) (r : re) (repl : string -> groups -> string)
    (s : string) :
  (forall m g, repl m g = m) -> sub (Seq (Chr c) r) repl s = s.
Proof.
  intros Hrepl.
  exact (sub_go_same (Seq (Chr c) r) repl Hrepl
           (fun s' rest g => match_at_consumes c r s' rest g) s 0).
Qed.

(** X1.  With an empty reference object the resolver returns every SQL text
    as it is: each placeholder is put back by [match.group(0)], and the
    text between the placeholders is copied. *)
Theorem empty_reference_keeps_sql (sql : string) :
  replace_refs_and_sources_in_sql sql (Some []) = sql.
Proof.
  unfold replace_refs_and_sources_in_sql, replace_sources, replace_refs.
  assert (sub ref_pattern (ref_replacer []) sql = sql) as ->.
  { apply (sub_same "{"%char). intros m g. reflexivity. }
  apply (sub_same "{"%char). intros m g. reflexivity.
Qed.

(** X2.  [source()] resolves only to a key of the reference that has
    exactly three dot-separated parts, the last being the table name: a
    key with more or fewer parts is never the replacement. *)
Theorem source_resolves_to_three_part_key (table_name full_name : string)
    (rd : reference_data) :
  find_source table_name rd = Some full_name ->
  List.In full_name (Ast.keys rd)
  /\ exists src_database src_schema,
       Ast.split "." full_name = [src_database; src_schema; table_name].
Proof.
  induction rd as [| [k cols] rd IH]; simpl; [discriminate |].
  intros H.
  assert (find_source table_name rd = Some full_name ->
          (k = full_name \/ List.In full_name (Ast.keys rd))
          /\ exists d s, Ast.split "." full_name = [d; s; table_name]) as Later.
  { intros H'. destruct (IH H') as [I S3]. split; [right; exact I | exact S3]. }
  destruct (Ast.split "." k) as [| d [| s [| t [| x l]]]] eqn:E;
    try exact (Later H).
  destruct (String.eqb t table_name) eqn:Et; [| exact (Later H)].
  injection H as <-. apply String.eqb_eq in Et. subst t.
  split; [left; reflexivity | exists d, s; exact E].
Qed.

Lemma source_resolves_to_three_part_key_witness :
  List.In "db.raw.items" (Ast.keys Examples.shop_reference)
  /\ exists src_database src_schema,
       Ast.split "." "db.raw.items" = [src_database; src_schema; "items"].
Proof.
  apply (source_resolves_to_three_part_key "items" "db.raw.items"
           Examples.shop_reference).
  reflexivity.
Defined.

(** *** Placeholders with double quotes *)

Lemma space_not_letter (c x : ascii) :
  is_space c = true -> is_space x = false -> Ascii.eqb x c = false.
Proof. intros Hc Hx. exact (RegexFacts.space_is_not x c Hx Hc). Qed.

(** After the opening braces and the white space, the text [ref(<dq>...]
    is not what the pattern goes on with. *)
Lemma opening_fails (w : string) (r : re) (ws1 rest : string) g
    (k : string -> groups -> option (string * groups)) :
  all is_space ws1 = true ->
  (forall g', matches (lit w r) (String.append "ref(" (String dquote rest)) g' k
              = None) ->
  (match w with
   | EmptyString => False
   | String x _ => is_space x = false
   end) ->
  matches (Seq (Many is_space) (lit w r))
    (String.append ws1 (String.append "ref(" (String dquote rest))) g k
  = None.
Proof.
  intros W1 Hlit Hw. rewrite RegexFacts.matches_seq.
  apply RegexFacts.many_run_fails; [exact W1 | reflexivity |].
  intros w2 W2. destruct w2 as [| c w2]; [apply Hlit |].
  destruct w as [| x w]; [contradiction |].
  cbn [lit String.append]. rewrite RegexFacts.matches_seq.
  apply RegexFacts.matches_chr_miss.
  simpl in W2. apply andb_prop in W2 as [Wc _].
  now apply space_not_letter.
Qed.

Lemma double_quoted_token_brace_free (ws1 name ws2 : string) :
  all is_space ws1 = true -> all is_space ws2 = true ->
  all not_brace name = true ->
  all not_brace
    (String.append ws1 (String.append "ref("
       (String dquote (String.append name
          (String dquote (String.append ")" (String.append ws2 "}}")))))))
  = true.
Proof.
  intros W1 W2 Bn.
  rewrite RegexFacts.all_append, (RegexFacts.spaces_no_brace ws1 W1).
  cbn [String.append all andb].
  assert (forall c, Ascii.eqb c "{"%char = false -> not_brace c = true) as Nb.
  { intros c E. unfold not_brace. now rewrite E. }
  rewrite !Nb by reflexivity. cbn [andb].
  rewrite RegexFacts.all_append, Bn. cbn [String.append all andb].
  rewrite !Nb by reflexivity. cbn [andb].
  rewrite RegexFacts.all_append, (RegexFacts.spaces_no_brace ws2 W2).
  reflexivity.
Qed.

(** A pattern that opens with the braces, white space and a word other
    than [ref(<dq>] passes over the double-quoted placeholder. *)
Lemma double_quoted_token_passed (r : re) (w : string) (r' : re)
    (repl : string -> groups -> string) (ws1 name ws2 post : string) :
  r = lit "{{" (Seq (Many is_space) (lit w r')) ->
  (forall rest g' (k : string -> groups -> option (string * groups)),
      matches (lit w r') (String.append "ref(" (String dquote rest)) g' k
      = None) ->
  (match w with
   | EmptyString => False
   | String x _ => is_space x = false
   end) ->
  all is_space ws1 = true -> all is_space ws2 = true ->
  all not_brace name = true ->
  sub r repl
    (String.append (Samples.ref_token_double_quoted ws1 name ws2) post)
  = String.append (Samples.ref_token_double_quoted ws1 name ws2)
      (sub r repl post).
Proof.
  intros -> Hlit Hw W1 W2 Bn. unfold Samples.ref_token_double_quoted.
  cbn [String.append].
  rewrite ResolverFacts.sub_no_match.
  2:{ unfold match_at. cbn [lit]. rewrite !RegexFacts.matches_seq.
      rewrite !RegexFacts.matches_chr_hit.
      rewrite !RegexFacts.append_assoc. cbn [String.append].
      now apply opening_fails. }
  f_equal.
  rewrite ResolverFacts.sub_no_match.
  2:{ unfold match_at. cbn [lit]. rewrite !RegexFacts.matches_seq.
      rewrite RegexFacts.matches_chr_hit. rewrite RegexFacts.matches_seq.
      apply RegexFacts.matches_chr_miss.
      destruct ws1 as [| c ws1]; [reflexivity |]. cbn [String.append].
      simpl in W1. apply andb_prop in W1 as [Wc _].
      now apply space_not_letter. }
  f_equal.
  apply ResolverFacts.sub_brace_free.
  - intros c s' Hc. unfold match_at. cbn [lit].
    rewrite RegexFacts.matches_seq. apply RegexFacts.matches_chr_miss.
    unfold not_brace in Hc. rewrite Ascii.eqb_sym.
    now destruct (Ascii.eqb c "{"%char).
  - now apply double_quoted_token_brace_free.
Qed.

(** X21.  A placeholder written with double quotes,
    [{{ ref(<dq>name<dq>) }}], is never resolved: both passes copy it as
    it is, also when the reference has a key for [name]. *)
Theorem double_quoted_ref_not_resolved (rd : reference_data)
    (ws1 name ws2 post : string) :
  all is_space ws1 = true -> all is_space ws2 = true ->
  all not_brace name = true ->
  replace_refs_and_sources_in_sql
    (String.append (Samples.ref_token_double_quoted ws1 name ws2) post)
    (Some rd)
  = String.append (Samples.ref_token_double_quoted ws1 name ws2)
      (replace_refs_and_sources_in_sql post (Some rd)).
Proof.
  intros W1 W2 Bn.
  unfold replace_refs_and_sources_in_sql, replace_refs, replace_sources.
  assert (forall rest g' (k : string -> groups -> option (string * groups)),
             matches (lit "ref('" (Seq (Group 0 (Many1 not_quote))
                        (lit "')" (Seq (Many is_space) (lit "}}" Eps)))))
               (String.append "ref(" (String dquote rest)) g' k = None)
    as Href.
  { intros rest g' k. cbn [lit String.append].
    repeat (rewrite RegexFacts.matches_seq, RegexFacts.matches_chr_hit;
            cbv beta).
    rewrite RegexFacts.matches_seq.
    now apply RegexFacts.matches_chr_miss. }
  rewrite (double_quoted_token_passed ref_pattern "ref('" _ _ ws1 name ws2 post
             eq_refl Href eq_refl W1 W2 Bn).
  apply (double_quoted_token_passed source_pattern "source('" _ _ ws1 name
           ws2 _ eq_refl); try assumption; reflexivity.
Qed.

Lemma double_quoted_ref_not_resolved_witness :
  replace_refs_and_sources_in_sql
    (String.append (Samples.ref_token_double_quoted " " "orders" " ") " o")
    (Some Examples.shop_reference)
  = String.append (Samples.ref_token_double_quoted " " "orders" " ")
      (replace_refs_and_sources_in_sql " o" (Some Examples.shop_reference)).
Proof.
  apply (double_quoted_ref_not_resolved Examples.shop_reference
           " " "orders" " " " o"); reflexivity.
Defined.

End ResolverEdges.

(** ** The frame built from the manifest and the catalog *)

Module ManifestFacts.
Import Manifest.

(** *** Dictionaries *)

Lemma in_dict_set {A : Type} (k k' : string) (v v' : A)
    (d : list (string * A)) :
  List.In (k', v') (Ast.dict_set k v d) ->
  (k' = k /\ v' = v) \/ List.In (k', v') d.
Proof.
  induction d as [| [k0 v0] d IH]; simpl.
  - intros [E | []]. injection E as <- <-. left. split; reflexivity.
  - destruct (String.eqb k k0); simpl.
    + intros [E | I]; [injection E as <- <-; left; split; reflexivity |].
      right. right. exact I.
    + intros [E | I]; [right; left; exact E |].
      destruct (IH I) as [L | R]; [left; exact L | right; right; exact R].
Qed.

Lemma NoDup_keys_dict_set {A : Type} (k : string) (v : A)
    (d : list (string * A)) :
  List.NoDup (Ast.keys d) -> List.NoDup (Ast.keys (Ast.dict_set k v d)).
Proof.
  intros N. destruct (in_dec string_dec k (Ast.keys d)) as [I | I].
  - now rewrite ExpanderFacts.keys_dict_set_old.
  - rewrite ExpanderFacts.keys_dict_set_new by exact I.
    apply List.NoDup_app.
    + exact N.
    + constructor; [intros [] | constructor].
    + intros x Ix [<- | []]. exact (I Ix).
Qed.

(** The first key of a dictionary stays the first. *)
Lemma hd_dict_set {A : Type} (k : string) (v : A) (d : list (string * A))
    (k0 : string) :
  hd_error (Ast.keys d) = Some k0 ->
  hd_error (Ast.keys (Ast.dict_set k v d)) = Some k0.
Proof.
  destruct d as [| [k1 v1] d]; simpl; [discriminate |].
  intros E. destruct (String.eqb k k1) eqn:Ek; simpl; [| exact E].
  apply String.eqb_eq in Ek. now subst k1.
Qed.

(** A loop keeps what each of its turns keeps. *)
Lemma fold_left_keeps {A B : Type} (P : A -> Prop) (f : A -> B -> A)
    (l : list B) :
  (forall acc x, List.In x l -> P acc -> P (f acc x)) ->
  forall init, P init -> P (fold_left f l init).
Proof.
  induction l as [| x l IH]; simpl; intros Hf init Hi; [exact Hi |].
  apply IH.
  - intros acc y Iy. apply Hf. right. exact Iy.
  - apply Hf; [left; reflexivity | exact Hi].
Qed.

(** *** The reference of a node *)

(** What holds of a reference under construction: its keys are distinct,
    and each is the full name of a catalogued dependency and holds at
    least one column. *)
Section Reference.
Variables (database schema : string) (catalog_nodes catalog_sources : catalog).

Let full_name_of_dependency (deps : list string) (k : string) : Prop :=
  exists dep dep_name c e,
    List.In dep deps
    /\ (c = catalog_nodes \/ c = catalog_sources)
    /\ Ast.assoc dep c = Some e
    /\ get_columns e <> []
    /\ k = dep_full_name database schema dep_name e.

Let well_formed (deps : list string) (rd : Resolver.reference_data) : Prop :=
  List.NoDup (Ast.keys rd)
  /\ forall k cols, List.In (k, cols) rd ->
                    cols <> [] /\ full_name_of_dependency deps k.

Lemma append_column_well_formed deps k col rd :
  full_name_of_dependency deps k ->
  well_formed deps rd -> well_formed deps (append_column k col rd).
Proof.
  intros Hk [N W]. split; [now apply NoDup_keys_dict_set |].
  intros k' cols' I. apply in_dict_set in I as [[-> ->] | I]; [| exact (W _ _ I)].
  split; [| exact Hk]. now destruct (default [] (Ast.assoc k rd)).
Qed.

Lemma add_columns_well_formed deps dep dep_name c rd :
  List.In dep deps -> c = catalog_nodes \/ c = catalog_sources ->
  well_formed deps rd ->
  well_formed deps (add_columns database schema dep_name dep c rd).
Proof.
  intros Id Hc W. unfold add_columns.
  destruct (is_empty (get_entry c dep)) eqn:Em; [exact W |].
  destruct (get_columns (get_entry c dep)) as [| c0 cols] eqn:Ec; [exact W |].
  cbv iota. generalize (Ast.keys (c0 :: cols)). intros l.
  assert (full_name_of_dependency deps
            (dep_full_name database schema dep_name (get_entry c dep))) as F.
  { unfold get_entry in *. destruct (Ast.assoc dep c) as [e |] eqn:E;
      [| discriminate Em].
    exists dep, dep_name, c, e. simpl in Ec. rewrite Ec.
    repeat split; try assumption. discriminate. }
  revert rd W. induction l as [| col l IH]; intros rd W; [exact W |].
  simpl. apply IH. now apply append_column_well_formed.
Qed.

Lemma add_dependency_well_formed deps dep rd :
  List.In dep deps -> well_formed deps rd ->
  well_formed deps
    (add_dependency database schema catalog_nodes catalog_sources dep rd).
Proof.
  intros Id W. unfold add_dependency.
  destruct (String.eqb (hd "" (Ast.split "." dep)) "model").
  - destruct (Ast.split "." dep) as [| a [| b [| c [| d l]]]]; try exact W.
    apply add_columns_well_formed; [exact Id | now left | exact W].
  - destruct (String.eqb (hd "" (Ast.split "." dep)) "source"); [| exact W].
    destruct (Ast.split "." dep) as [| a [| b [| c [| d [| x l]]]]];
      try exact W.
    apply add_columns_well_formed; [exact Id | now right | exact W].
Qed.

(** The key that the first dependency has put first stays first. *)
Lemma add_dependency_hd dep rd k0 :
  hd_error (Ast.keys rd) = Some k0 ->
  hd_error (Ast.keys (add_dependency database schema catalog_nodes
                        catalog_sources dep rd)) = Some k0.
Proof.
  assert (forall dep_name c,
             hd_error (Ast.keys rd) = Some k0 ->
             hd_error (Ast.keys (add_columns database schema dep_name dep c rd))
             = Some k0) as Columns.
  { intros dep_name c. unfold add_columns.
    destruct (is_empty (get_entry c dep)); [tauto |].
    destruct (get_columns (get_entry c dep)) as [| c0 cols]; [tauto |].
    cbv iota. generalize (Ast.keys (c0 :: cols)). intros l. revert rd.
    induction l as [| col l IH]; intros rd H; [exact H |].
    simpl. apply IH. now apply hd_dict_set. }
  intros H. unfold add_dependency.
  destruct (String.eqb (hd "" (Ast.split "." dep)) "model").
  - destruct (Ast.split "." dep) as [| a [| b [| c [| d l]]]]; try exact H.
    now apply Columns.
  - destruct (String.eqb (hd "" (Ast.split "." dep)) "source"); [| exact H].
    destruct (Ast.split "." dep) as [| a [| b [| c [| d [| x l]]]]];
      try exact H.
    now apply Columns.
Qed.

End Reference.

(** X3.  In a reference built from the manifest no key is listed twice,
    every key holds at least one column, and every key is the full name
    [database.schema.table] made for a dependency of the node that has a
    catalog entry with columns. *)
Theorem reference_keys_hold_columns (node_info : manifest_node)
    (catalog_nodes catalog_sources : catalog) :
  List.NoDup (Ast.keys (reference_info node_info catalog_nodes catalog_sources))
  /\ forall k cols,
       List.In (k, cols) (reference_info node_info catalog_nodes catalog_sources) ->
       cols <> []
       /\ exists dep dep_name c e,
            List.In dep (depends_on node_info)
            /\ (c = catalog_nodes \/ c = catalog_sources)
            /\ Ast.assoc dep c = Some e
            /\ get_columns e <> []
            /\ k = dep_full_name (node_database node_info)
                     (node_schema node_info) dep_name e.
Proof.
  unfold reference_info.
  apply (fold_left_keeps
           (fun rd : Resolver.reference_data =>
              List.NoDup (Ast.keys rd)
              /\ forall k cols,
                   List.In (k, cols) rd ->
                   cols <> []
                   /\ exists dep dep_name c e,
                        List.In dep (depends_on node_info)
                        /\ (c = catalog_nodes \/ c = catalog_sources)
                        /\ Ast.assoc dep c = Some e
                        /\ get_columns e <> []
                        /\ k = dep_full_name (node_database node_info)
                                 (node_schema node_info) dep_name e)).
  - intros acc dep Id W.
    exact (add_dependency_well_formed (node_database node_info)
             (node_schema node_info) catalog_nodes catalog_sources
             (depends_on node_info) dep acc Id W).
  - split; [constructor | intros k cols []].
Qed.

(** *** The rows of a node *)

Lemma get_entry_found (c : catalog) (key : string) :
  is_empty (get_entry c key) = false ->
  exists e, Ast.assoc key c = Some e /\ get_entry c key = e.
Proof.
  unfold get_entry. destruct (Ast.assoc key c) as [e |]; [| discriminate].
  intros _. exists e. split; reflexivity.
Qed.

(** The rows that one node contributes, taken apart. *)
Lemma node_rows_inv (cn cs : catalog) (key : string) (node : manifest_node)
    (r : row) :
  List.In r (node_rows cn cs key node) ->
  exists entry description,
    ((node_resource_type node = "model" /\ Ast.assoc key cn = Some entry)
     \/ (node_resource_type node = "source" /\ Ast.assoc key cs = Some entry))
    /\ List.In (column_name r, description) (get_columns entry)
    /\ r = Row (String.append (node_database node)
                 (String.append "." (String.append (node_schema node)
                    (String.append "." (String.append (node_name node)
                       (String.append "." (column_name r)))))))
              (node_database node) (node_schema node) (node_name node)
              (column_name r) (default "" description)
              (node_resource_type node) (node_name node)
              (Some (node_raw_code node))
              (dumps (reference_info node cn cs)).
Proof.
  unfold node_rows.
  assert (forall c,
             (node_resource_type node = "model" /\ c = cn)
             \/ (node_resource_type node = "source" /\ c = cs) ->
             forall f,
               (forall col, f col
                  = Row (String.append (node_database node)
                           (String.append "." (String.append (node_schema node)
                              (String.append "." (String.append (node_name node)
                                 (String.append "." (fst col)))))))
                        (node_database node) (node_schema node) (node_name node)
                        (fst col) (default "" (snd col))
                        (node_resource_type node) (node_name node)
                        (Some (node_raw_code node))
                        (dumps (reference_info node cn cs))) ->
               List.In r
                 (if is_empty (get_entry c key) then []
                  else match get_columns (get_entry c key) with
                       | [] => []
                       | c0 :: cols => map f (c0 :: cols)
                       end) ->
               exists entry description,
                 ((node_resource_type node = "model"
                   /\ Ast.assoc key cn = Some entry)
                  \/ (node_resource_type node = "source"
                      /\ Ast.assoc key cs = Some entry))
                 /\ List.In (column_name r, description) (get_columns entry)
                 /\ r = f (column_name r, description)) as Entry.
  { intros c Hc f Hf I.
    destruct (is_empty (get_entry c key)) eqn:Ee; [destruct I |].
    destruct (get_entry_found c key Ee) as (e & Ea & Ge). rewrite Ge in I.
    destruct (get_columns e) as [| c0 cols] eqn:Ec; [destruct I |].
    apply in_map_iff in I as ([col d] & <- & Ic).
    exists e, d. rewrite Hf. simpl. rewrite Ec. split; [| split].
    - destruct Hc as [[T ->] | [T ->]]; [left | right]; split; assumption.
    - exact Ic.
    - rewrite Hf. reflexivity. }
  destruct (String.eqb (node_resource_type node) "model") eqn:Em.
  - apply String.eqb_eq in Em. intros I.
    destruct (Entry cn (or_introl (conj Em eq_refl)) _ (fun _ => eq_refl) I)
      as (e & d & H1 & H2 & H3).
    exists e, d. split; [exact H1 | split; [exact H2 | exact H3]].
  - destruct (String.eqb (node_resource_type node) "source") eqn:Es;
      [| intros []].
    apply String.eqb_eq in Es. intros I.
    destruct (Entry cs (or_intror (conj Es eq_refl)) _ (fun _ => eq_refl) I)
      as (e & d & H1 & H2 & H3).
    exists e, d. split; [exact H1 | split; [exact H2 | exact H3]].
Qed.

(** X4.  Every row of the frame belongs to a node of the manifest whose
    resource type is [model] or [source] and to a column that the catalog
    lists for that node; its unique key is
    [database.schema.table.column], and its SQL is the node's raw code. *)
Theorem rows_come_from_catalogued_nodes
    (manifest_nodes : list (string * manifest_node))
    (catalog_nodes catalog_sources : catalog) (r : row) :
  List.In r (build_dataframe_from_manifest manifest_nodes catalog_nodes
               catalog_sources) ->
  exists node_key node_info entry description,
    List.In (node_key, node_info) manifest_nodes
    /\ ((node_resource_type node_info = "model"
         /\ Ast.assoc node_key catalog_nodes = Some entry)
        \/ (node_resource_type node_info = "source"
            /\ Ast.assoc node_key catalog_sources = Some entry))
    /\ List.In (column_name r, description) (get_columns entry)
    /\ unique_key r
       = String.append (database r)
           (String.append "." (String.append (schema r)
              (String.append "." (String.append (table_name r)
                 (String.append "." (column_name r))))))
    /\ database r = node_database node_info
    /\ schema r = node_schema node_info
    /\ table_name r = node_name node_info
    /\ resource_type r = node_resource_type node_info
    /\ sql r = Some (node_raw_code node_info)
    /\ reference r
       = dumps (reference_info node_info catalog_nodes catalog_sources).
Proof.
  unfold build_dataframe_from_manifest. intros I.
  apply in_flat_map in I as ([key node] & Im & Ir). simpl in Ir.
  apply node_rows_inv in Ir as (e & d & Hc & Hd & Hr).
  exists key, node, e, d.
  split; [exact Im |]. split; [exact Hc |]. split; [exact Hd |].
  rewrite Hr. simpl. repeat split; reflexivity.
Qed.

Lemma rows_come_from_catalogued_nodes_witness :
  exists node_key node_info entry description,
    List.In (node_key, node_info) Samples.shop_manifest
    /\ ((node_resource_type node_info = "model"
         /\ Ast.assoc node_key Samples.shop_catalog_nodes = Some entry)
        \/ (node_resource_type node_info = "source"
            /\ Ast.assoc node_key Samples.shop_catalog_sources = Some entry))
    /\ List.In ("total", description) (get_columns entry)
    /\ "db.stg.stg_orders.total"
       = String.append "db"
           (String.append "." (String.append "stg"
              (String.append "." (String.append "stg_orders"
                 (String.append "." "total")))))
    /\ "db" = node_database node_info
    /\ "stg" = node_schema node_info
    /\ "stg_orders" = node_name node_info
    /\ "model" = node_resource_type node_info
    /\ Some "select id, total from {{ source('ecom', 'raw_orders') }}"
       = Some (node_raw_code node_info)
    /\ dumps []
       = dumps (reference_info node_info Samples.shop_catalog_nodes
                  Samples.shop_catalog_sources).
Proof.
  apply (rows_come_from_catalogued_nodes Samples.shop_manifest
           Samples.shop_catalog_nodes Samples.shop_catalog_sources
           (Row "db.stg.stg_orders.total" "db" "stg" "stg_orders" "total" ""
              "model" "stg_orders"
              (Some "select id, total from {{ source('ecom', 'raw_orders') }}")
              (dumps []))).
  vm_compute. right. right. right. left. reflexivity.
Defined.

(** *** The SQL column after [update_sql_column] *)

Lemma update_sql_column_app (a b : list row) :
  update_sql_column (a ++ b) = update_sql_column a ++ update_sql_column b.
Proof. unfold update_sql_column. apply map_app. Qed.

Lemma frame_app (a b : list (string * manifest_node)) (cn cs : catalog) :
  frame (a ++ b) cn cs = frame a cn cs ++ frame b cn cs.
Proof.
  unfold frame, build_dataframe_from_manifest.
  now rewrite flat_map_app, update_sql_column_app.
Qed.

Lemma frame_one (key : string) (node : manifest_node) (cn cs : catalog) :
  frame [(key, node)] cn cs = update_sql_column (node_rows cn cs key node).
Proof.
  unfold frame, build_dataframe_from_manifest. simpl. now rewrite app_nil_r.
Qed.

(** The SQL cell of a row of the node, after the update. *)
Lemma node_sql_updated (key : string) (node : manifest_node) (cn cs : catalog)
    (r : row) :
  List.In r (frame [(key, node)] cn cs) ->
  sql r
  = match node_raw_code node with
    | EmptyString => Some EmptyString
    | raw =>
        Some (Resolver.replace_refs_and_sources_in_sql raw
                (Some (reference_info node cn cs)))
    end.
Proof.
  rewrite frame_one. unfold update_sql_column. intros I.
  apply in_map_iff in I as (r0 & <- & I).
  apply node_rows_inv in I as (e & d & _ & _ & ->). simpl.
  unfold replace_sql. simpl. now destruct (node_raw_code node).
Qed.

(** X5.  A node whose dependencies add nothing to its reference (it has
    none, or none of them is a catalogued model or source) goes through
    [update_sql_column] with its raw code untouched, placeholders
    included; the nodes before and after it are handled on their own. *)
Theorem node_without_reference_keeps_raw_code
    (before after : list (string * manifest_node)) (key : string)
    (node : manifest_node) (cn cs : catalog) :
  reference_info node cn cs = [] ->
  frame (before ++ (key, node) :: after) cn cs
  = frame before cn cs
    ++ build_dataframe_from_manifest [(key, node)] cn cs
    ++ frame after cn cs.
Proof.
  intros Hr.
  change ((key, node) :: after) with ([(key, node)] ++ after).
  rewrite !frame_app. f_equal. f_equal.
  unfold frame, build_dataframe_from_manifest. simpl. rewrite app_nil_r.
  unfold update_sql_column.
  rewrite <- (map_id (node_rows cn cs key node)) at 2.
  apply map_ext_in. intros r I.
  apply node_rows_inv in I as (e & d & _ & _ & ->).
  unfold replace_sql. simpl. rewrite Hr.
  destruct (node_raw_code node) as [| c raw]; [reflexivity |].
  do 2 f_equal.
  unfold Resolver.replace_refs_and_sources_in_sql, Resolver.replace_sources,
    Resolver.replace_refs.
  assert (Regex.sub Resolver.ref_pattern (Resolver.ref_replacer [])
            (String c raw) = String c raw) as ->.
  { apply (ResolverEdges.sub_same "{"%char). reflexivity. }
  apply (ResolverEdges.sub_same "{"%char). reflexivity.
Qed.

Lemma node_without_reference_keeps_raw_code_witness :
  frame ([("model.shop.orders", Samples.orders_node)]
         ++ ("model.shop.stg_orders", Samples.stg_orders_node) :: [])
    Samples.shop_catalog_nodes Samples.shop_catalog_sources
  = frame [("model.shop.orders", Samples.orders_node)]
      Samples.shop_catalog_nodes Samples.shop_catalog_sources
    ++ build_dataframe_from_manifest
         [("model.shop.stg_orders", Samples.stg_orders_node)]
         Samples.shop_catalog_nodes Samples.shop_catalog_sources
    ++ frame [] Samples.shop_catalog_nodes Samples.shop_catalog_sources.
Proof.
  apply (node_without_reference_keeps_raw_code
           [("model.shop.orders", Samples.orders_node)] []
           "model.shop.stg_orders" Samples.stg_orders_node
           Samples.shop_catalog_nodes Samples.shop_catalog_sources).
  reflexivity.
Defined.

(** *** A resolved dependency, from the manifest to the SQL *)

Lemma prefix_dot (c : ascii) (s : string) :
  String.prefix "." (String c s) = Ascii.eqb "."%char c.
Proof.
  change (String.prefix "." (String c s))
    with (match ascii_dec "."%char c with
          | left _ => String.prefix "" s
          | right _ => false
          end).
  destruct (ascii_dec "."%char c) as [<- | N].
  - now destruct s.
  - symmetry. now apply Ascii.eqb_neq.
Qed.

Lemma split_go_step (c : ascii) (s cur : string) :
  Ast.split_go "." (String c s) 0 cur
  = if Ascii.eqb "."%char c then cur :: Ast.split_go "." s 0 ""
    else Ast.split_go "." s 0 (String.append cur (String c EmptyString)).
Proof. cbn [Ast.split_go]. now rewrite prefix_dot. Qed.

Lemma not_dot_eqb (c : ascii) :
  Samples.not_dot c = true -> Ascii.eqb "."%char c = false.
Proof.
  unfold Samples.not_dot. rewrite Ascii.eqb_sym.
  now destruct (Ascii.eqb "."%char c).
Qed.

(** A name without a dot is one part. *)
Lemma split_go_word (t : string) :
  Regex.all Samples.not_dot t = true ->
  forall cur, Ast.split_go "." t 0 cur = [String.append cur t].
Proof.
  induction t as [| c t IH]; simpl Regex.all; intros H cur.
  - simpl. now rewrite RegexFacts.append_nil_r.
  - apply andb_prop in H as [Hc Ht].
    rewrite split_go_step, (not_dot_eqb c Hc), (IH Ht).
    now rewrite RegexFacts.append_assoc.
Qed.

(** The last part of a dotted name that ends in a name without a dot. *)
Lemma last_segment_suffix (t : string) :
  Regex.all Samples.not_dot t = true ->
  forall x, Resolver.last_segment (String.append x (String "."%char t)) = t.
Proof.
  intros Ht x. unfold Resolver.last_segment, Ast.split.
  assert (forall cur,
             last (Ast.split_go "." (String.append x (String "."%char t)) 0 cur)
             = Some t) as ->; [| reflexivity].
  induction x as [| c x IH]; intros cur; cbn [String.append];
    rewrite split_go_step.
  - rewrite Ascii.eqb_refl, (split_go_word t Ht). reflexivity.
  - destruct (Ascii.eqb "."%char c); [| apply IH].
    rewrite last_cons, IH. reflexivity.
Qed.

Lemma dep_full_name_suffix (database schema t : string) (e : catalog_entry) :
  entry_name e = None ->
  exists x, dep_full_name database schema t e
            = String.append x (String "."%char t).
Proof.
  intros En. unfold dep_full_name. rewrite En. cbn [default].
  set (d := match metadata e with
            | Some m => default database (md_database m)
            | None => database
            end).
  set (s := match metadata e with
            | Some m => default schema (md_schema m)
            | None => schema
            end).
  exists (String.append d (String.append "." s)).
  rewrite !RegexFacts.append_assoc. reflexivity.
Qed.

(** The first dependency, when it is a catalogued model, gives the
    reference its first key. *)
Lemma first_dependency_first_key (node : manifest_node) (cn cs : catalog)
    (dep pkg t : string) (others : list string) (e : catalog_entry) :
  depends_on node = dep :: others ->
  Ast.split "." dep = ["model"; pkg; t] ->
  Ast.assoc dep cn = Some e ->
  get_columns e <> [] ->
  exists cols rest,
    reference_info node cn cs
    = (dep_full_name (node_database node) (node_schema node) t e, cols) :: rest.
Proof.
  intros Hd Hs Ha Hc.
  assert (hd_error (Ast.keys (reference_info node cn cs))
          = Some (dep_full_name (node_database node) (node_schema node) t e))
    as H.
  { unfold reference_info. rewrite Hd. cbn [fold_left].
    apply (fold_left_keeps
             (fun d : Resolver.reference_data =>
                hd_error (Ast.keys d)
                = Some (dep_full_name (node_database node) (node_schema node)
                          t e))).
    - intros acc x _ Hacc. now apply add_dependency_hd.
    - unfold add_dependency. rewrite Hs. cbn [hd]. cbn [String.eqb Ascii.eqb
        Bool.eqb]. unfold add_columns, get_entry. rewrite Ha.
      change (default no_entry (Some e)) with e.
      assert (is_empty e = false) as ->.
      { unfold is_empty, get_columns in *.
        destruct (columns e); [now destruct (metadata e), (entry_name e) |].
        now contradiction Hc. }
      destruct (get_columns e) as [| c0 cols]; [now contradiction Hc |].
      cbv iota. cbn [Ast.keys map fold_left].
      generalize (map fst cols). intros l.
      assert (hd_error
                (Ast.keys
                   (append_column
                      (dep_full_name (node_database node) (node_schema node)
                         t e) (fst c0) []))
              = Some (dep_full_name (node_database node) (node_schema node)
                        t e)) as H0 by reflexivity.
      revert H0. generalize (append_column
                      (dep_full_name (node_database node) (node_schema node)
                         t e) (fst c0) []).
      induction l as [| col l IH]; intros d H0; [exact H0 |].
      cbn [fold_left]. apply IH. now apply hd_dict_set. }
  destruct (reference_info node cn cs) as [| [k cols] rest]; [discriminate |].
  injection H as ->. now exists cols, rest.
Qed.

(** X6.  From the manifest to the stored SQL: when the first dependency of
    a node is a model [model.<package>.<t>] that the catalog lists with
    columns and without a [name] of its own, [update_sql_column] replaces
    the placeholder [{{ ref('<t>') }}] in the node's raw code by the full
    name built for that dependency, in every row of the node (the text
    around the placeholder holding no brace). *)
Theorem first_model_dependency_resolved
    (key : string) (node : manifest_node) (cn cs : catalog)
    (dep pkg t : string) (others : list string) (e : catalog_entry)
    (pre ws1 ws2 post : string) (r : row) :
  depends_on node = dep :: others ->
  Ast.split "." dep = ["model"; pkg; t] ->
  Ast.assoc dep cn = Some e ->
  entry_name e = None ->
  get_columns e <> [] ->
  Regex.all Samples.not_dot t = true ->
  Regex.all Regex.not_quote t = true ->
  t <> "" ->
  Regex.all Regex.not_brace
    (dep_full_name (node_database node) (node_schema node) t e) = true ->
  node_raw_code node
  = String.append pre (String.append (Resolver.ref_token ws1 t ws2) post) ->
  Regex.all Regex.is_space ws1 = true ->
  Regex.all Regex.is_space ws2 = true ->
  Regex.all Regex.not_brace pre = true ->
  Regex.all Regex.not_brace post = true ->
  List.In r (frame [(key, node)] cn cs) ->
  sql r
  = Some (String.append pre
            (String.append
               (dep_full_name (node_database node) (node_schema node) t e)
               post)).
Proof.
  intros Hd Hs Ha En Hc Tdot Tquote Tne Fbrace Hraw W1 W2 Bpre Bpost I.
  rewrite (node_sql_updated key node cn cs r I).
  destruct (first_dependency_first_key node cn cs dep pkg t others e
              Hd Hs Ha Hc) as (cols & rest & Hrd).
  set (full := dep_full_name (node_database node) (node_schema node) t e) in *.
  assert (Resolver.find_ref t (reference_info node cn cs) = Some full) as Hfind.
  { rewrite Hrd. cbn [Resolver.find_ref].
    destruct (dep_full_name_suffix (node_database node) (node_schema node) t e
                En) as (x & Hx).
    fold full in Hx. rewrite Hx, (last_segment_suffix t Tdot).
    now rewrite String.eqb_refl. }
  assert (forall w, Regex.all Regex.not_brace w = true ->
                    Resolver.replace_refs (reference_info node cn cs) w = w)
    as Refs.
  { intros w Hw. unfold Resolver.replace_refs.
    rewrite <- (RegexFacts.append_nil_r w) at 1.
    rewrite (ResolverFacts.sub_brace_free _ _ w ""
               ResolverFacts.ref_pattern_needs_brace Hw).
    apply RegexFacts.append_nil_r. }
  assert (forall w, Regex.all Regex.not_brace w = true ->
                    Resolver.replace_sources (reference_info node cn cs) w = w)
    as Sources.
  { intros w Hw. unfold Resolver.replace_sources.
    rewrite <- (RegexFacts.append_nil_r w) at 1.
    rewrite (ResolverFacts.sub_brace_free _ _ w ""
               ResolverFacts.source_pattern_needs_brace Hw).
    apply RegexFacts.append_nil_r. }
  rewrite Hraw.
  destruct (String.append pre
              (String.append (Resolver.ref_token ws1 t ws2) post))
    as [| c raw] eqn:Eraw.
  { destruct pre; discriminate Eraw. }
  rewrite <- Eraw. f_equal.
  unfold Resolver.replace_refs_and_sources_in_sql.
  unfold Resolver.replace_refs at 1.
  rewrite (ResolverFacts.sub_brace_free _ _ pre _
             ResolverFacts.ref_pattern_needs_brace Bpre).
  fold (Resolver.replace_refs (reference_info node cn cs)
          (String.append (Resolver.ref_token ws1 t ws2) post)).
  rewrite (ResolverFacts.replace_refs_token _ ws1 t ws2 post W1 W2 Tquote Tne).
  rewrite Hfind, (Refs post Bpost).
  apply Sources.
  rewrite !RegexFacts.all_append, Bpre, Fbrace, Bpost. reflexivity.
Qed.

Lemma first_model_dependency_resolved_witness :
  sql (Row "db.mart.orders.id" "db" "mart" "orders" "id" "" "model" "orders"
         (Some "select * from db.stg.stg_orders o")
         (dumps [("db.stg.stg_orders", ["id"; "total"]);
                 ("db.mart.RAW_ORDERS", ["id"])]))
  = Some (String.append "select * from "
            (String.append
               (dep_full_name (node_database Samples.orders_node)
                  (node_schema Samples.orders_node) "stg_orders"
                  (CatalogEntry (Some (Metadata (Some "db") (Some "stg")))
                     None (Some [("id", Some "key"); ("total", None)]) true))
               " o")).
Proof.
  apply (first_model_dependency_resolved "model.shop.orders"
           Samples.orders_node Samples.shop_catalog_nodes
           Samples.shop_catalog_sources "model.shop.stg_orders" "shop"
           "stg_orders"
           ["source.shop.ecom.raw_orders"; "seed.shop.countries";
            "model.shop.missing"]
           (CatalogEntry (Some (Metadata (Some "db") (Some "stg")))
              None (Some [("id", Some "key"); ("total", None)]) true)
           "select * from " " " " " " o").
  - reflexivity.
  - reflexivity.
  - reflexivity.
  - reflexivity.
  - discriminate.
  - reflexivity.
  - reflexivity.
  - discriminate.
  - reflexivity.
  - reflexivity.
  - reflexivity.
  - reflexivity.
  - reflexivity.
  - reflexivity.
  - vm_compute. left. reflexivity.
Defined.

End ManifestFacts.

(** ** What the star expander rewrites and what it leaves alone *)

Module ExpanderLaws.
Import Expander.

(** X7.  After [replace_star_in_select] the select list holds no bare [*],
    whatever the columns and the scope: every bare star has become the
    list of identifiers, also the empty one. *)
Theorem no_bare_star_left (select_expr : select)
    (current_cte_columns : list string) (cte_columns : cte_scope) :
  ~ List.In Star
      (expressions
         (replace_star_in_select select_expr current_cte_columns cte_columns)).
Proof.
  unfold replace_star_in_select. cbn [expressions]. intros I.
  apply in_flat_map in I as (p & _ & I).
  destruct p as [| n t | a s | n | a s]; simpl in I.
  - apply in_map_iff in I as (c & E & _). discriminate E.
  - destruct (negb (String.eqb t "")), (String.eqb n "*");
      try (destruct I as [E | []]; discriminate E).
    destruct (Ast.assoc t cte_columns) as [cols |].
    + apply in_map_iff in I as (c & E & _). discriminate E.
    + destruct I as [E | []]. discriminate E.
  - destruct I as [E | []]. discriminate E.
  - destruct I as [E | []]. discriminate E.
  - destruct I as [E | []]. discriminate E.
Qed.

Lemma replace_star_stays (cols : list string) (scope : cte_scope)
    (p : projection) :
  Samples.stays scope p -> replace_star cols scope p = [p].
Proof.
  destruct p as [| n t | a s | n | a s]; simpl; try reflexivity; [intros [] |].
  intros H. destruct (String.eqb t "") eqn:Et; [reflexivity |].
  destruct (String.eqb n "*") eqn:En; [| reflexivity]. simpl.
  apply String.eqb_eq in En. destruct (H En) as [-> | ->];
    [discriminate Et | reflexivity].
Qed.

(** X8.  A select list without a bare [*] and without a [t.*] over a CTE of
    the scope is left exactly as it is. *)
Theorem select_without_star_unchanged (select_expr : select)
    (current_cte_columns : list string) (cte_columns : cte_scope) :
  List.Forall (Samples.stays cte_columns) (expressions select_expr) ->
  replace_star_in_select select_expr current_cte_columns cte_columns
  = select_expr.
Proof.
  intros F. destruct select_expr as [exprs fr js].
  unfold replace_star_in_select. cbn [expressions from joins] in *. f_equal.
  induction F as [| p l Hp _ IH]; [reflexivity |].
  cbn [flat_map]. rewrite (replace_star_stays _ _ p Hp), IH. reflexivity.
Qed.

Lemma select_without_star_unchanged_witness :
  replace_star_in_select
    (Select [Column "ID" ""; Column "*" "T"; Alias "N" "COUNT(*)"]
       (Some (Some (TableName "" "" "A"))) [])
    ["X"; "Y"] [("A", ["X"; "Y"])]
  = Select [Column "ID" ""; Column "*" "T"; Alias "N" "COUNT(*)"]
      (Some (Some (TableName "" "" "A"))) [].
Proof.
  apply (select_without_star_unchanged
           (Select [Column "ID" ""; Column "*" "T"; Alias "N" "COUNT(*)"]
              (Some (Some (TableName "" "" "A"))) [])
           ["X"; "Y"] [("A", ["X"; "Y"])]).
  repeat constructor; intros _; right; reflexivity.
Defined.

(** *** Only select lists change *)

Lemma expand_cte_clauses schema c scope c' scope' :
  expand_cte schema c scope = inr (c', scope') ->
  Samples.clauses_of_cte c' = Samples.clauses_of_cte c.
Proof.
  unfold expand_cte. destruct (from (cte_this c)) as [[t |] |]; try discriminate.
  destruct (match Ast.assoc (get_fully_qualified_name t) schema with
            | Some cols => Some cols
            | None => Ast.assoc (get_fully_qualified_name t) scope
            end) as [cols |]; [| discriminate].
  intros E. injection E as <- _. reflexivity.
Qed.

Lemma expand_ctes_clauses schema ctes :
  forall scope ctes' scope',
    expand_ctes schema ctes scope = inr (ctes', scope') ->
    map Samples.clauses_of_cte ctes' = map Samples.clauses_of_cte ctes.
Proof.
  induction ctes as [| c ctes IH]; simpl; intros scope ctes' scope' E.
  - injection E as <- _. reflexivity.
  - destruct (expand_cte schema c scope) as [e | [c1 scope1]] eqn:E1;
      [discriminate |].
    destruct (expand_ctes schema ctes scope1) as [e | [rest scope2]] eqn:E2;
      [discriminate |].
    injection E as <- _. simpl.
    now rewrite (expand_cte_clauses _ _ _ _ _ E1), (IH _ _ _ E2).
Qed.

Lemma set_outer_select_clauses (f : select -> select) (e : statement) :
  (forall s, Samples.clauses_of_select (f s) = Samples.clauses_of_select s) ->
  Samples.clauses_of_statement (set_outer_select f e)
  = Samples.clauses_of_statement e.
Proof.
  intros Hf. induction e as [s | l IHl r IHr]; simpl; [now rewrite Hf |].
  destruct (find_outer_select l); simpl; now rewrite ?IHl, ?IHr.
Qed.

(** X9.  The expansion rewrites select lists and nothing else: the
    expanded statement has the CTE names, the FROM clauses, the joins and
    the set operations of the parsed one, in the same places. *)
Theorem expansion_keeps_clauses (parsed q : query) (schema : reference_map) :
  expand parsed schema = inr q ->
  Samples.clauses q = Samples.clauses parsed.
Proof.
  unfold expand. destruct parsed as [[ctes |] stmt]; simpl; [| discriminate].
  destruct (expand_ctes schema ctes []) as [e | [ctes' scope]] eqn:E;
    [discriminate |].
  destruct (find_outer_select stmt); [| discriminate].
  destruct (last (Ast.keys scope)); [| discriminate].
  intros H. injection H as <-. unfold Samples.clauses. simpl.
  rewrite (expand_ctes_clauses _ _ _ _ _ E).
  rewrite set_outer_select_clauses; [reflexivity |].
  intros sel. reflexivity.
Qed.

Lemma expansion_keeps_clauses_witness :
  Samples.clauses
    (Query (Some [Cte "A" (Select [Identifier "NAME"; Identifier "QTY"]
                             (Some (Some (TableName "DB" "SCH" "RAW"))) [])])
       (SelectStmt (Select [Identifier "NAME"; Identifier "QTY"]
                      (Some (Some (TableName "" "" "A"))) [])))
  = Samples.clauses Examples.star_upper.
Proof.
  apply (expansion_keeps_clauses Examples.star_upper _ Examples.raw_upper).
  reflexivity.
Defined.

(** *** A CTE without a FROM clause *)

(** X10.  A CTE without a FROM clause stops the expansion of the whole
    statement with a [ValueError] that names it, once the CTEs before it
    have been expanded; what comes after it is not looked at. *)
Theorem cte_without_from_raises (schema : reference_map)
    (pre post pre' : list cte) (c : cte) (scope : cte_scope)
    (stmt : statement) :
  expand_ctes schema pre [] = inr (pre', scope) ->
  from (cte_this c) = None ->
  generate_expanded_sql (Query (Some (pre ++ c :: post)) stmt) schema
  = inl (ValueError
           (String.append "No FROM clause found in CTE '"
              (String.append (cte_alias c) "'."))).
Proof.
  intros Hpre Hfrom. unfold generate_expanded_sql, expand. cbn [with_].
  rewrite ExpanderFacts.expand_ctes_app, Hpre. cbn [expand_ctes].
  unfold expand_cte. rewrite Hfrom. reflexivity.
Qed.

Lemma cte_without_from_raises_witness :
  generate_expanded_sql
    (Query (Some ([Cte "A" (Select [Star]
                              (Some (Some (TableName "DB" "SCH" "RAW"))) [])]
                  ++ Cte "B" (Select [Alias "ONE" "1"] None [])
                  :: [Cte "C" (Select [Star] None [])]))
       (SelectStmt (Select [Star] (Some (Some (TableName "" "" "C"))) [])))
    Examples.raw_upper
  = inl (ValueError
           (String.append "No FROM clause found in CTE '"
              (String.append "B" "'."))).
Proof.
  apply (cte_without_from_raises Examples.raw_upper
           [Cte "A" (Select [Star]
                       (Some (Some (TableName "DB" "SCH" "RAW"))) [])]
           [Cte "C" (Select [Star] None [])]
           [Cte "A" (Select [Identifier "NAME"; Identifier "QTY"]
                       (Some (Some (TableName "DB" "SCH" "RAW"))) [])]
           (Cte "B" (Select [Alias "ONE" "1"] None []))
           [("A", ["NAME"; "QTY"])]).
  - reflexivity.
  - reflexivity.
Defined.

(** *** Columns through a chain of [SELECT *] *)







End ExpanderLaws.

(** ** The tracer at the edges of a statement *)

Module TracerEdges.
Import Ast Tracer.

(** A sequence that returns has returned from its first part. *)
Lemma bind_returned {A B : Type} (c : M A) (k : A -> M B) (h h' : heap)
    (y : B) :
  bind c k h = (h', inr y) ->
  exists h1 x, c h = (h1, inr x) /\ k x h1 = (h', inr y).
Proof.
  unfold bind. destruct (c h) as [h1 [e | x]]; [discriminate |].
  intros H. now exists h1, x.
Qed.

Lemma get_node_at (a : nat) (h : heap) (n : node) :
  h !! a = Some n -> get_node a h = (h, inr n).
Proof. intros E. unfold get_node. now rewrite E. Qed.

Lemma bind_get_node {B : Type} (a : nat) (k : node -> M B) (h : heap)
    (n : node) :
  h !! a = Some n -> bind (get_node a) k h = k n h.
Proof. intros E. unfold bind. now rewrite (get_node_at a h n E). Qed.

Lemma bind_with_heap {A B : Type} (f : heap -> A) (k : A -> M B) (h : heap) :
  bind (with_heap f) k h = k (f h) h.
Proof. reflexivity. Qed.

Lemma bind_ret {A B : Type} (x : A) (k : A -> M B) (h : heap) :
  bind (ret x) k h = k x h.
Proof. reflexivity. Qed.

Lemma bind_bind {A B C : Type} (c : M A) (k1 : A -> M B) (k2 : B -> M C)
    (h : heap) :
  bind (bind c k1) k2 h = bind c (fun x => bind (k1 x) k2) h.
Proof. unfold bind. now destruct (c h) as [h1 [e | x]]. Qed.

(** X12.  [process_cte] records every CTE it returns from: whatever the
    body of the CTE is (a SELECT, a set operation, anything else), the
    definitions it hands back have an entry under the CTE's alias. *)
Theorem process_cte_records_cte (fuel cte : nat) (st st' : maps)
    (h h' : heap) (cn : node) :
  h !! cte = Some cn ->
  process_cte fuel cte st h = (h', inr st') ->
  assoc (alias h cn) (snd st') <> None.
Proof.
  intros Hc H. destruct fuel as [| fuel]; [discriminate H |].
  destruct st as [table_alias_map cte_definitions].
  cbn [process_cte] in H.
  rewrite (bind_get_node cte _ h cn Hc), bind_with_heap in H.
  apply bind_returned in H as (h1 & [[cte_columns am] cd] & _ & H).
  injection H as _ <-. cbn [snd].
  now rewrite ExpanderFacts.assoc_dict_set_eq.
Qed.

Lemma process_cte_records_cte_witness :
  assoc "C1"
    (snd ([("C1", "C1")],
          [("C1", [("X", CteColumn ["X"] (VNode 0) "C2")])]))
  <> None.
Proof.
  apply (process_cte_records_cte 50 4 ([], [])
           ([("C1", "C1")], [("C1", [("X", CteColumn ["X"] (VNode 0) "C2")])])
           Examples.cyclic_query Examples.cyclic_query
           (Examples.cte_ 3 "C1")).
  - reflexivity.
  - vm_compute. reflexivity.
Defined.

(** X13.  A statement whose root is no SELECT (a set operation, say) yields
    no lineage row: when [process_with_and_select] returns, the list is
    empty, and without a WITH clause it does return, with the store as it
    was. *)
Theorem no_rows_without_select_root (generate : heap -> nat -> exn + string)
    (fuel ast : nat) (a : node) (h : heap) :
  h !! ast = Some a ->
  ncls a <> Select ->
  (forall h' rows,
      process_with_and_select generate fuel ast h = (h', inr rows) ->
      rows = [])
  /\ (truthy (arg a "with") = false ->
      process_with_and_select generate fuel ast h = (h, inr [])).
Proof.
  intros Ha Hs.
  assert (is_cls (ncls a) Select = false) as Hcls.
  { unfold is_cls. destruct (cls_eq_dec (ncls a) Select) as [E | _];
      [contradiction (Hs E) | reflexivity]. }
  unfold process_with_and_select. rewrite (bind_get_node ast _ h a Ha).
  split.
  - intros h' rows H.
    apply bind_returned in H as (h1 & st & _ & H).
    rewrite Hcls in H. now injection H as _ <-.
  - intros Hw. rewrite Hw, bind_ret, Hcls. reflexivity.
Qed.

Lemma no_rows_without_select_root_witness :
  (forall h' rows,
      process_with_and_select Examples.opaque_generate 5 Samples.union_root
        Samples.union_query
      = (h', inr rows) ->
      rows = [])
  /\ process_with_and_select Examples.opaque_generate 5 Samples.union_root
       Samples.union_query
     = (Samples.union_query, inr []).
Proof.
  destruct (no_rows_without_select_root Examples.opaque_generate 5
              Samples.union_root
              (Node Union [("this", VNode 3); ("expression", VNode 7)])
              Samples.union_query eq_refl) as [Empty Returns].
  - discriminate.
  - split; [exact Empty | apply Returns; reflexivity].
Defined.

(** X14.  [SELECT * FROM T] without a WITH clause yields the one row that
    stands for all columns of [T]: final column [*], table [T], and
    [Select all columns] as source columns and as transformation; the
    store is left as it was. *)
Theorem star_over_table_row (generate : heap -> nat -> exn + string)
    (fuel ast e f t : nat) (a en fn tn : node) (h : heap) :
  h !! ast = Some a -> ncls a = Select ->
  truthy (arg a "with") = false ->
  arg a "expressions" = Some (VList [VNode e]) ->
  arg a "from" = Some (VNode f) ->
  h !! f = Some fn -> arg fn "this" = Some (VNode t) ->
  h !! t = Some tn -> ncls tn = Table ->
  h !! e = Some en -> ncls en = Star ->
  process_with_and_select generate fuel ast h
  = (h, inr [Row "*" "Unknown" "Unknown" (name h tn)
               "Select all columns" "Select all columns"]).
Proof.
  intros Ha Ca Wa Ea Fa Hf Ft Ht Ct He Ce.
  assert (is_cls Select Select = true) as Sel by reflexivity.
  assert (is_cls Table Table = true) as Tab by reflexivity.
  unfold process_with_and_select.
  rewrite (bind_get_node ast _ h a Ha), Wa, bind_ret, Ca, Sel.
  unfold child, Tracer.expressions. rewrite Fa, Ea. cbn [truthy]. cbv zeta.
  rewrite bind_bind, (bind_get_node f _ h fn Hf), bind_ret, Ft.
  rewrite bind_bind, (bind_get_node t _ h tn Ht), Ct, Tab.
  rewrite bind_bind, bind_with_heap, bind_ret. cbn [fst snd].
  unfold process_projections. cbn [for_each].
  unfold process_projection at 1.
  rewrite ?bind_bind, (bind_get_node e _ h en He), Ce. cbn [assoc].
  reflexivity.
Qed.

Lemma star_over_table_row_witness :
  process_with_and_select Examples.opaque_generate 5 Samples.star_root
    Samples.star_query
  = (Samples.star_query,
     inr [Row "*" "Unknown" "Unknown"
            (name Samples.star_query (Examples.tbl "T"))
            "Select all columns" "Select all columns"]).
Proof.
  apply (star_over_table_row Examples.opaque_generate 5 Samples.star_root
           0 2 1 (Examples.select_ [0] 2) (Node Star []) (Examples.from_ 1)
           (Examples.tbl "T") Samples.star_query); reflexivity.
Defined.

(** *** Columns over CTEs of plain columns *)

Lemma lookup_set_ne (h : heap) (a b : nat) (key : string) (v : argv) :
  a <> b -> Ast.set a key v h !! b = h !! b.
Proof.
  intros N. unfold Ast.set. destruct (h !! a); [| reflexivity].
  now apply list_lookup_insert_ne.
Qed.

(** Writing an argument of an object keeps its class, so the stored
    transformations stay column objects. *)
Lemma columns_only_set (cd : cte_defs) (h : heap) (a : nat) (key : string)
    (v : argv) :
  columns_only cd h -> columns_only cd (Ast.set a key v h).
Proof.
  intros Hc t info c rec Ht Hi.
  destruct (Hc t info c rec Ht Hi) as (b & n & Hr & Hb & Hn).
  destruct (Nat.eq_dec a b) as [-> | N].
  - exists b, (Node (ncls n) (dict_set key v (nargs n))).
    split; [exact Hr |]. split; [| exact Hn].
    now apply PlainColumns.lookup_set_eq.
  - exists b, n. split; [exact Hr |]. split; [| exact Hn].
    now rewrite lookup_set_ne.
Qed.

(** X15.  A column is always traced, never given up with an exception,
    when the CTE definitions hold plain columns only, also when the CTEs
    refer to each other in a cycle: 22 nested calls suffice, whatever the
    table, the alias map and the store. *)
Theorem column_over_plain_ctes_is_traced (cd : cte_defs) (am : alias_map)
    (current_table : option string) (a : nat) (n : node) (h : heap)
    (fuel : nat) :
  columns_only cd h -> h !! a = Some n -> ncls n = Column ->
  22 <= fuel ->
  exists h' source_columns transformation source_table,
    extract_source_columns_and_transformation fuel (VNode a) am cd
      current_table h
    = (h', inr (source_columns, transformation, source_table)).
Proof.
  intros Hcd Ha Hn Hfuel.
  destruct fuel as [| fuel]; [lia |].
  cbn [extract_source_columns_and_transformation].
  rewrite (bind_get_node a _ h n Ha), Hn, bind_with_heap.
  set (table_name := if String.eqb (table h n) "" then _ else _).
  set (real_table_name := match assoc table_name am with
                          | Some t => t
                          | None => table_name
                          end).
  unfold bind at 1. unfold set_arg.
  destruct (Termination.trace_column_lineage_returns cd a
              (Node (ncls n) (dict_set "table" (VStr table_name) (nargs n)))
              real_table_name (Ast.set a "table" (VStr table_name) h) fuel)
    as (l & [[cols tab] tr] & E).
  - now apply columns_only_set.
  - now apply PlainColumns.lookup_set_eq.
  - exact Hn.
  - lia.
  - unfold bind. rewrite E. now eexists _, cols, tr, tab.
Qed.

Lemma column_over_plain_ctes_is_traced_witness :
  exists h' source_columns transformation source_table,
    extract_source_columns_and_transformation 22 (VNode 11)
      [("C1", "C1"); ("C2", "C2")] Examples.cyclic_defs (Some "C1")
      Examples.cyclic_query
    = (h', inr (source_columns, transformation, source_table)).
Proof.
  apply (column_over_plain_ctes_is_traced Examples.cyclic_defs
           [("C1", "C1"); ("C2", "C2")] (Some "C1") 11 (Examples.col "X")
           Examples.cyclic_query 22).
  - intros t info c rec Ht Hi. unfold Examples.cyclic_defs in Ht.
    cbn [assoc] in Ht.
    destruct (String.eqb t "C1").
    + injection Ht as <-. cbn [assoc] in Hi.
      destruct (String.eqb c "X"); [| discriminate Hi].
      injection Hi as <-. now exists 0, (Examples.col "X").
    + destruct (String.eqb t "C2"); [| discriminate Ht].
      injection Ht as <-. cbn [assoc] in Hi.
      destruct (String.eqb c "Y"); [| discriminate Hi].
      injection Hi as <-. now exists 5, (Examples.col "Y").
  - reflexivity.
  - reflexivity.
  - lia.
Defined.

(** *** Literal operands *)

(** X16.  In a comparison or an arithmetic operation whose right operand
    is a literal, the literal adds no source column and no source table:
    the columns are those of the left operand, and the table is the left
    operand's (the caller's table when the left operand has none).  The
    operation is rebuilt as a new object around the traced left operand. *)
Theorem literal_operand_adds_nothing (fuel : nat) (c : cls) (a r : nat)
    (n rn : node) (l left_transformation : argv) (am : alias_map)
    (cd : cte_defs) (current_table : option string) (h h1 : heap)
    (left_columns : list string) (left_table : string) :
  is_binary c = true ->
  h !! a = Some n -> ncls n = c ->
  arg n "this" = Some l -> arg n "expression" = Some (VNode r) ->
  extract_source_columns_and_transformation fuel l am cd current_table h
  = (h1, inr (left_columns, left_transformation, left_table)) ->
  h1 !! r = Some rn -> ncls rn = Literal ->
  extract_source_columns_and_transformation (S fuel) (VNode a) am cd
    current_table h
  = (h1 ++ [Node c [("this", left_transformation); ("expression", VNode r)]],
     inr (left_columns, VNode (List.length h1),
          if mem left_table ["unknown"; "constant"]
          then or_unknown current_table else left_table)).
Proof.
  intros Hb Ha Hn Hl Hr El Hrn Hlit.
  cbn [extract_source_columns_and_transformation].
  rewrite (bind_get_node a _ h n Ha), Hn. unfold child. rewrite Hl, Hr.
  assert (extract_source_columns_and_transformation fuel (VNode r) am cd
            current_table h1 = (h1, inr ([], VNode r, "constant"))) as Er.
  { destruct fuel as [| fuel]; [discriminate El |].
    cbn [extract_source_columns_and_transformation].
    now rewrite (bind_get_node r _ h1 rn Hrn), Hlit. }
  assert (set_update left_columns [] = left_columns) as Hcols by reflexivity.
  destruct c; try discriminate Hb; cbn [is_binary];
    unfold bind at 1; rewrite El; unfold bind at 1; rewrite Er;
    unfold bind, new, alloc; rewrite Hcols;
    cbn [List.filter mem existsb String.eqb Ascii.eqb Bool.eqb orb negb];
    (destruct (String.eqb left_table "unknown") eqn:Eu;
     [reflexivity |
      destruct (String.eqb left_table "constant") eqn:Ec; reflexivity]).
Qed.

Lemma literal_operand_adds_nothing_witness :
  extract_source_columns_and_transformation 3 (VNode 2) [("T", "T")] []
    (Some "T") Examples.bare_sum_query
  = (Ast.set 0 "table" (VStr "T") Examples.bare_sum_query
     ++ [Node Add [("this", VNode 0); ("expression", VNode 1)]],
     inr (["ID"],
          VNode (List.length
                   (Ast.set 0 "table" (VStr "T") Examples.bare_sum_query)),
          if mem "T" ["unknown"; "constant"]
          then or_unknown (Some "T") else "T")).
Proof.
  apply (literal_operand_adds_nothing 2 Add 2 1
           (Node Add [("this", VNode 0); ("expression", VNode 1)])
           (Node Literal [("this", VStr "1"); ("is_string", VBool false)])
           (VNode 0) (VNode 0) [("T", "T")] [] (Some "T")
           Examples.bare_sum_query
           (Ast.set 0 "table" (VStr "T") Examples.bare_sum_query)
           ["ID"] "T"); reflexivity.
Defined.

(** *** Statements that cannot stop the run *)

(** X19.  [main] calls [process_with_and_select] outside of any [try]; for
    a SELECT without a WITH clause that reads from a table the call always
    returns its rows, whatever the select list holds and however small the
    stack budget is: every exception of the tracing is caught per
    projection. *)
Theorem table_query_never_raises (generate : heap -> nat -> exn + string)
    (fuel ast f t : nat) (a fn tn : node) (h : heap) :
  h !! ast = Some a -> ncls a = Select ->
  truthy (arg a "with") = false ->
  arg a "from" = Some (VNode f) ->
  h !! f = Some fn -> arg fn "this" = Some (VNode t) ->
  h !! t = Some tn -> ncls tn = Table ->
  exists h' rows,
    process_with_and_select generate fuel ast h = (h', inr rows).
Proof.
  intros Ha Ca Wa Fa Hf Ft Ht Ct.
  assert (is_cls Select Select = true) as Sel by reflexivity.
  assert (is_cls Table Table = true) as Tab by reflexivity.
  unfold process_with_and_select.
  rewrite (bind_get_node ast _ h a Ha), Wa, bind_ret, Ca, Sel.
  unfold child. rewrite Fa. cbn [truthy]. cbv zeta.
  rewrite bind_bind, (bind_get_node f _ h fn Hf), bind_ret, Ft.
  rewrite bind_bind, (bind_get_node t _ h tn Ht), Ct, Tab.
  rewrite bind_bind, bind_with_heap, bind_ret. cbn [fst snd].
  apply TracerFacts.returns_process_projections.
Qed.

Lemma table_query_never_raises_witness :
  exists h' rows,
    process_with_and_select Examples.opaque_generate 0 Examples.bare_sum_root
      Examples.bare_sum_query
    = (h', inr rows).
Proof.
  apply (table_query_never_raises Examples.opaque_generate 0
           Examples.bare_sum_root 4 3 (Examples.select_ [2] 4)
           (Examples.from_ 3) (Examples.tbl "T") Examples.bare_sum_query);
    reflexivity.
Defined.

(** *** One hop of lineage *)

Lemma bind_new {B : Type} (n : node) (k : nat -> M B) (h : heap) :
  bind (new n) k h = k (List.length h) (h ++ [n]).
Proof. reflexivity. Qed.

Lemma bind_returns {A B : Type} (c : M A) (k : A -> M B) (h h1 : heap)
    (x : A) :
  c h = (h1, inr x) -> bind c k h = k x h1.
Proof. intros E. unfold bind. now rewrite E. Qed.

(** A column of a table that is no CTE is its own lineage. *)
Lemma trace_base_table (fuel : nat) (cd : cte_defs) (col : nat) (cn : node)
    (t : string) (v : visit_set) (d md : nat) (h : heap) :
  h !! col = Some cn ->
  visited_mem (t, column_sql h cn) v = false ->
  assoc t cd = None ->
  trace_column_lineage (S fuel) cd col t v d md h
  = (h, inr ([name h cn], t, VNode col)).
Proof.
  intros Hc Hv Ht. rewrite Termination.trace_column_lineage_unfold.
  rewrite (bind_get_node col _ h cn Hc), !bind_with_heap, Hv, Ht.
  now destruct (Nat.leb md d).
Qed.

(** X20.  One hop of lineage: a column of a CTE that selects it, as an
    unqualified column, from a table that is no CTE traces to that table.
    The result names the recorded source column and the table, and the
    transformation is a new column object qualified with the table; the
    objects of the AST are left as they were. *)
Theorem cte_column_traced_to_its_table (fuel : nat) (cd : cte_defs)
    (col a0 : nat) (cn n0 : node) (t src x : string) (info : cte_info)
    (h : heap) :
  h !! col = Some cn ->
  assoc t cd = Some info ->
  assoc (name h cn) info = Some (CteColumn [x] (VNode a0) src) ->
  h !! a0 = Some n0 -> ncls n0 = Column -> table h n0 = "" ->
  assoc src cd = None ->
  trace_column_lineage (S (S (S fuel))) cd col t [] 0 10 h
  = (h ++ [column (name h n0) src; column x src],
     inr ([x], src, VNode (List.length h))).
Proof.
  intros Hc Ht Hx Ha Hn Htab Hs.
  assert (String.eqb src t = false) as Hst.
  { apply String.eqb_neq. intros ->. congruence. }
  assert (forall sql sql', visited_mem (src, sql) [(t, sql')] = false) as Hv.
  { intros sql sql'. unfold visited_mem. cbn [existsb fst snd].
    now rewrite Hst. }
  rewrite Termination.trace_column_lineage_unfold.
  rewrite (bind_get_node col _ h cn Hc), !bind_with_heap.
  cbn [visited_mem existsb Nat.leb]. rewrite Ht, Hx.
  cbn [source_columns source_table transformation Nat.ltb Nat.leb].
  rewrite andb_false_r.
  assert (replace_columns (S (S fuel)) cd src [(t, column_sql h cn)] 10
            (VNode a0) 0 h
          = (h ++ [column (name h n0) src], inr (VNode (List.length h))))
    as Er.
  { rewrite TracerFacts.replace_columns_unfold.
    rewrite (bind_get_node a0 _ h n0 Ha), Hn.
    change (is_cls Column Column) with true. cbv iota.
    rewrite !bind_with_heap, Htab. cbn [String.eqb]. rewrite bind_new.
    rewrite (bind_returns _ _ _ _ _
               (trace_base_table fuel cd (List.length h)
                  (column (name h n0) src) src _ (0 + 1) 10
                  (h ++ [column (name h n0) src])
                  (Termination.lookup_new h _) (Hv _ _) Hs)).
    reflexivity. }
  rewrite (bind_returns _ _ _ _ _ Er). cbn [for_each].
  rewrite !bind_bind, bind_new, !bind_bind.
  rewrite (bind_returns _ _ _ _ _
             (trace_base_table (S fuel) cd
                (List.length (h ++ [column (name h n0) src]))
                (column x src) src _ (0 + 1) 10
                ((h ++ [column (name h n0) src]) ++ [column x src])
                (Termination.lookup_new _ _) (Hv _ _) Hs)).
  rewrite <- app_assoc. reflexivity.
Qed.

Lemma cte_column_traced_to_its_table_witness :
  trace_column_lineage 3 Examples.rename_defs 6 "A" [] 0 10
    Examples.rename_query
  = (Examples.rename_query
     ++ [column (name Examples.rename_query (Examples.col "ID")) "DB.SCH.RAW";
         column "ID" "DB.SCH.RAW"],
     inr (["ID"], "DB.SCH.RAW", VNode (List.length Examples.rename_query))).
Proof.
  apply (cte_column_traced_to_its_table 0 Examples.rename_defs 6 0
           (Examples.col "ID") (Examples.col "ID") "A" "DB.SCH.RAW" "ID"
           [("ID", CteColumn ["ID"] (VNode 0) "DB.SCH.RAW")]
           Examples.rename_query); reflexivity.
Defined.

End TracerEdges.

(** ** Qualified names in [extract_source_info_from_transformation] *)

Module SourceInfoFacts.
Import Ast Tracer Regex RegexFacts.

(** [(s + ".").rstrip('.')] for a word [s]. *)
Lemma rstrip_dot_word (s : string) :
  all is_word s = true -> rstrip_dot (String.append s ".") = s.
Proof.
  induction s as [| a s IH]; [reflexivity |].
  simpl all. intros W. apply andb_prop in W as [Wa Ws].
  cbn [String.append rstrip_dot]. rewrite (IH Ws).
  destruct s as [| b s]; [| reflexivity].
  rewrite Ascii.eqb_sym, (word_not_dot a Wa). reflexivity.
Qed.

Lemma word_starts_without_quote (s rest : string) :
  all is_word s = true -> s <> "" ->
  match String.append s rest with
  | EmptyString => True
  | String c' _ => Ascii.eqb dquote c' = false
  end.
Proof.
  destruct s as [| a s]; [congruence |]. simpl. intros W _.
  apply andb_prop in W as [Wa _]. now apply word_not_dquote.
Qed.

Section Pattern.

Let word : re := Many1 is_word.
Let dot : re := Chr "."%char.
Let quote : re := Opt (Chr dquote).
Let tail4 : re := Seq quote (Seq dot (Group 3 word)).
Let tail3 : re := Seq (Group 2 word) tail4.
Let tail2 : re := Seq (Opt (Group 1 (Seq word dot))) tail3.
Let found (rest : string) (g : groups) : option (string * groups) :=
  Some (rest, g).

(** A group [\w+\.] takes the word and the dot in front of [rest], when
    what follows can go on from there. *)
Lemma word_dot_taken i (s rest : string) g
    (k : string -> groups -> option (string * groups)) x :
  all is_word s = true -> s <> "" ->
  k rest (set_group i (String.append s ".") g) = Some x ->
  matches (Group i (Seq word dot)) (String.append s (String "."%char rest)) g k
  = Some x.
Proof.
  intros W N K. rewrite matches_group, matches_seq.
  apply many1_run_first; [exact N | exact W | reflexivity |].
  unfold dot. rewrite matches_chr_hit.
  change (String "."%char rest) with (String.append "." rest).
  rewrite <- append_assoc, consumed_append. exact K.
Qed.

(** The table and the column of [t.c]. *)
Lemma table_and_column (t c : string) g :
  all is_word t = true -> all is_word c = true -> t <> "" -> c <> "" ->
  matches tail3 (String.append t (String "."%char c)) g found
  = Some ("", set_group 3 c (set_group 2 t g)).
Proof.
  intros Wt Wc Nt Nc. unfold tail3, tail4.
  rewrite matches_seq, matches_group.
  apply many1_run_first; [exact Nt | exact Wt | reflexivity |].
  rewrite matches_seq. unfold quote.
  rewrite matches_opt_skip by (apply matches_chr_miss; reflexivity).
  rewrite matches_seq. unfold dot. rewrite matches_chr_hit, matches_group.
  rewrite <- (append_nil_r c) at 1.
  apply many1_run_first; [exact Nc | exact Wc | reflexivity |].
  unfold found. rewrite consumed_all.
  change (String "."%char c) with (String.append "." c).
  now rewrite consumed_append.
Qed.

(** On [t.c] the second optional group takes no part. *)
Lemma second_group_skipped (t c : string) g :
  all is_word t = true -> all is_word c = true -> t <> "" -> c <> "" ->
  matches tail2 (String.append t (String "."%char c)) g found
  = Some ("", set_group 3 c (set_group 2 t g)).
Proof.
  intros Wt Wc Nt Nc. unfold tail2. rewrite matches_seq.
  rewrite matches_opt_skip.
  - now apply table_and_column.
  - apply PlainColumns.word_dot_on_qualified; [exact Wt |].
    intros g'. now apply PlainColumns.tail3_fails_on_word.
Qed.

Lemma match_three_parts (s t c : string) :
  all is_word s = true -> all is_word t = true -> all is_word c = true ->
  s <> "" -> t <> "" -> c <> "" ->
  match_at source_info_pattern
    (String.append s (String "."%char (String.append t (String "."%char c))))
  = Some ("", [Some (String.append s "."); None; Some t; Some c]).
Proof.
  intros Ws Wt Wc Ns Nt Nc. unfold match_at, source_info_pattern.
  rewrite matches_seq.
  rewrite matches_opt_skip
    by (apply matches_chr_miss; now apply word_starts_without_quote).
  rewrite matches_seq.
  apply matches_opt_take.
  apply word_dot_taken; [exact Ws | exact Ns |].
  exact (second_group_skipped t c _ Wt Wc Nt Nc).
Qed.

Lemma match_four_parts (d s t c : string) :
  all is_word d = true -> all is_word s = true ->
  all is_word t = true -> all is_word c = true ->
  d <> "" -> s <> "" -> t <> "" -> c <> "" ->
  match_at source_info_pattern
    (String.append d (String "."%char
       (String.append s (String "."%char
          (String.append t (String "."%char c))))))
  = Some ("", [Some (String.append d "."); Some (String.append s ".");
               Some t; Some c]).
Proof.
  intros Wd Ws Wt Wc Nd Ns Nt Nc. unfold match_at, source_info_pattern.
  rewrite matches_seq.
  rewrite matches_opt_skip
    by (apply matches_chr_miss; now apply word_starts_without_quote).
  rewrite matches_seq.
  apply matches_opt_take.
  apply word_dot_taken; [exact Wd | exact Nd |].
  rewrite matches_seq.
  apply matches_opt_take.
  apply word_dot_taken; [exact Ws | exact Ns |].
  exact (table_and_column t c _ Wt Wc Nt Nc).
Qed.

End Pattern.

(** X17.  A transformation that is the name [SCHEMA.TABLE.COLUMN] is taken
    apart with the schema in the place of the database: the first optional
    group of the pattern takes [SCHEMA.], and the schema is reported as
    absent. *)
Theorem schema_reported_as_database (s t c : string) :
  all is_word s = true -> all is_word t = true -> all is_word c = true ->
  s <> "" -> t <> "" -> c <> "" ->
  extract_source_info_from_transformation
    (String.append s (String.append "."
       (String.append t (String.append "." c))))
  = SourceInfo (Some s) None (Some t) (Some c).
Proof.
  intros Ws Wt Wc Ns Nt Nc.
  unfold extract_source_info_from_transformation.
  change (String.append s (String.append "."
            (String.append t (String.append "." c))))
    with (String.append s (String "."%char
            (String.append t (String "."%char c)))).
  rewrite (PlainColumns.search_at_start _ _ _ _
             (match_three_parts s t c Ws Wt Wc Ns Nt Nc)).
  cbn [group nth_error Nat.sub option_map]. now rewrite rstrip_dot_word.
Qed.

Lemma schema_reported_as_database_witness :
  extract_source_info_from_transformation
    (String.append "SCH" (String.append "."
       (String.append "RAW" (String.append "." "ID"))))
  = SourceInfo (Some "SCH") None (Some "RAW") (Some "ID").
Proof.
  apply (schema_reported_as_database "SCH" "RAW" "ID");
    solve [reflexivity | discriminate].
Defined.

(** X18.  A transformation that is the name
    [DATABASE.SCHEMA.TABLE.COLUMN] is taken apart into its four parts, the
    database and the schema without their dots. *)
Theorem four_part_name_taken_apart (d s t c : string) :
  all is_word d = true -> all is_word s = true ->
  all is_word t = true -> all is_word c = true ->
  d <> "" -> s <> "" -> t <> "" -> c <> "" ->
  extract_source_info_from_transformation
    (String.append d (String.append "."
       (String.append s (String.append "."
          (String.append t (String.append "." c))))))
  = SourceInfo (Some d) (Some s) (Some t) (Some c).
Proof.
  intros Wd Ws Wt Wc Nd Ns Nt Nc.
  unfold extract_source_info_from_transformation.
  change (String.append d (String.append "."
            (String.append s (String.append "."
               (String.append t (String.append "." c))))))
    with (String.append d (String "."%char
            (String.append s (String "."%char
               (String.append t (String "."%char c)))))).
  rewrite (PlainColumns.search_at_start _ _ _ _
             (match_four_parts d s t c Wd Ws Wt Wc Nd Ns Nt Nc)).
  cbn [group nth_error Nat.sub option_map]. now rewrite !rstrip_dot_word.
Qed.

Lemma four_part_name_taken_apart_witness :
  extract_source_info_from_transformation
    (String.append "DB" (String.append "."
       (String.append "SCH" (String.append "."
          (String.append "RAW" (String.append "." "ID"))))))
  = SourceInfo (Some "DB") (Some "SCH") (Some "RAW") (Some "ID").
Proof.
  apply (four_part_name_taken_apart "DB" "SCH" "RAW" "ID");
    solve [reflexivity | discriminate].
Defined.

End SourceInfoFacts.
